(** * otio-fcp7xml: the FCP7 XML decoder and encoder, embedded and verified

    The development follows the Go sources:
    - the schema model (the [XMEML] tree of structs),
    - [decoder.go] (interchange XML to timeline model),
    - the encoder (timeline model to interchange XML),
    together with the part of the timeline-model API they consume.

    Conventions.  A Go [int64] or [int] is a [Z] with its wrap-around written
    out ([Go.wrap64]); a [float64] is a primitive binary64 [float], so the
    frame-rate arithmetic computes bit-for-bit as the program does; a string
    is a [string] of bytes; a nilable pointer is an [option]; a function that
    returns [(T, error)] returns a [Go.result]. *)

From Stdlib Require Import ZArith Floats String Ascii List Lia Sorted Permutation.
From stdpp Require Import base gmap list strings pretty.

Set Default Proof Using "Type".
Set Warnings "-register-all,-inexact-float".

(* ===================================================================== *)
(** ** Go primitives *)
(* ===================================================================== *)

Module Go.

(** [error] values: [errors.New]/[fmt.Errorf] without [%w], and
    [fmt.Errorf("...: %w", err)] which keeps the wrapped cause. *)
Inductive error : Type :=
| errorString (msg : string)
| wrapError (msg : string) (cause : error).

Inductive result (A : Type) : Type :=
| Ok (a : A)
| Err (e : error).
Arguments Ok {A} a.
Arguments Err {A} e.

Definition bind {A B : Type} (r : result A) (k : A -> result B) : result B :=
  match r with
  | Ok a => k a
  | Err e => Err e
  end.

(** [wrapf msg r]: the idiom
    [if err != nil { return nil, fmt.Errorf(msg + ": %w", err) }]. *)
Definition wrapf {A : Type} (msg : string) (r : result A) : result A :=
  match r with
  | Ok a => Ok a
  | Err e => Err (wrapError msg e)
  end.

Definition isOk {A : Type} (r : result A) : bool :=
  match r with Ok _ => true | Err _ => false end.

(** The outermost message of an error. *)
Definition message (e : error) : string :=
  match e with
  | errorString m => m
  | wrapError m _ => m
  end.

(** The innermost cause, as [errors.Unwrap] applied repeatedly finds it. *)
Fixpoint rootCause (e : error) : error :=
  match e with
  | errorString m => errorString m
  | wrapError _ c => rootCause c
  end.

Definition minInt64 : Z := (- 2 ^ 63)%Z.
Definition maxInt64 : Z := (2 ^ 63 - 1)%Z.

(** Two's-complement wrap-around of 64-bit signed arithmetic. *)
Definition wrap64 (z : Z) : Z := ((z + 2 ^ 63) mod 2 ^ 64 - 2 ^ 63)%Z.

Definition add64 (a b : Z) : Z := wrap64 (a + b).
Definition sub64 (a b : Z) : Z := wrap64 (a - b).

(** [float64(n)] for an integer [n]: rounding to nearest, ties to even. *)
Definition float64_of_int (n : Z) : float :=
  SF2Prim (binary_normalize prec emax n 0 false).

(** [int64(f)] and [int(f)]: truncation toward zero.  For a NaN, an
    infinity or a value outside the 64-bit range Go leaves the result to
    the platform; the model returns what amd64 gives, the least int64. *)
Definition int64_of_float64 (f : float) : Z :=
  match Prim2SF f with
  | S754_zero _ => 0%Z
  | S754_finite s m e =>
      let a := match e with
               | Zneg _ => Z.shiftr (Zpos m) (- e)
               | _ => Z.shiftl (Zpos m) e
               end in
      let v := if s then (- a)%Z else a in
      if ((minInt64 <=? v) && (v <=? maxInt64))%Z then v else minInt64
  | _ => minInt64
  end.

End Go.

Import Go.

(** [result] is an error monad; stdpp's [x ← r; k] reads as Go's
    [x, err := r; if err != nil { return nil, err }; k]. *)
#[global] Instance result_ret : MRet result := fun A a => Ok a.
#[global] Instance result_bind : MBind result := fun A B k r => Go.bind r k.

(* ===================================================================== *)
(** ** The schema model *)
(* ===================================================================== *)

(** The structs of the interchange document.  Fields that neither the
    decoder nor the encoder reads or writes ([XMLName], [Timecode],
    [Locked], [SourceTrack], [Labels], [Comments], [Link], the file's
    [Timecode] and [Media], [Anamorphic], [AlphaType], the sequence's
    markers) keep their zero value throughout and are left out.  Field names carry
    their struct's name, since one Rocq module cannot declare [Name] twice. *)
Module Schema.

Record Rate : Type := mkRate {
  Rate_Timebase : Z;
  Rate_NTSC : bool
}.

Record Color : Type := mkColor {
  Color_Red : Z;
  Color_Green : Z;
  Color_Blue : Z;
  Color_Alpha : Z
}.

Record Marker : Type := mkMarker {
  Marker_Name : string;
  Marker_Comment : string;
  Marker_In : Z;
  Marker_Out : Z;
  Marker_Color : option Color
}.

(** The struct [Parameter] of the source; the name is a reserved word
    of Rocq, hence [Param]. *)
Record Param : Type := mkParam {
  Param_ParameterID : string;
  Param_Name : string;
  Param_Value : string;
  Param_ValueID : string;
  Param_ValueMin : option float;
  Param_ValueMax : option float;
  Param_ValueList : string
}.

Record Effect : Type := mkEffect {
  Effect_Name : string;
  Effect_EffectID : string;
  Effect_EffectType : string;
  Effect_MediaType : string;
  Effect_EffectCategory : string;
  Effect_Duration : Z;
  Effect_StartRatio : option float;
  Effect_EndRatio : option float;
  Effect_Reverse : option bool;
  Effect_Parameter : list Param
}.

Record Filter : Type := mkFilter {
  Filter_Enabled : option bool;
  Filter_Start : Z;
  Filter_End : Z;
  Filter_Effect : option Effect
}.

Record File : Type := mkFile {
  File_ID : string;
  File_Name : string;
  File_PathURL : string;
  File_Rate : Rate;
  File_Duration : Z
}.

Record TransitionItem : Type := mkTransitionItem {
  TransitionItem_Name : string;
  TransitionItem_Rate : Rate;
  TransitionItem_Start : Z;
  TransitionItem_End : Z;
  TransitionItem_Alignment : string;
  TransitionItem_Effect : option Effect
}.

Record GeneratorItem : Type := mkGeneratorItem {
  GeneratorItem_Name : string;
  GeneratorItem_Duration : Z;
  GeneratorItem_Rate : Rate;
  GeneratorItem_Start : Z;
  GeneratorItem_End : Z;
  GeneratorItem_In : Z;
  GeneratorItem_Out : Z;
  GeneratorItem_Enabled : option bool;
  GeneratorItem_Effect : option Effect;
  GeneratorItem_Filter : list Filter;
  GeneratorItem_Marker : list Marker
}.

(** A clip item may embed a whole sequence, whose tracks hold clip items
    again: the four structs are mutually recursive. *)
Inductive Sequence : Type :=
  mkSequence (Name : string) (Duration : Z) (Rate : Rate) (Media : Media)
with Media : Type :=
  mkMedia (Video : option (list Track)) (Audio : option (list Track))
with Track : Type :=
  mkTrack (Enabled : option bool) (ClipItem : list ClipItem)
          (TransitionItem : list TransitionItem)
          (GeneratorItem : list GeneratorItem)
with ClipItem : Type :=
  mkClipItem (ID : string) (Name : string) (Enabled : option bool)
             (Duration : Z) (Rate : Rate) (Start End In Out : Z)
             (File : option File) (Sequence : option Sequence)
             (Filter : list Filter) (Effect : list Effect)
             (Marker : list Marker).

Definition Sequence_Name (s : Sequence) : string :=
  match s with mkSequence n _ _ _ => n end.
Definition Sequence_Duration (s : Sequence) : Z :=
  match s with mkSequence _ d _ _ => d end.
Definition Sequence_Rate (s : Sequence) : Rate :=
  match s with mkSequence _ _ r _ => r end.
Definition Sequence_Media (s : Sequence) : Media :=
  match s with mkSequence _ _ _ m => m end.

(** [Media.Video] is a [*Video] whose only field is the track slice; a
    nil pointer is [None]. *)
Definition Media_Video (m : Media) : option (list Track) :=
  match m with mkMedia v _ => v end.
Definition Media_Audio (m : Media) : option (list Track) :=
  match m with mkMedia _ a => a end.

Definition Track_Enabled (t : Track) : option bool :=
  match t with mkTrack e _ _ _ => e end.
Definition Track_ClipItem (t : Track) : list ClipItem :=
  match t with mkTrack _ c _ _ => c end.
Definition Track_TransitionItem (t : Track) : list TransitionItem :=
  match t with mkTrack _ _ tr _ => tr end.
Definition Track_GeneratorItem (t : Track) : list GeneratorItem :=
  match t with mkTrack _ _ _ g => g end.

Definition ClipItem_ID (c : ClipItem) : string :=
  match c with mkClipItem x _ _ _ _ _ _ _ _ _ _ _ _ _ => x end.
Definition ClipItem_Name (c : ClipItem) : string :=
  match c with mkClipItem _ x _ _ _ _ _ _ _ _ _ _ _ _ => x end.
Definition ClipItem_Enabled (c : ClipItem) : option bool :=
  match c with mkClipItem _ _ x _ _ _ _ _ _ _ _ _ _ _ => x end.
Definition ClipItem_Duration (c : ClipItem) : Z :=
  match c with mkClipItem _ _ _ x _ _ _ _ _ _ _ _ _ _ => x end.
Definition ClipItem_Rate (c : ClipItem) : Rate :=
  match c with mkClipItem _ _ _ _ x _ _ _ _ _ _ _ _ _ => x end.
Definition ClipItem_Start (c : ClipItem) : Z :=
  match c with mkClipItem _ _ _ _ _ x _ _ _ _ _ _ _ _ => x end.
Definition ClipItem_End (c : ClipItem) : Z :=
  match c with mkClipItem _ _ _ _ _ _ x _ _ _ _ _ _ _ => x end.
Definition ClipItem_In (c : ClipItem) : Z :=
  match c with mkClipItem _ _ _ _ _ _ _ x _ _ _ _ _ _ => x end.
Definition ClipItem_Out (c : ClipItem) : Z :=
  match c with mkClipItem _ _ _ _ _ _ _ _ x _ _ _ _ _ => x end.
Definition ClipItem_File (c : ClipItem) : option File :=
  match c with mkClipItem _ _ _ _ _ _ _ _ _ x _ _ _ _ => x end.
Definition ClipItem_Sequence (c : ClipItem) : option Sequence :=
  match c with mkClipItem _ _ _ _ _ _ _ _ _ _ x _ _ _ => x end.
Definition ClipItem_Filter (c : ClipItem) : list Filter :=
  match c with mkClipItem _ _ _ _ _ _ _ _ _ _ _ x _ _ => x end.
Definition ClipItem_Effect (c : ClipItem) : list Effect :=
  match c with mkClipItem _ _ _ _ _ _ _ _ _ _ _ _ x _ => x end.
Definition ClipItem_Marker (c : ClipItem) : list Marker :=
  match c with mkClipItem _ _ _ _ _ _ _ _ _ _ _ _ _ x => x end.

(** The root element: the ordered sequences of the document. *)
Record XMEML : Type := mkXMEML {
  XMEML_Version : string;
  XMEML_Sequence : list Sequence
}.

End Schema.

Import Schema.

(* ===================================================================== *)
(** ** The timeline model consumed by the translators *)
(* ===================================================================== *)

(** The values of the [opentime] and [opentimelineio] packages that the
    decoder builds and the encoder reads, with the accessors used.  The
    packages are collaborators of the repository: the model keeps the
    fields the translators set or observe. *)
Module Otio.

Record RationalTime : Type := NewRationalTime {
  rt_Value : float;
  rt_Rate : float
}.

Record TimeRange : Type := NewTimeRange {
  tr_StartTime : RationalTime;
  tr_Duration : RationalTime
}.

(** [RationalTime.Add]: the sum at the common rate, or at the greater of
    the two rates after rescaling the other operand. *)
Definition rt_ValueRescaledTo (t : RationalTime) (newRate : float) : float :=
  if PrimFloat.eqb newRate (rt_Rate t) then rt_Value t
  else PrimFloat.div (PrimFloat.mul (rt_Value t) newRate) (rt_Rate t).

Definition rt_Add (a b : RationalTime) : RationalTime :=
  if PrimFloat.ltb (rt_Rate a) (rt_Rate b)
  then NewRationalTime
         (PrimFloat.add (rt_ValueRescaledTo a (rt_Rate b)) (rt_Value b))
         (rt_Rate b)
  else NewRationalTime
         (PrimFloat.add (rt_ValueRescaledTo b (rt_Rate a)) (rt_Value a))
         (rt_Rate a).

(** The dynamic values an [AnyDictionary] (a [map[string]any]) holds in
    this program: the types the decoder stores and the encoder asserts. *)
Inductive Any : Type :=
| AnyBool (b : bool)
| AnyString (s : string)
| AnyInt64 (n : Z)
| AnyFloat64 (f : float)
| AnyDict (d : gmap string Any)
| AnyDictSlice (l : list (gmap string Any))
| AnyIntMap (m : gmap string Z).

(** A nil map and an empty map answer every lookup alike, so both are
    the empty [gmap]. *)
Abbreviation AnyDictionary := (gmap string Any).

(** The type assertions [v.(bool)], [v.(string)], ... on a looked-up
    value: [None] when the key is absent or holds another dynamic type. *)
Definition asBool (v : option Any) : option bool :=
  match v with Some (AnyBool b) => Some b | _ => None end.
Definition asString (v : option Any) : option string :=
  match v with Some (AnyString s) => Some s | _ => None end.
Definition asInt64 (v : option Any) : option Z :=
  match v with Some (AnyInt64 n) => Some n | _ => None end.
Definition asFloat64 (v : option Any) : option float :=
  match v with Some (AnyFloat64 f) => Some f | _ => None end.
Definition asDict (v : option Any) : option AnyDictionary :=
  match v with Some (AnyDict d) => Some d | _ => None end.
Definition asDictSlice (v : option Any) : option (list AnyDictionary) :=
  match v with Some (AnyDictSlice l) => Some l | _ => None end.
Definition asIntMap (v : option Any) : option (gmap string Z) :=
  match v with Some (AnyIntMap m) => Some m | _ => None end.

Inductive MissingFramePolicy : Type :=
| MissingFramePolicyError
| MissingFramePolicyHold
| MissingFramePolicyBlack.

(** The kinds of media reference, one constructor per concrete type
    behind the [MediaReference] interface. *)
Inductive MediaReference : Type :=
| ExternalReference (name targetURL : string)
    (availableRange : option TimeRange) (metadata : AnyDictionary)
| MissingReference (name : string)
    (availableRange : option TimeRange) (metadata : AnyDictionary)
| GeneratorReference (name generatorKind : string)
    (parameters : AnyDictionary)
    (availableRange : option TimeRange) (metadata : AnyDictionary)
| ImageSequenceReference (name targetURLBase namePrefix nameSuffix : string)
    (startFrame frameStep : Z) (rate : float) (frameZeroPadding : Z)
    (availableRange : option TimeRange) (metadata : AnyDictionary)
    (policy : MissingFramePolicy).

Definition MediaReference_Name (r : MediaReference) : string :=
  match r with
  | ExternalReference n _ _ _ => n
  | MissingReference n _ _ => n
  | GeneratorReference n _ _ _ _ => n
  | ImageSequenceReference n _ _ _ _ _ _ _ _ _ _ => n
  end.

Definition MediaReference_AvailableRange (r : MediaReference)
  : option TimeRange :=
  match r with
  | ExternalReference _ _ a _ => a
  | MissingReference _ a _ => a
  | GeneratorReference _ _ _ a _ => a
  | ImageSequenceReference _ _ _ _ _ _ _ _ a _ _ => a
  end.

Definition MarkerColorGreen : string := "GREEN".

Record Marker : Type := NewMarker {
  Marker_Name : string;
  Marker_MarkedRange : TimeRange;
  Marker_Color : string;
  Marker_Comment : string;
  Marker_Metadata : AnyDictionary
}.

(** A clip.  [NewClip] takes, besides the fields below, an effect list,
    an active-reference key and a colour; the decoder passes nil, the
    empty string and nil, and the encoder reads none of them. *)
Record Clip : Type := mkClip {
  Clip_Name : string;
  Clip_MediaReference : option MediaReference;
  Clip_SourceRange : option TimeRange;
  Clip_Metadata : AnyDictionary;
  Clip_Markers : list Marker;
  Clip_Enabled : bool
}.

(** [NewClip]: a new clip is enabled. *)
Definition NewClip (name : string) (ref : option MediaReference)
    (sourceRange : option TimeRange) (metadata : AnyDictionary)
    (markers : list Marker) : Clip :=
  mkClip name ref sourceRange metadata markers true.

Definition Clip_SetEnabled (c : Clip) (b : bool) : Clip :=
  mkClip (Clip_Name c) (Clip_MediaReference c) (Clip_SourceRange c)
         (Clip_Metadata c) (Clip_Markers c) b.

(** Modelled from the spec: [Clip.AvailableRange] and [Clip.Duration] of
    the timeline library.  A clip's duration is that of its source range
    when it has one and that of its reference's available range
    otherwise; it is unavailable when the clip has neither. *)
Definition Clip_AvailableRange (c : Clip) : result TimeRange :=
  match Clip_MediaReference c with
  | None => Err (errorString "no media reference")
  | Some r =>
      match MediaReference_AvailableRange r with
      | Some a => Ok a
      | None => Err (errorString "no available range")
      end
  end.

Definition Clip_Duration (c : Clip) : result RationalTime :=
  match Clip_SourceRange c with
  | Some sr => Ok (tr_Duration sr)
  | None => a ← Clip_AvailableRange c; Ok (tr_Duration a)
  end.

Definition TransitionTypeCustom : string := "Custom_Transition".

Record Transition : Type := NewTransition {
  Transition_Name : string;
  Transition_TransitionType : string;
  Transition_InOffset : RationalTime;
  Transition_OutOffset : RationalTime;
  Transition_Metadata : AnyDictionary
}.

Record Gap : Type := mkGap {
  Gap_Name : string;
  Gap_SourceRange : option TimeRange
}.

(** [NewGapWithDuration d]: a gap whose source range is [[0, d)]. *)
Definition NewGapWithDuration (d : RationalTime) : Gap :=
  mkGap "" (Some (NewTimeRange (NewRationalTime 0%float (rt_Rate d)) d)).

(** Modelled from the spec: [Gap.Duration], the duration of the gap's
    source range. *)
Definition Gap_Duration (g : Gap) : result RationalTime :=
  match Gap_SourceRange g with
  | Some sr => Ok (tr_Duration sr)
  | None => Err (errorString "no source range")
  end.

Definition TrackKindVideo : string := "Video".
Definition TrackKindAudio : string := "Audio".

(** What a composition holds: the [Composable] interface, one
    constructor per concrete type.  A track may hold clips, transitions
    and gaps, and also compositions (a nested track or stack). *)
Inductive Composable : Type :=
| CClip (c : Clip)
| CTransition (t : Transition)
| CGap (g : Gap)
| CTrack (t : Track)
| CStack (name : string) (children : list Composable)
with Track : Type :=
  mkTrack (name kind : string) (children : list Composable)
          (enabled : bool).

Definition Track_Name (t : Track) : string :=
  match t with mkTrack n _ _ _ => n end.
Definition Track_Kind (t : Track) : string :=
  match t with mkTrack _ k _ _ => k end.
Definition Track_Children (t : Track) : list Composable :=
  match t with mkTrack _ _ c _ => c end.
Definition Track_Enabled (t : Track) : bool :=
  match t with mkTrack _ _ _ e => e end.

(** [NewTrack]: no children, enabled. *)
Definition NewTrack (name kind : string) : Track := mkTrack name kind [] true.

Definition Track_SetEnabled (t : Track) (b : bool) : Track :=
  mkTrack (Track_Name t) (Track_Kind t) (Track_Children t) b.

(** [Track.AppendChild].  The library refuses a nil child and a child
    that already has a parent; the decoder only appends values it has
    just built, for which the call returns no error. *)
Definition Track_AppendChild (t : Track) (c : Composable) : result Track :=
  Ok (mkTrack (Track_Name t) (Track_Kind t) (Track_Children t ++ [c])
              (Track_Enabled t)).

(** A timeline: its name and the children of its [Tracks()] stack.  A
    timeline built by [NewTimeline] always has the stack. *)
Record Timeline : Type := mkTimeline {
  Timeline_Name : string;
  Timeline_Tracks : list Composable
}.

Definition NewTimeline (name : string) : Timeline := mkTimeline name [].

(** [timeline.Tracks().AppendChild(track)], under the same proviso as
    [Track_AppendChild]. *)
Definition Timeline_AppendTrack (tl : Timeline) (t : Track)
  : result Timeline :=
  Ok (mkTimeline (Timeline_Name tl) (Timeline_Tracks tl ++ [CTrack t])).

Definition tracksOfKind (kind : string) (l : list Composable) : list Track :=
  flat_map (fun c =>
    match c with
    | CTrack t => if String.eqb (Track_Kind t) kind then [t] else []
    | _ => []
    end) l.

(** [Timeline.VideoTracks] and [Timeline.AudioTracks]: the tracks of the
    stack of the given kind, in stack order. *)
Definition Timeline_VideoTracks (tl : Timeline) : list Track :=
  tracksOfKind TrackKindVideo (Timeline_Tracks tl).
Definition Timeline_AudioTracks (tl : Timeline) : list Track :=
  tracksOfKind TrackKindAudio (Timeline_Tracks tl).

End Otio.

Import Otio.

(* ===================================================================== *)
(** ** The decoder *)
(* ===================================================================== *)


Module Decoder.

(** [rateToFrameRate]: the effective frames per second of a rate. *)
Definition rateToFrameRate (rate : Rate) : float :=
  let frameRate := float64_of_int (Rate_Timebase rate) in
  if Rate_NTSC rate
  then PrimFloat.div (PrimFloat.mul frameRate 1000%float) 1001%float
  else frameRate.

(** [parameterToMetadata]. *)
Definition parameterToMetadata (p : Param) : AnyDictionary :=
  let metadata : AnyDictionary := ∅ in
  let metadata :=
    if negb (String.eqb (Param_ParameterID p) "")
    then <["parameterid" := AnyString (Param_ParameterID p)]> metadata
    else metadata in
  let metadata :=
    if negb (String.eqb (Param_Name p) "")
    then <["name" := AnyString (Param_Name p)]> metadata else metadata in
  let metadata :=
    if negb (String.eqb (Param_Value p) "")
    then <["value" := AnyString (Param_Value p)]> metadata else metadata in
  let metadata :=
    if negb (String.eqb (Param_ValueID p) "")
    then <["valueid" := AnyString (Param_ValueID p)]> metadata
    else metadata in
  let metadata :=
    match Param_ValueMin p with
    | Some v => <["valuemin" := AnyFloat64 v]> metadata
    | None => metadata
    end in
  let metadata :=
    match Param_ValueMax p with
    | Some v => <["valuemax" := AnyFloat64 v]> metadata
    | None => metadata
    end in
  let metadata :=
    if negb (String.eqb (Param_ValueList p) "")
    then <["valuelist" := AnyString (Param_ValueList p)]> metadata
    else metadata in
  metadata.

(** [effectToMetadata]. *)
Definition effectToMetadata (effect : Effect) : AnyDictionary :=
  let metadata : AnyDictionary := ∅ in
  let metadata := <["name" := AnyString (Effect_Name effect)]> metadata in
  let metadata :=
    <["effectid" := AnyString (Effect_EffectID effect)]> metadata in
  let metadata :=
    <["effecttype" := AnyString (Effect_EffectType effect)]> metadata in
  let metadata :=
    <["mediatype" := AnyString (Effect_MediaType effect)]> metadata in
  let metadata :=
    if negb (String.eqb (Effect_EffectCategory effect) "")
    then <["effectcategory" := AnyString (Effect_EffectCategory effect)]>
           metadata
    else metadata in
  let metadata :=
    if (0 <? Effect_Duration effect)%Z
    then <["duration" := AnyInt64 (Effect_Duration effect)]> metadata
    else metadata in
  let metadata :=
    match Effect_StartRatio effect with
    | Some v => <["startratio" := AnyFloat64 v]> metadata
    | None => metadata
    end in
  let metadata :=
    match Effect_EndRatio effect with
    | Some v => <["endratio" := AnyFloat64 v]> metadata
    | None => metadata
    end in
  let metadata :=
    match Effect_Reverse effect with
    | Some v => <["reverse" := AnyBool v]> metadata
    | None => metadata
    end in
  let metadata :=
    match Effect_Parameter effect with
    | [] => metadata
    | ps => <["parameters" := AnyDictSlice (map parameterToMetadata ps)]>
              metadata
    end in
  metadata.

(** [effectsToMetadata]. *)
Definition effectsToMetadata (effects : list Effect) : list AnyDictionary :=
  map effectToMetadata effects.

(** [filtersToMetadata]. *)
Definition filtersToMetadata (filters : list Filter) : list AnyDictionary :=
  map (fun f =>
    let filterMeta : AnyDictionary := ∅ in
    let filterMeta :=
      match Filter_Enabled f with
      | Some b => <["enabled" := AnyBool b]> filterMeta
      | None => filterMeta
      end in
    let filterMeta :=
      if (0 <? Filter_Start f)%Z
      then <["start" := AnyInt64 (Filter_Start f)]> filterMeta
      else filterMeta in
    let filterMeta :=
      if (0 <? Filter_End f)%Z
      then <["end" := AnyInt64 (Filter_End f)]> filterMeta
      else filterMeta in
    let filterMeta :=
      match Filter_Effect f with
      | Some e => <["effect" := AnyDict (effectToMetadata e)]> filterMeta
      | None => filterMeta
      end in
    filterMeta) filters.

(** [convertMarker]: the marked range is [[in, out - in)] at the rate of
    the containing item; the vendor colour goes to the metadata. *)
Definition convertMarker (m : Schema.Marker) (frameRate : float)
  : Otio.Marker :=
  let markedRange :=
    NewTimeRange
      (NewRationalTime (float64_of_int (Schema.Marker_In m)) frameRate)
      (NewRationalTime
         (float64_of_int (sub64 (Schema.Marker_Out m) (Schema.Marker_In m)))
         frameRate) in
  let metadata : AnyDictionary := ∅ in
  let metadata :=
    if negb (String.eqb (Schema.Marker_Comment m) "")
    then <["comment" := AnyString (Schema.Marker_Comment m)]> metadata
    else metadata in
  let metadata :=
    match Schema.Marker_Color m with
    | Some c =>
        <["fcp7xml_color" :=
            AnyIntMap (<["red" := Color_Red c]>
                       (<["green" := Color_Green c]>
                        (<["blue" := Color_Blue c]>
                         (<["alpha" := Color_Alpha c]> ∅))))]> metadata
    | None => metadata
    end in
  NewMarker (Schema.Marker_Name m) markedRange MarkerColorGreen
            (Schema.Marker_Comment m) metadata.

(** The byte [name[i]]; the loops below only index inside the string. *)
Definition byteAt (name : string) (i : nat) : nat :=
  match String.get i name with
  | Some c => nat_of_ascii c
  | None => 0
  end.

(** The first loop of [createMediaReference]: some [i < len(name) - 3]
    has [name[i:i+4] == "####"]. *)
Definition hasHashPattern (name : string) : bool :=
  existsb (fun i => String.eqb (substring i 4 name) "####")
          (seq 0 (String.length name - 3)).

(** The second loop: some [i < len(name) - 4] has a percent sign, then a
    digit, and a [d] three or four bytes after the percent sign. *)
Definition hasPrintfPattern (name : string) : bool :=
  existsb (fun i =>
             Nat.eqb (byteAt name i) 37
             && Nat.leb 48 (byteAt name (i + 1))
             && Nat.leb (byteAt name (i + 1)) 57
             && (Nat.eqb (byteAt name (i + 3)) 100
                 || Nat.eqb (byteAt name (i + 4)) 100))
          (seq 0 (String.length name - 4)).

Definition isImageSequenceName (name : string) : bool :=
  if Nat.ltb 0 (String.length name)
  then
    if hasHashPattern name then true
    else if Nat.ltb 4 (String.length name) then hasPrintfPattern name
         else false
  else false.

(** [createMediaReference]: an image-sequence reference when the file
    name carries a sequence pattern, an external reference otherwise. *)
Definition createMediaReference (file : File) (frameRate : float)
  : MediaReference :=
  let availableRange :=
    NewTimeRange (NewRationalTime 0%float frameRate)
                 (NewRationalTime (float64_of_int (File_Duration file))
                                  frameRate) in
  let name := File_Name file in
  let pathURL := File_PathURL file in
  if isImageSequenceName name
  then
    let metadata : AnyDictionary :=
      <["fcp7xml_file_id" := AnyString (File_ID file)]> ∅ in
    ImageSequenceReference name pathURL "" "" 0 1 frameRate 4
                           (Some availableRange) metadata
                           MissingFramePolicyError
  else ExternalReference name pathURL (Some availableRange) ∅.

(** [convertClipItem].  The second argument, the rate of the sequence, is
    not used: each item carries its own rate.  A clip item that embeds a
    nested sequence becomes a placeholder clip with a missing reference;
    the nested sequence is not decoded. *)
Definition convertClipItem (item : ClipItem) (sequenceRate : Rate)
  : result Composable :=
  let rate := ClipItem_Rate item in
  let frameRate := float64_of_int (Rate_Timebase rate) in
  let frameRate :=
    if Rate_NTSC rate
    then PrimFloat.div (PrimFloat.mul frameRate 1000%float) 1001%float
    else frameRate in
  let sourceStart :=
    NewRationalTime (float64_of_int (ClipItem_In item)) frameRate in
  let sourceDuration :=
    NewRationalTime
      (float64_of_int (sub64 (ClipItem_Out item) (ClipItem_In item)))
      frameRate in
  let sourceRange := NewTimeRange sourceStart sourceDuration in
  match ClipItem_Sequence item with
  | Some nested =>
      let metadata : AnyDictionary := ∅ in
      let metadata := <["fcp7xml_nested_sequence" := AnyBool true]> metadata in
      let metadata :=
        <["fcp7xml_sequence_name" := AnyString (Sequence_Name nested)]>
          metadata in
      Ok (CClip (NewClip (ClipItem_Name item)
                         (Some (MissingReference "" None ∅))
                         (Some sourceRange) metadata []))
  | None =>
      let mediaRef :=
        match ClipItem_File item with
        | Some file =>
            if negb (String.eqb (File_PathURL file) "")
            then createMediaReference file frameRate
            else MissingReference "" None ∅
        | None => MissingReference "" None ∅
        end in
      let metadata : AnyDictionary := ∅ in
      let metadata :=
        if negb (String.eqb (ClipItem_ID item) "")
        then <["fcp7xml_id" := AnyString (ClipItem_ID item)]> metadata
        else metadata in
      let metadata :=
        match ClipItem_Effect item with
        | [] => metadata
        | es => <["fcp7xml_effects" := AnyDictSlice (effectsToMetadata es)]>
                  metadata
        end in
      let metadata :=
        match ClipItem_Filter item with
        | [] => metadata
        | fs => <["fcp7xml_filters" := AnyDictSlice (filtersToMetadata fs)]>
                  metadata
        end in
      let markers :=
        map (fun m => convertMarker m frameRate) (ClipItem_Marker item) in
      let clip :=
        NewClip (ClipItem_Name item) (Some mediaRef) (Some sourceRange)
                metadata markers in
      let clip :=
        match ClipItem_Enabled item with
        | Some false => Clip_SetEnabled clip false
        | _ => clip
        end in
      Ok (CClip clip)
  end.

(** [convertTransition]: the duration [end - start] is split into two
    equal halves, the incoming and the outgoing offset. *)
Definition convertTransition (item : TransitionItem) (sequenceRate : Rate)
  : result Transition :=
  let frameRate := rateToFrameRate (TransitionItem_Rate item) in
  let metadata : AnyDictionary := ∅ in
  let metadata :=
    <["fcp7xml_alignment" := AnyString (TransitionItem_Alignment item)]>
      metadata in
  let metadata :=
    match TransitionItem_Effect item with
    | Some e => <["fcp7xml_effect" := AnyDict (effectToMetadata e)]> metadata
    | None => metadata
    end in
  let halfDuration :=
    NewRationalTime
      (PrimFloat.div
         (float64_of_int
            (sub64 (TransitionItem_End item) (TransitionItem_Start item)))
         2%float)
      frameRate in
  Ok (NewTransition (TransitionItem_Name item) TransitionTypeCustom
                    halfDuration halfDuration metadata).

(** [convertGenerator]: a clip with a generator reference, flagged in its
    metadata as generator-derived. *)
Definition convertGenerator (item : GeneratorItem) (sequenceRate : Rate)
  : result Clip :=
  let frameRate := rateToFrameRate (GeneratorItem_Rate item) in
  let sourceStart :=
    NewRationalTime (float64_of_int (GeneratorItem_In item)) frameRate in
  let sourceDuration :=
    NewRationalTime (float64_of_int (GeneratorItem_Duration item))
                    frameRate in
  let sourceRange := NewTimeRange sourceStart sourceDuration in
  let metadata : AnyDictionary := ∅ in
  let metadata := <["fcp7xml_generator" := AnyBool true]> metadata in
  let metadata :=
    <["fcp7xml_generator_name" := AnyString (GeneratorItem_Name item)]>
      metadata in
  let metadata :=
    match GeneratorItem_Effect item with
    | Some e => <["fcp7xml_effect" := AnyDict (effectToMetadata e)]> metadata
    | None => metadata
    end in
  let metadata :=
    match GeneratorItem_Filter item with
    | [] => metadata
    | fs => <["fcp7xml_filters" := AnyDictSlice (filtersToMetadata fs)]>
              metadata
    end in
  let markers :=
    map (fun m => convertMarker m frameRate) (GeneratorItem_Marker item) in
  let mediaRef :=
    GeneratorReference (GeneratorItem_Name item) (GeneratorItem_Name item)
                       ∅ None ∅ in
  let clip :=
    NewClip (GeneratorItem_Name item) (Some mediaRef) (Some sourceRange)
            metadata markers in
  let clip :=
    match GeneratorItem_Enabled item with
    | Some false => Clip_SetEnabled clip false
    | _ => clip
    end in
  Ok clip.

(** [trackItem]: any item of a track with its start.  The source keeps a
    type tag and three pointers of which the tagged one is set; that is
    the tagged union below, and [itemType] gives the tag back. *)
Inductive trackItemPayload : Type :=
| clipItem (c : ClipItem)
| transition (t : TransitionItem)
| generator (g : GeneratorItem).

Record trackItem : Type := mkTrackItem {
  start : Z;
  payload : trackItemPayload
}.

Definition itemType (item : trackItem) : string :=
  match payload item with
  | clipItem _ => "clip"
  | transition _ => "transition"
  | generator _ => "generator"
  end.

(** The three appending loops of [convertTrack]: clip items, then
    transition items, then generator items, each in file order. *)
Definition collectItems (fcpTrack : Schema.Track) : list trackItem :=
  map (fun c => mkTrackItem (ClipItem_Start c) (clipItem c))
      (Track_ClipItem fcpTrack)
  ++ map (fun t => mkTrackItem (TransitionItem_Start t) (transition t))
         (Track_TransitionItem fcpTrack)
  ++ map (fun g => mkTrackItem (GeneratorItem_Start g) (generator g))
         (Track_GeneratorItem fcpTrack).

(** [items[i], items[j] = items[j], items[i]]. *)
Definition swapItems (items : list trackItem) (i j : nat) : list trackItem :=
  match items !! i, items !! j with
  | Some a, Some b => <[i := b]> (<[j := a]> items)
  | _, _ => items
  end.

(** The inner loop [for j := ...; j < len(items); j++] of the sort, with
    [n] iterations left to run. *)
Fixpoint sortInner (n i j : nat) (items : list trackItem) : list trackItem :=
  match n with
  | O => items
  | S n' =>
      let items' :=
        match items !! j, items !! i with
        | Some b, Some a =>
            if (start b <? start a)%Z then swapItems items i j else items
        | _, _ => items
        end in
      sortInner n' i (S j) items'
  end.

(** The outer loop [for i := ...; i < len(items)-1; i++], with [n]
    iterations left; the inner loop starts at [j = i + 1]. *)
Fixpoint sortOuter (n i : nat) (items : list trackItem) : list trackItem :=
  match n with
  | O => items
  | S n' =>
      sortOuter n' (S i) (sortInner (length items - S i) i (S i) items)
  end.

(** "Sort by start time": the two nested loops of [convertTrack]. *)
Definition sortByStart (items : list trackItem) : list trackItem :=
  sortOuter (length items - 1) 0 items.

Section ItemLoop.

(** The loop "Convert items in order" of [convertTrack], over the three
    item converters it calls.  An error of a converter or of
    [AppendChild] is wrapped and returned at once. *)
Variable convClip : ClipItem -> Rate -> result Composable.
Variable convTrans : TransitionItem -> Rate -> result Transition.
Variable convGen : GeneratorItem -> Rate -> result Clip.

Fixpoint convertItemsWith (rate : Rate) (i : nat) (items : list trackItem)
    (track : Otio.Track) : result Otio.Track :=
  match items with
  | [] => Ok track
  | item :: rest =>
      track' ←
        match payload item with
        | clipItem c =>
            composable ←
              wrapf ("failed to convert clip " ++ pretty i) (convClip c rate);
            wrapf "failed to append clip" (Track_AppendChild track composable)
        | transition t =>
            trans ←
              wrapf ("failed to convert transition " ++ pretty i)
                    (convTrans t rate);
            wrapf "failed to append transition"
                  (Track_AppendChild track (CTransition trans))
        | generator g =>
            gen ←
              wrapf ("failed to convert generator " ++ pretty i)
                    (convGen g rate);
            wrapf "failed to append generator"
                  (Track_AppendChild track (CClip gen))
        end;
      convertItemsWith rate (S i) rest track'
  end.

Definition convertTrackWith (fcpTrack : Schema.Track) (rate : Rate)
    (kind : string) (index : nat) : result Otio.Track :=
  let trackName := (kind ++ " " ++ pretty (index + 1))%string in
  let track := NewTrack trackName kind in
  let track :=
    match Schema.Track_Enabled fcpTrack with
    | Some false => Track_SetEnabled track false
    | _ => track
    end in
  let items := sortByStart (collectItems fcpTrack) in
  convertItemsWith rate 0 items track.

End ItemLoop.

(** [convertTrack]: the loop over the decoder's own converters. *)
Definition convertTrack : Schema.Track -> Rate -> string -> nat
                          -> result Otio.Track :=
  convertTrackWith convertClipItem convertTransition convertGenerator.

(** The loops of [convertSequence] over the tracks of one media
    container; [label] is "video" or "audio" in the error messages. *)
Fixpoint convertMediaTracks (label kind : string) (rate : Rate) (i : nat)
    (tracks : list Schema.Track) (timeline : Timeline) : result Timeline :=
  match tracks with
  | [] => Ok timeline
  | fcpTrack :: rest =>
      track ←
        wrapf ("failed to convert " ++ label ++ " track " ++ pretty i)
              (convertTrack fcpTrack rate kind i);
      timeline' ←
        wrapf ("failed to append " ++ label ++ " track")
              (Timeline_AppendTrack timeline track);
      convertMediaTracks label kind rate (S i) rest timeline'
  end.

(** [convertSequence]. *)
Definition convertSequence (seq : Sequence) : result Timeline :=
  let timeline := NewTimeline (Sequence_Name seq) in
  timeline ←
    match Media_Video (Sequence_Media seq) with
    | Some tracks =>
        convertMediaTracks "video" TrackKindVideo (Sequence_Rate seq) 0
                           tracks timeline
    | None => Ok timeline
    end;
  match Media_Audio (Sequence_Media seq) with
  | Some tracks =>
      convertMediaTracks "audio" TrackKindAudio (Sequence_Rate seq) 0
                         tracks timeline
  | None => Ok timeline
  end.


End Decoder.

(* ===================================================================== *)
(** ** The encoder *)
(* ===================================================================== *)

(** What the encoder asks of its collaborators:
    - [Timeline_Duration]: [Timeline.Duration] of the timeline library;
    - [url_Parse_Scheme]: [net/url]'s [Parse] followed by the [Scheme]
      field, [None] when parsing fails;
    - [filepath_Abs]: [path/filepath]'s [Abs], [None] on an error;
    - [fileURL_String]: [url.URL{Scheme: "file", Path: p}.String()];
    - [xml_Marshal]: the indented output of [encoding/xml]'s encoder. *)
Class Platform : Type := {
  Timeline_Duration : Timeline -> result RationalTime;
  url_Parse_Scheme : string -> option string;
  filepath_Abs : string -> option string;
  fileURL_String : string -> string;
  xml_Marshal : XMEML -> result string
}.

Module Encoder.

(** [abs]. *)
Definition abs (x : float) : float :=
  if PrimFloat.ltb x 0%float then PrimFloat.opp x else x.

Definition ntscRates : list float :=
  [ 23.976023976023978%float;
    29.97002997002997%float;
    59.94005994005994%float ].

(** [isNTSCRate]: within 0.01 of one of the three NTSC rates. *)
Definition isNTSCRate (rate : float) : bool :=
  existsb (fun ntsc => PrimFloat.ltb (abs (PrimFloat.sub rate ntsc)) 0.01%float)
          ntscRates.

(** The test of [sanitizeID] on one character: an ASCII letter, a digit,
    a hyphen or an underscore. *)
Definition isIDChar (r : ascii) : bool :=
  let n := nat_of_ascii r in
  (Nat.leb 97 n && Nat.leb n 122) || (Nat.leb 65 n && Nat.leb n 90)
  || (Nat.leb 48 n && Nat.leb n 57) || Nat.eqb n 45 || Nat.eqb n 95.

(** The loop of [sanitizeID], [result] being built up from the left.  The
    source ranges over the runes of the string; a rune outside ASCII, or
    the replacement rune of an ill-formed byte, fails both tests, as each
    of its bytes (all above 127) does here. *)
Fixpoint sanitizeLoop (s : string) (result : string) : string :=
  match s with
  | EmptyString => result
  | String r rest =>
      sanitizeLoop rest
        (if isIDChar r then (result ++ String r EmptyString)%string
         else if Ascii.eqb r " " then (result ++ "_")%string
              else result)
  end.

(** [sanitizeID]. *)
Definition sanitizeID (s : string) : string :=
  let result := sanitizeLoop s "" in
  if String.eqb result "" then "file" else result.

Section WithPlatform.

Context `{Platform}.

(** [isFileURL]. *)
Definition isFileURL (s : string) : bool :=
  match url_Parse_Scheme s with
  | None => false
  | Some scheme => String.eqb scheme "file"
  end.

(** [metadataToParameter]. *)
Definition metadataToParameter (metadata : AnyDictionary) : Param :=
  mkParam
    (default "" (asString (metadata !! "parameterid")))
    (default "" (asString (metadata !! "name")))
    (default "" (asString (metadata !! "value")))
    (default "" (asString (metadata !! "valueid")))
    (asFloat64 (metadata !! "valuemin"))
    (asFloat64 (metadata !! "valuemax"))
    (default "" (asString (metadata !! "valuelist"))).

(** [metadataToEffect]: each field is set when its key holds a value of
    the expected type, and keeps its zero value otherwise. *)
Definition metadataToEffect (metadata : AnyDictionary) : Effect :=
  mkEffect
    (default "" (asString (metadata !! "name")))
    (default "" (asString (metadata !! "effectid")))
    (default "" (asString (metadata !! "effecttype")))
    (default "" (asString (metadata !! "mediatype")))
    (default "" (asString (metadata !! "effectcategory")))
    (default 0%Z (asInt64 (metadata !! "duration")))
    (asFloat64 (metadata !! "startratio"))
    (asFloat64 (metadata !! "endratio"))
    (asBool (metadata !! "reverse"))
    (match asDictSlice (metadata !! "parameters") with
     | Some params => map metadataToParameter params
     | None => []
     end).

(** [metadataToEffects]. *)
Definition metadataToEffects (metadataArray : list AnyDictionary)
  : list Effect :=
  map metadataToEffect metadataArray.

(** [metadataToFilters]. *)
Definition metadataToFilters (metadataArray : list AnyDictionary)
  : list Filter :=
  map (fun meta =>
         mkFilter
           (asBool (meta !! "enabled"))
           (default 0%Z (asInt64 (meta !! "start")))
           (default 0%Z (asInt64 (meta !! "end")))
           (match asDict (meta !! "effect") with
            | Some effectMeta => Some (metadataToEffect effectMeta)
            | None => None
            end))
      metadataArray.

(** [convertMarkerToFCP]. *)
Definition convertMarkerToFCP (marker : Otio.Marker) : Schema.Marker :=
  let markedRange := Otio.Marker_MarkedRange marker in
  let inPoint := int64_of_float64 (rt_Value (tr_StartTime markedRange)) in
  let outPoint :=
    add64 inPoint (int64_of_float64 (rt_Value (tr_Duration markedRange))) in
  Schema.mkMarker
    (Otio.Marker_Name marker) (Otio.Marker_Comment marker) inPoint outPoint
    (match asIntMap (Otio.Marker_Metadata marker !! "fcp7xml_color") with
     | Some colorMap =>
         Some (mkColor (default 0%Z (colorMap !! "red"))
                       (default 0%Z (colorMap !! "green"))
                       (default 0%Z (colorMap !! "blue"))
                       (default 0%Z (colorMap !! "alpha")))
     | None => None
     end).

(** [convertMediaReference]: the file reference of a media reference.
    Only an external reference gives a path and a duration; every other
    kind gives the empty path.  No branch returns an error. *)
Definition convertMediaReference (ref : MediaReference) (rate : Rate)
  : result File :=
  let fileID := ("file-" ++ sanitizeID (MediaReference_Name ref))%string in
  let name := MediaReference_Name ref in
  match ref with
  | ExternalReference _ targetURL availableRange _ =>
      let pathURL :=
        if negb (String.eqb targetURL "")
        then
          if negb (isFileURL targetURL)
          then match filepath_Abs targetURL with
               | Some absPath => fileURL_String absPath
               | None => targetURL
               end
          else targetURL
        else "" in
      let duration :=
        match availableRange with
        | Some ar => int64_of_float64 (rt_Value (tr_Duration ar))
        | None => 0%Z
        end in
      Ok (mkFile fileID name pathURL rate duration)
  | MissingReference _ _ _ => Ok (mkFile fileID name "" rate 0%Z)
  | _ => Ok (mkFile fileID name "" rate 0%Z)
  end.

(** [convertClip]. *)
Definition convertClip (clip : Clip) (rate : Rate) (startPosition : Z)
  : result ClipItem :=
  sourceRange ←
    match Clip_SourceRange clip with
    | Some sr => Ok sr
    | None => wrapf "failed to get available range" (Clip_AvailableRange clip)
    end;
  let inPoint := int64_of_float64 (rt_Value (tr_StartTime sourceRange)) in
  let outPoint :=
    add64 inPoint (int64_of_float64 (rt_Value (tr_Duration sourceRange))) in
  let duration := int64_of_float64 (rt_Value (tr_Duration sourceRange)) in
  let enabled := Clip_Enabled clip in
  let metadata := Clip_Metadata clip in
  let id := default "" (asString (metadata !! "fcp7xml_id")) in
  let effects :=
    match asDictSlice (metadata !! "fcp7xml_effects") with
    | Some effects => metadataToEffects effects
    | None => []
    end in
  let filters :=
    match asDictSlice (metadata !! "fcp7xml_filters") with
    | Some filters => metadataToFilters filters
    | None => []
    end in
  let markers := map convertMarkerToFCP (Clip_Markers clip) in
  file ←
    match Clip_MediaReference clip with
    | Some mediaRef =>
        f ← wrapf "failed to convert media reference"
                  (convertMediaReference mediaRef rate);
        Ok (Some f)
    | None => Ok None
    end;
  Ok (mkClipItem id (Clip_Name clip) (Some enabled) duration rate
                 startPosition (add64 startPosition duration)
                 inPoint outPoint file None filters effects markers).

(** [convertToGenerator]: whether the clip is marked as a generator, and
    its generator item when it is. *)
Definition convertToGenerator (clip : Clip) (rate : Rate) (startPosition : Z)
  : bool * option GeneratorItem :=
  let metadata := Clip_Metadata clip in
  match asBool (metadata !! "fcp7xml_generator") with
  | Some true =>
      match Clip_Duration clip with
      | Err _ => (false, None)
      | Ok dur =>
          let duration := int64_of_float64 (rt_Value dur) in
          let inPoint :=
            match Clip_SourceRange clip with
            | Some sr => int64_of_float64 (rt_Value (tr_StartTime sr))
            | None => 0%Z
            end in
          let outPoint :=
            match Clip_SourceRange clip with
            | Some _ => add64 inPoint duration
            | None => duration
            end in
          let enabled := Clip_Enabled clip in
          let effect :=
            match asDict (metadata !! "fcp7xml_effect") with
            | Some effectMeta => Some (metadataToEffect effectMeta)
            | None => None
            end in
          let filters :=
            match asDictSlice (metadata !! "fcp7xml_filters") with
            | Some filters => metadataToFilters filters
            | None => []
            end in
          let markers := map convertMarkerToFCP (Clip_Markers clip) in
          (true,
           Some (mkGeneratorItem (Clip_Name clip) duration rate startPosition
                                 (add64 startPosition duration)
                                 inPoint outPoint (Some enabled) effect
                                 filters markers))
      end
  | _ => (false, None)
  end.

(** [convertTransitionToItem]. *)
Definition convertTransitionToItem (trans : Transition) (rate : Rate)
    (startPosition : Z) : result TransitionItem :=
  let duration :=
    rt_Add (Transition_InOffset trans) (Transition_OutOffset trans) in
  let durationFrames := int64_of_float64 (rt_Value duration) in
  let metadata := Transition_Metadata trans in
  Ok (mkTransitionItem
        (Transition_Name trans) rate startPosition
        (add64 startPosition durationFrames)
        (default "center" (asString (metadata !! "fcp7xml_alignment")))
        (match asDict (metadata !! "fcp7xml_effect") with
         | Some effectMeta => Some (metadataToEffect effectMeta)
         | None => None
         end)).

(** Appending to the three item slices of the track being built. *)
Definition appendClipItem (t : Schema.Track) (c : ClipItem) : Schema.Track :=
  Schema.mkTrack (Schema.Track_Enabled t) (Track_ClipItem t ++ [c])
                 (Track_TransitionItem t) (Track_GeneratorItem t).

Definition appendTransitionItem (t : Schema.Track) (x : TransitionItem)
  : Schema.Track :=
  Schema.mkTrack (Schema.Track_Enabled t) (Track_ClipItem t)
                 (Track_TransitionItem t ++ [x]) (Track_GeneratorItem t).

Definition appendGeneratorItem (t : Schema.Track) (g : GeneratorItem)
  : Schema.Track :=
  Schema.mkTrack (Schema.Track_Enabled t) (Track_ClipItem t)
                 (Track_TransitionItem t) (Track_GeneratorItem t ++ [g]).

(** The loop "Convert each child" of [convertTrack]: the track built so
    far and the position cursor are threaded through the children. *)
Fixpoint convertChildren (rate : Rate) (children : list Composable)
    (fcpTrack : Schema.Track) (currentPosition : Z) : result Schema.Track :=
  match children with
  | [] => Ok fcpTrack
  | child :: rest =>
      match child with
      | CClip item =>
          fcpTrack' ←
            match convertToGenerator item rate currentPosition with
            | (true, Some genItem) => Ok (appendGeneratorItem fcpTrack genItem)
            | _ =>
                clipItem ←
                  wrapf "failed to convert clip"
                        (convertClip item rate currentPosition);
                Ok (appendClipItem fcpTrack clipItem)
            end;
          dur ← wrapf "failed to get clip duration" (Clip_Duration item);
          convertChildren rate rest fcpTrack'
            (add64 currentPosition (int64_of_float64 (rt_Value dur)))
      | CTransition item =>
          transItem ←
            wrapf "failed to convert transition"
                  (convertTransitionToItem item rate currentPosition);
          let dur :=
            rt_Add (Transition_InOffset item) (Transition_OutOffset item) in
          convertChildren rate rest (appendTransitionItem fcpTrack transItem)
            (add64 currentPosition (int64_of_float64 (rt_Value dur)))
      | CGap item =>
          dur ← wrapf "failed to get gap duration" (Gap_Duration item);
          convertChildren rate rest fcpTrack
            (add64 currentPosition (int64_of_float64 (rt_Value dur)))
      | _ => convertChildren rate rest fcpTrack currentPosition
      end
  end.

(** [convertTrack]. *)
Definition convertTrack (track : Otio.Track) (rate : Rate)
  : result Schema.Track :=
  let fcpTrack := Schema.mkTrack (Some (Otio.Track_Enabled track)) [] [] [] in
  convertChildren rate (Track_Children track) fcpTrack 0%Z.

(** The two loops of [convertTracks] over the tracks of one kind;
    [label] is "video" or "audio" in the error message. *)
Fixpoint convertTrackList (label : string) (rate : Rate)
    (tracks : list Otio.Track) : result (list Schema.Track) :=
  match tracks with
  | [] => Ok []
  | track :: rest =>
      fcpTrack ←
        wrapf ("failed to convert " ++ label ++ " track")
              (convertTrack track rate);
      others ← convertTrackList label rate rest;
      Ok (fcpTrack :: others)
  end.

(** The first statements of [convertTracks]: the rate written to the
    document.  The timebase is [int(frameRate)], or
    [int(frameRate*1001.0/1000.0 + 0.5)] for an NTSC rate. *)
Definition sequenceRate (frameRate : float) (isNTSC : bool) : Rate :=
  let timebase :=
    if isNTSC
    then int64_of_float64
           (PrimFloat.add
              (PrimFloat.div (PrimFloat.mul frameRate 1001%float) 1000%float)
              0.5%float)
    else int64_of_float64 frameRate in
  mkRate timebase isNTSC.

(** [convertTracks]: the sequence at the working rate. *)
Definition convertTracks (timeline : Timeline) (frameRate : float)
    (isNTSC : bool) : result Sequence :=
  let rate := sequenceRate frameRate isNTSC in
  duration ←
    wrapf "failed to get timeline duration" (Timeline_Duration timeline);
  let durationFrames := int64_of_float64 (rt_Value duration) in
  videoTracks ← convertTrackList "video" rate (Timeline_VideoTracks timeline);
  audioTracks ← convertTrackList "audio" rate (Timeline_AudioTracks timeline);
  Ok (mkSequence (Timeline_Name timeline) durationFrames rate
        (mkMedia (match videoTracks with [] => None | _ => Some videoTracks end)
                 (match audioTracks with [] => None | _ => Some audioTracks end))).

(** The scan of [convertTimeline] for the frame rate: the children of the
    stack in order; a child decides when it is a track whose first child
    is a clip with an available duration of positive rate. *)
Fixpoint findFrameRate (children : list Composable) : option float :=
  match children with
  | [] => None
  | child :: rest =>
      match child with
      | CTrack track =>
          match Track_Children track with
          | CClip clip :: _ =>
              match Clip_Duration clip with
              | Ok dur =>
                  if PrimFloat.ltb 0%float (rt_Rate dur)
                  then Some (rt_Rate dur)
                  else findFrameRate rest
              | Err _ => findFrameRate rest
              end
          | _ => findFrameRate rest
          end
      | _ => findFrameRate rest
      end
  end.

(** The working rate and its NTSC classification, 24 and false by
    default. *)
Definition workingRate (timeline : Timeline) : float * bool :=
  match findFrameRate (Timeline_Tracks timeline) with
  | Some frameRate => (frameRate, isNTSCRate frameRate)
  | None => (24%float, false)
  end.

(** [convertTimeline]. *)
Definition convertTimeline (timeline : Timeline) : result XMEML :=
  let '(frameRate, isNTSC) := workingRate timeline in
  sequence ← convertTracks timeline frameRate isNTSC;
  Ok (mkXMEML "5" [sequence]).

Definition doubleQuote : string := String (ascii_of_nat 34) EmptyString.
Definition newline : string := String (ascii_of_nat 10) EmptyString.

(** [xml.Header]. *)
Definition xmlHeader : string :=
  ("<?xml version=" ++ doubleQuote ++ "1.0" ++ doubleQuote
   ++ " encoding=" ++ doubleQuote ++ "UTF-8" ++ doubleQuote ++ "?>"
   ++ newline)%string.

(** [Encode]: the bytes written, for a writer that accepts them; [None]
    is the nil timeline. *)
Definition Encode (timeline : option Timeline) : result string :=
  match timeline with
  | None => Err (errorString "timeline cannot be nil")
  | Some tl =>
      xmeml ← wrapf "failed to convert timeline" (convertTimeline tl);
      body ← wrapf "failed to encode XML" (xml_Marshal xmeml);
      Ok (xmlHeader ++ "<!DOCTYPE xmeml>" ++ newline ++ body ++ newline)%string
  end.

End WithPlatform.

End Encoder.

(* ===================================================================== *)
(** ** Specification-side definitions *)
(* ===================================================================== *)

(** What the properties below are stated with: the orders and policies the
    specification words, and the algebraic reading of the sorting loops. *)
Module Spec.

Import Decoder.

(** The child a track item is translated to, by the converter of its
    kind. *)
Definition convertItem (rate : Rate) (item : trackItem) : result Composable :=
  match payload item with
  | clipItem c => convertClipItem c rate
  | transition t => trans ← convertTransition t rate; Ok (CTransition trans)
  | generator g => gen ← convertGenerator g rate; Ok (CClip gen)
  end.

(** The name of a track item and of a child, by which translations are
    told apart. *)
Definition itemName (item : trackItem) : string :=
  match payload item with
  | clipItem c => ClipItem_Name c
  | transition t => TransitionItem_Name t
  | generator g => GeneratorItem_Name g
  end.

Definition childName (child : Composable) : string :=
  match child with
  | CClip c => Clip_Name c
  | CTransition t => Transition_Name t
  | CGap g => Gap_Name g
  | CTrack t => Track_Name t
  | CStack name _ => name
  end.

(** Ascending start. *)
Definition byStart (a b : trackItem) : Prop := (start a <= start b)%Z.

(** The stable sort by ascending start that the specification words, as
    an insertion sort: an item goes in front of the first item that does
    not start earlier, so items of equal start keep their order. *)
Fixpoint insertByStart (x : trackItem) (l : list trackItem) : list trackItem :=
  match l with
  | [] => [x]
  | y :: l' =>
      if (start x <=? start y)%Z then x :: y :: l'
      else y :: insertByStart x l'
  end.

Fixpoint stableSortByStart (l : list trackItem) : list trackItem :=
  match l with
  | [] => []
  | x :: l' => insertByStart x (stableSortByStart l')
  end.

(** One run of the inner loop of the decoder's sort, read on the list: the
    item held at position [i] is compared with each later item in turn and
    exchanged with it when that one starts strictly earlier.  The result
    is the item left at position [i] and the items after it. *)
Fixpoint sweep (x : trackItem) (t : list trackItem)
  : trackItem * list trackItem :=
  match t with
  | [] => (x, [])
  | y :: t' =>
      if (start y <? start x)%Z
      then let '(m, r) := sweep y t' in (m, x :: r)
      else let '(m, r) := sweep x t' in (m, y :: r)
  end.

(** [n] runs of the outer loop, read on the list. *)
Fixpoint exchangeSort (n : nat) (l : list trackItem) : list trackItem :=
  match n with
  | O => l
  | S n' =>
      match l with
      | [] => []
      | x :: t => let '(m, r) := sweep x t in m :: exchangeSort n' r
      end
  end.

(** The canonical rates 23.976, 24, 25, 29.97, 30, 50, 59.94 and 60 as the
    document writes them: a timebase and the NTSC flag. *)
Definition canonicalRates : list Rate :=
  [ mkRate 24 true; mkRate 24 false; mkRate 25 false; mkRate 30 true;
    mkRate 30 false; mkRate 50 false; mkRate 60 true; mkRate 60 false ].

(** Decoding a rate to frames per second and encoding that value again:
    [rateToFrameRate] of the decoder, then the classification and the
    timebase of the encoder. *)
Definition reencodeRate (r : Rate) : Rate :=
  let fps := Decoder.rateToFrameRate r in
  Encoder.sequenceRate fps (Encoder.isNTSCRate fps).

(** The rate [convertTimeline] hands to [convertTracks] for a timeline:
    the rate every element of the document is written with. *)
Definition encodedRate (timeline : Timeline) : Rate :=
  Encoder.sequenceRate (fst (Encoder.workingRate timeline))
                       (snd (Encoder.workingRate timeline)).

(** Identifier sanitization as the specification words it: a space
    becomes an underscore, a character of the alphabet below is kept, any
    other character is removed, and an empty result is replaced. *)
Definition idAlphabet : string :=
  "abcdefghijklmnopqrstuvwxyzABCDEFGHIJKLMNOPQRSTUVWXYZ0123456789-_".

Fixpoint occurs (c : ascii) (s : string) : bool :=
  match s with
  | EmptyString => false
  | String d rest => Ascii.eqb c d || occurs c rest
  end.

Fixpoint sanitizeChars (s : string) : string :=
  match s with
  | EmptyString => EmptyString
  | String c rest =>
      if Ascii.eqb c " " then String "_" (sanitizeChars rest)
      else if occurs c idAlphabet then String c (sanitizeChars rest)
           else sanitizeChars rest
  end.

Definition sanitizeWorded (s : string) : string :=
  match sanitizeChars s with
  | EmptyString => "file"
  | r => r
  end.



Definition NilTimeline : error := errorString "timeline cannot be nil".

(** A result is the condition [MediaReferenceConversionFailed] when it is
    the error [convertClip] wraps around a failure of
    [convertMediaReference]. *)
Definition MediaReferenceConversionFailed {A : Type} (r : result A) : Prop :=
  exists cause,
    r = Err (wrapError "failed to convert media reference" cause).

(** The items of a track as the document lists them, whatever their
    kind: the concatenation of the track's clip-item, transition-item and
    generator-item lists. *)
Definition concatenation (fcpTrack : Schema.Track) : list trackItemPayload :=
  map clipItem (Track_ClipItem fcpTrack)
  ++ map transition (Track_TransitionItem fcpTrack)
  ++ map generator (Track_GeneratorItem fcpTrack).

(** The start of an item: the [Start] field of its own struct. *)
Definition startOf (p : trackItemPayload) : Z :=
  match p with
  | clipItem c => ClipItem_Start c
  | transition t => TransitionItem_Start t
  | generator g => GeneratorItem_Start g
  end.

(** The child an item of the document is translated to, by the decoder's
    converter of its kind. *)
Definition translation (rate : Rate) (p : trackItemPayload)
  : result Composable :=
  match p with
  | clipItem c => convertClipItem c rate
  | transition t => trans ← convertTransition t rate; Ok (CTransition trans)
  | generator g => gen ← convertGenerator g rate; Ok (CClip gen)
  end.

(** Starts that never decrease. *)
Definition ascending (a b : trackItemPayload) : Prop :=
  (startOf a <= startOf b)%Z.

(** The stable sort by ascending start on the items of the document, as
    the specification words it: an item goes in front of the first item
    that does not start earlier, so items of equal start keep the order of
    the concatenation. *)
Fixpoint insertStably (x : trackItemPayload) (l : list trackItemPayload)
  : list trackItemPayload :=
  match l with
  | [] => [x]
  | y :: l' =>
      if (startOf x <=? startOf y)%Z then x :: y :: l'
      else y :: insertStably x l'
  end.

Fixpoint stablySorted (l : list trackItemPayload) : list trackItemPayload :=
  match l with
  | [] => []
  | x :: l' => insertStably x (stablySorted l')
  end.

(** The track decodes, and the children of the decoded track are the
    translations of the items of [order], one for one and in that
    order. *)
Definition DecodedAs (order : list trackItemPayload)
    (fcpTrack : Schema.Track) (rate : Rate) (kind : string) (index : nat)
  : Prop :=
  exists track,
    Decoder.convertTrack fcpTrack rate kind index = Ok track
    /\ Forall2 (fun p child => translation rate p = Ok child)
               order (Track_Children track).



(** Whether the encoder emits a clip as a generator item: the metadata
    flag holds the boolean true and the clip's duration is available. *)
Definition isGeneratorClip (c : Clip) : bool :=
  match asBool (Clip_Metadata c !! "fcp7xml_generator") with
  | Some true => isOk (Clip_Duration c)
  | _ => false
  end.

(** The clips and the transitions among the children of a track, and the
    clips that go to the clip-item list and to the generator-item list. *)
Definition clipsOf (children : list Composable) : list Clip :=
  flat_map (fun child => match child with CClip c => [c] | _ => [] end)
           children.

Definition transitionsOf (children : list Composable) : list Transition :=
  flat_map (fun child => match child with CTransition t => [t] | _ => [] end)
           children.

Definition plainClips (children : list Composable) : list Clip :=
  List.filter (fun c => negb (isGeneratorClip c)) (clipsOf children).

Definition generatorClips (children : list Composable) : list Clip :=
  List.filter isGeneratorClip (clipsOf children).

(** An emitted clip item, track and sequence at the rate [R]. *)
Definition clipItemAtRate (R : Rate) (c : ClipItem) : Prop :=
  ClipItem_Rate c = R
  /\ match ClipItem_File c with
     | Some f => File_Rate f = R
     | None => True
     end.

Definition trackAtRate (R : Rate) (t : Schema.Track) : Prop :=
  Forall (clipItemAtRate R) (Track_ClipItem t)
  /\ Forall (fun x => TransitionItem_Rate x = R) (Track_TransitionItem t)
  /\ Forall (fun g => GeneratorItem_Rate g = R) (Track_GeneratorItem t).

Definition tracksOfSequence (seq : Sequence) : list Schema.Track :=
  default [] (Media_Video (Sequence_Media seq))
  ++ default [] (Media_Audio (Sequence_Media seq)).

Definition sequenceAtRate (R : Rate) (seq : Sequence) : Prop :=
  Sequence_Rate seq = R /\ Forall (trackAtRate R) (tracksOfSequence seq).

(** The rate a child of the stack decides in the scan of
    [convertTimeline]: it is a track, its first child is a clip, and the
    duration of that clip is available at a positive rate. *)
Definition decidesRate (child : Composable) : option float :=
  match child with
  | CTrack track =>
      match Track_Children track with
      | CClip clip :: _ =>
          match Clip_Duration clip with
          | Ok dur =>
              if PrimFloat.ltb 0%float (rt_Rate dur) then Some (rt_Rate dur)
              else None
          | Err _ => None
          end
      | _ => None
      end
  | _ => None
  end.

(** The working rate as the specification words it: the rate of the
    first clip found in the first video or audio track, 24 when there is
    no such clip. *)
Definition firstMediaTrack (children : list Composable) : option Otio.Track :=
  head (tracksOfKind TrackKindVideo children
        ++ tracksOfKind TrackKindAudio children).

Definition claimedFrameRate (timeline : Timeline) : float :=
  match firstMediaTrack (Timeline_Tracks timeline) with
  | Some track =>
      match clipsOf (Track_Children track) with
      | clip :: _ =>
          match Clip_Duration clip with
          | Ok dur => rt_Rate dur
          | Err _ => 24%float
          end
      | [] => 24%float
      end
  | None => 24%float
  end.

Definition WorkingRateIsFirstClipRate (timeline : Timeline) : Prop :=
  fst (Encoder.workingRate timeline) = claimedFrameRate timeline.

(** The kinds of media reference [convertMediaReference] names in its
    switch: the external and the missing reference. *)
Definition recognizedKind (ref : MediaReference) : bool :=
  match ref with
  | ExternalReference _ _ _ _ => true
  | MissingReference _ _ _ => true
  | _ => false
  end.

Definition holdsGeneratorReference (clip : Clip) : bool :=
  match Clip_MediaReference clip with
  | Some (GeneratorReference _ _ _ _ _) => true
  | _ => false
  end.

Definition flaggedGenerator (clip : Clip) : bool :=
  match asBool (Clip_Metadata clip !! "fcp7xml_generator") with
  | Some true => true
  | _ => false
  end.

(** The routing read without proviso: the flag alone decides, and every
    clip that holds a generator reference without the flag is emitted as a
    clip item whose file has the empty path. *)
Definition RoutedByFlagAlone `{Platform} (clip : Clip) (rate : Rate)
    (pos : Z) : Prop :=
  fst (Encoder.convertToGenerator clip rate pos) = flaggedGenerator clip
  /\ (holdsGeneratorReference clip = true ->
      flaggedGenerator clip = false ->
      exists ci file,
        Encoder.convertClip clip rate pos = Ok ci
        /\ ClipItem_File ci = Some file
        /\ File_PathURL file = "").

(** The children of the decoded track are the translations, in order, of
    the items that [sortFn] makes of the track's concatenated item lists. *)
Definition DecodedInOrderOf (sortFn : list trackItem -> list trackItem)
    (fcpTrack : Schema.Track) (rate : Rate) (kind : string) (index : nat)
  : Prop :=
  exists track,
    Decoder.convertTrack fcpTrack rate kind index = Ok track
    /\ Forall2 (fun item child => convertItem rate item = Ok child)
               (sortFn (collectItems fcpTrack)) (Track_Children track).

End Spec.

(* ===================================================================== *)
(** ** Concrete documents and timelines *)
(* ===================================================================== *)

(** The inputs at which the properties below are evaluated. *)
Module Fixtures.

Definition rate24 : Rate := mkRate 24 false.

(** A clip item and a generator item with the given name and start, one
    frame long, with no optional part. *)
Definition plainClipItem (name : string) (start : Z) : ClipItem :=
  mkClipItem "" name None 1 rate24 start (start + 1) 0 1 None None [] [] [].

Definition plainGeneratorItem (name : string) (start : Z) : GeneratorItem :=
  mkGeneratorItem name 1 rate24 start (start + 1) 0 1 None None [] [].

(** A track with a tie: clip items A and B both start at 2, and the
    generator item G starts at 1. *)
Definition tieTrack : Schema.Track :=
  Schema.mkTrack None
    [plainClipItem "A" 2; plainClipItem "B" 2] []
    [plainGeneratorItem "G" 1].

(** Collaborators for the closed examples: a timeline of 125 frames at
    24 frames per second, a URL parser that accepts nothing, no absolute
    paths, and an XML encoder that writes the empty string. *)
Definition samplePlatform : Platform :=
  {| Timeline_Duration := fun _ => Ok (NewRationalTime 125%float 24%float);
     url_Parse_Scheme := fun _ => None;
     filepath_Abs := fun _ => None;
     fileURL_String := fun p => p;
     xml_Marshal := fun _ => Ok EmptyString |}.

Definition frames (value rate : float) : RationalTime :=
  NewRationalTime value rate.

(** A clip of [n] frames from 0 at [rate], with a missing reference, as
    the test of the encoder builds it. *)
Definition clipOf (name : string) (n rate : float) : Clip :=
  NewClip name (Some (MissingReference "" None ∅))
          (Some (NewTimeRange (frames 0 rate) (frames n rate))) ∅ [].

(** The track of the gap test: a clip of 50 frames, a gap of 25 frames,
    a clip of 50 frames, at 24 frames per second. *)
Definition gapTrack : Otio.Track :=
  Otio.mkTrack "Video 1" TrackKindVideo
    [ CClip (clipOf "Clip 1" 50 24);
      CGap (NewGapWithDuration (frames 25 24));
      CClip (clipOf "Clip 2" 50 24) ]
    true.

Definition gapTimeline : Timeline :=
  mkTimeline "Timeline with Gaps" [CTrack gapTrack].

Definition missingFile : File := mkFile "file-file" "" "" rate24 0.

Definition encodedGapTrack : Schema.Track :=
  Schema.mkTrack (Some true)
    [ mkClipItem "" "Clip 1" (Some true) 50 rate24 0 50 0 50
                 (Some missingFile) None [] [] [];
      mkClipItem "" "Clip 2" (Some true) 50 rate24 75 125 0 50
                 (Some missingFile) None [] [] [] ]
    [] [].

(** Two video tracks: the first opens with a gap and holds a clip at 30
    frames per second after it, the second opens with a clip at 25. *)
Definition mixedRateTimeline : Timeline :=
  mkTimeline "Mixed rates"
    [ CTrack (Otio.mkTrack "Video 1" TrackKindVideo
                [ CGap (NewGapWithDuration (frames 10 24));
                  CClip (clipOf "Late" 10 30) ] true);
      CTrack (Otio.mkTrack "Video 2" TrackKindVideo
                [ CClip (clipOf "Lead" 10 25) ] true) ].

(** A clip that holds a generator reference and no generator flag, with
    a source range of 10 frames; and the same without a source range. *)
Definition barsReference : MediaReference :=
  GeneratorReference "bars" "bars" ∅ None ∅.

Definition barsClip : Clip :=
  NewClip "Bars" (Some barsReference)
          (Some (NewTimeRange (frames 0 24) (frames 10 24))) ∅ [].

Definition bareBarsClip : Clip :=
  NewClip "Bars" (Some barsReference) None ∅ [].

(** A track whose items start at 0, 2 and 5: no two together, and the
    concatenation already ascending. *)
Definition orderedTrack : Schema.Track :=
  Schema.mkTrack None
    [plainClipItem "A" 0; plainClipItem "B" 2] []
    [plainGeneratorItem "G" 5].

End Fixtures.

(* ===================================================================== *)
(** ** The decoder's ordering of track items *)
(* ===================================================================== *)

(* ===================================================================== *)
(** ** Definitions for the laws of the translators *)
(* ===================================================================== *)

(** What the round trips and the laws further down are stated with. *)
Module Laws.

(** A frame count as it comes back from the metadata: the decoder writes
    a count only when it is positive, and the encoder reads an absent
    count as zero. *)
Definition keptCount (n : Z) : Z := if (0 <? n)%Z then n else 0%Z.

(** An effect and a filter as they come back from their metadata. *)
Definition keptEffect (e : Effect) : Effect :=
  mkEffect (Effect_Name e) (Effect_EffectID e) (Effect_EffectType e)
           (Effect_MediaType e) (Effect_EffectCategory e)
           (keptCount (Effect_Duration e))
           (Effect_StartRatio e) (Effect_EndRatio e) (Effect_Reverse e)
           (Effect_Parameter e).

Definition keptFilter (f : Filter) : Filter :=
  mkFilter (Filter_Enabled f) (keptCount (Filter_Start f))
           (keptCount (Filter_End f))
           (option_map keptEffect (Filter_Effect f)).

(** Frame numbers that a binary64 float holds exactly: the conversions
    [float64(n)] and [int64(f)] of the translators give them back. *)
Definition exactFrames (n : Z) : Prop := (- 2 ^ 53 < n < 2 ^ 53)%Z.

(** A frame number after [int64(float64(n))]. *)
Definition throughFloat (n : Z) : Z := int64_of_float64 (float64_of_int n).

(** A marker after decoding and encoding: name, comment and colour as
    they were, the range made of [in] and [out - in] through binary64. *)
Definition reencodedMarker (m : Schema.Marker) : Schema.Marker :=
  let inPoint := throughFloat (Schema.Marker_In m) in
  Schema.mkMarker
    (Schema.Marker_Name m) (Schema.Marker_Comment m) inPoint
    (add64 inPoint
           (throughFloat (sub64 (Schema.Marker_Out m) (Schema.Marker_In m))))
    (Schema.Marker_Color m).

(** The file reference the encoder writes for the reference the decoder
    made of a clip item's file: the file element of a missing reference
    when there is no file or no path; no path and no duration for an
    image sequence; otherwise the path (made a file URL when it is not
    one) and the duration.  The identifier is always made of the name. *)
Definition reencodedFile `{Platform} (f : option File) (rate : Rate) : File :=
  match f with
  | Some file =>
      if String.eqb (File_PathURL file) "" then mkFile "file-file" "" "" rate 0
      else
        let id := ("file-" ++ Encoder.sanitizeID (File_Name file))%string in
        if Decoder.isImageSequenceName (File_Name file)
        then mkFile id (File_Name file) "" rate 0
        else
          mkFile id (File_Name file)
            (if Encoder.isFileURL (File_PathURL file) then File_PathURL file
             else match filepath_Abs (File_PathURL file) with
                  | Some absPath => fileURL_String absPath
                  | None => File_PathURL file
                  end)
            rate (throughFloat (File_Duration file))
  | None => mkFile "file-file" "" "" rate 0
  end.

(** A clip item after decoding and encoding at the rate [rate] and the
    position [pos]. *)
Definition reencodedClipItem `{Platform} (item : ClipItem) (rate : Rate)
    (pos : Z) : ClipItem :=
  let inPoint := throughFloat (ClipItem_In item) in
  let duration :=
    throughFloat (sub64 (ClipItem_Out item) (ClipItem_In item)) in
  match ClipItem_Sequence item with
  | Some _ =>
      mkClipItem "" (ClipItem_Name item) (Some true) duration rate pos
                 (add64 pos duration) inPoint (add64 inPoint duration)
                 (Some (mkFile "file-file" "" "" rate 0)) None [] [] []
  | None =>
      mkClipItem (ClipItem_ID item) (ClipItem_Name item)
                 (Some (default true (ClipItem_Enabled item)))
                 duration rate pos (add64 pos duration)
                 inPoint (add64 inPoint duration)
                 (Some (reencodedFile (ClipItem_File item) rate)) None
                 (map keptFilter (ClipItem_Filter item))
                 (map keptEffect (ClipItem_Effect item))
                 (map reencodedMarker (ClipItem_Marker item))
  end.

(** A generator item after decoding and encoding. *)
Definition reencodedGeneratorItem (item : GeneratorItem) (rate : Rate)
    (pos : Z) : GeneratorItem :=
  let inPoint := throughFloat (GeneratorItem_In item) in
  let duration := throughFloat (GeneratorItem_Duration item) in
  mkGeneratorItem (GeneratorItem_Name item) duration rate pos
                  (add64 pos duration) inPoint (add64 inPoint duration)
                  (Some (default true (GeneratorItem_Enabled item)))
                  (option_map keptEffect (GeneratorItem_Effect item))
                  (map keptFilter (GeneratorItem_Filter item))
                  (map reencodedMarker (GeneratorItem_Marker item)).

(** The frames of a decoded transition: the sum of the two halves the
    decoder makes of [end - start], as the encoder takes it. *)
Definition transitionFrames (item : TransitionItem) : Z :=
  let half :=
    NewRationalTime
      (PrimFloat.div
         (float64_of_int
            (sub64 (TransitionItem_End item) (TransitionItem_Start item)))
         2%float)
      (Decoder.rateToFrameRate (TransitionItem_Rate item)) in
  int64_of_float64 (rt_Value (rt_Add half half)).

(** A transition item after decoding and encoding. *)
Definition reencodedTransitionItem (item : TransitionItem) (rate : Rate)
    (pos : Z) : TransitionItem :=
  mkTransitionItem (TransitionItem_Name item) rate pos
    (add64 pos (transitionFrames item))
    (TransitionItem_Alignment item)
    (option_map keptEffect (TransitionItem_Effect item)).

(** The two references [createMediaReference] of the decoder can
    return for a file. *)
Definition externalOf (file : File) (frameRate : float) : MediaReference :=
  ExternalReference (File_Name file) (File_PathURL file)
    (Some (NewTimeRange
             (NewRationalTime 0%float frameRate)
             (NewRationalTime (float64_of_int (File_Duration file))
                              frameRate)))
    ∅.

Definition imageSequenceOf (file : File) (frameRate : float)
  : MediaReference :=
  ImageSequenceReference (File_Name file) (File_PathURL file) "" "" 0 1
    frameRate 4
    (Some (NewTimeRange
             (NewRationalTime 0%float frameRate)
             (NewRationalTime (float64_of_int (File_Duration file))
                              frameRate)))
    (<["fcp7xml_file_id" := AnyString (File_ID file)]> ∅)
    MissingFramePolicyError.

(** Whether a string holds only the characters [sanitizeID] keeps. *)
Definition allIDChars (s : string) : bool :=
  forallb Encoder.isIDChar (list_ascii_of_string s).

(** A decoded track: the translation of track [i] (from 0) of its kind,
    named by the kind and [i + 1], enabled unless the document disables
    it; and the decoded tracks of one kind. *)
Definition decodedTrackAt (kind : string) (rate : Rate) (i : nat)
    (fcpTrack : Schema.Track) (track : Otio.Track) : Prop :=
  Decoder.convertTrack fcpTrack rate kind i = Ok track
  /\ Track_Name track = (kind ++ " " ++ pretty (i + 1))%string
  /\ Track_Kind track = kind
  /\ Otio.Track_Enabled track
     = match Schema.Track_Enabled fcpTrack with
       | Some false => false
       | _ => true
       end.

Definition decodedTracks (kind : string) (rate : Rate)
    (fcpTracks : list Schema.Track) (tracks : list Otio.Track) : Prop :=
  length tracks = length fcpTracks
  /\ forall i fcpTrack,
       fcpTracks !! i = Some fcpTrack ->
       exists track,
         tracks !! i = Some track
         /\ decodedTrackAt kind rate i fcpTrack track.


(** The frames by which a child moves the position cursor of the encoder's
    [convertTrack], or [None] where the loop stops with an error: a clip
    and a gap move it by their duration, a transition by the sum of its
    offsets, a nested composition not at all. *)
Definition childFrames (child : Composable) : option Z :=
  match child with
  | CClip clip =>
      match Clip_Duration clip with
      | Ok dur => Some (int64_of_float64 (rt_Value dur))
      | Err _ => None
      end
  | CTransition trans =>
      Some (int64_of_float64
              (rt_Value (rt_Add (Transition_InOffset trans)
                                (Transition_OutOffset trans))))
  | CGap gap =>
      match Gap_Duration gap with
      | Ok dur => Some (int64_of_float64 (rt_Value dur))
      | Err _ => None
      end
  | _ => Some 0%Z
  end.

(** The children and the tracks that do not stop the loop. *)
Definition encodableChild (child : Composable) : bool :=
  match childFrames child with Some _ => true | None => false end.

Definition encodableTrack (track : Otio.Track) : bool :=
  forallb encodableChild (Track_Children track).

(** The cursor after a child: moved on by the frames of a clip, a
    transition or a gap, left alone by a nested composition. *)
Definition advance (pos : Z) (child : Composable) : Z :=
  match child with
  | CTrack _ | CStack _ _ => pos
  | _ => add64 pos (default 0%Z (childFrames child))
  end.

(** The children of a track, each with the position of the cursor when
    the loop reaches it. *)
Fixpoint placed (pos : Z) (children : list Composable)
  : list (Z * Composable) :=
  match children with
  | [] => []
  | child :: rest => (pos, child) :: placed (advance pos child) rest
  end.

(** The children that go to each of the three item lists. *)
Definition toClipItem (child : Composable) : bool :=
  match child with
  | CClip clip => negb (Spec.isGeneratorClip clip)
  | _ => false
  end.

Definition toGeneratorItem (child : Composable) : bool :=
  match child with
  | CClip clip => Spec.isGeneratorClip clip
  | _ => false
  end.

Definition toTransitionItem (child : Composable) : bool :=
  match child with
  | CTransition _ => true
  | _ => false
  end.

(** The start and the end of the items made of the children that [sel]
    selects: from the cursor to the cursor plus the child's frames. *)
Definition spans (sel : Composable -> bool) (pos : Z)
    (children : list Composable) : list (Z * Z) :=
  map (fun pc => (fst pc, advance (fst pc) (snd pc)))
      (List.filter (fun pc => sel (snd pc)) (placed pos children)).

(** The children the encoder makes an item of: clips and transitions. *)
Definition emitted (child : Composable) : bool :=
  match child with
  | CClip _ | CTransition _ => true
  | _ => false
  end.

(** Two children of one kind and one name. *)
Definition sameNamedKind (a b : Composable) : Prop :=
  match a, b with
  | CClip x, CClip y => Clip_Name x = Clip_Name y
  | CTransition x, CTransition y => Transition_Name x = Transition_Name y
  | _, _ => False
  end.

(** A track item made of a child at a position. *)
Definition itemOf (pc : Z * Composable) (item : Decoder.trackItem) : Prop :=
  Decoder.start item = fst pc
  /\ match snd pc, Decoder.payload item with
     | CClip clip, Decoder.clipItem ci => ClipItem_Name ci = Clip_Name clip
     | CClip clip, Decoder.generator g => GeneratorItem_Name g = Clip_Name clip
     | CTransition trans, Decoder.transition x =>
         TransitionItem_Name x = Transition_Name trans
     | _, _ => False
     end.

(** Items in the form the encoder writes them, which decoding and encoding
    again leaves as they are: frame numbers that binary64 holds exactly,
    counts that are not negative. *)
Definition normalMarker (m : Schema.Marker) : Prop :=
  exactFrames (Schema.Marker_In m)
  /\ exactFrames (Schema.Marker_Out m - Schema.Marker_In m).

Definition normalEffect (e : Effect) : Prop := (0 <= Effect_Duration e)%Z.

Definition normalFilter (f : Filter) : Prop :=
  (0 <= Filter_Start f)%Z /\ (0 <= Filter_End f)%Z
  /\ match Filter_Effect f with
     | Some e => normalEffect e
     | None => True
     end.

(** A file as the encoder writes one: the identifier made of the name,
    the rate of the document, no sequence pattern in the name, and either
    the file of a missing reference (no name, no path, no duration) or a
    path that is a file URL. *)
Definition normalFile `{Platform} (f : File) (rate : Rate) : Prop :=
  File_ID f = ("file-" ++ Encoder.sanitizeID (File_Name f))%string
  /\ File_Rate f = rate
  /\ Decoder.isImageSequenceName (File_Name f) = false
  /\ exactFrames (File_Duration f)
  /\ (File_PathURL f = "" /\ File_Name f = "" /\ File_Duration f = 0%Z
      \/ File_PathURL f <> "" /\ Encoder.isFileURL (File_PathURL f) = true).

(** A clip item in the form the encoder writes it: no nested sequence,
    the enabled flag written out, a duration of [out - in], an end of
    start plus duration, a file in written form at the item's rate. *)
Definition normalClipItem `{Platform} (item : ClipItem) : Prop :=
  ClipItem_Sequence item = None
  /\ is_Some (ClipItem_Enabled item)
  /\ exactFrames (ClipItem_In item)
  /\ exactFrames (ClipItem_Out item - ClipItem_In item)
  /\ ClipItem_Duration item = (ClipItem_Out item - ClipItem_In item)%Z
  /\ ClipItem_End item = add64 (ClipItem_Start item) (ClipItem_Duration item)
  /\ (exists f, ClipItem_File item = Some f
                /\ normalFile f (ClipItem_Rate item))
  /\ Forall normalFilter (ClipItem_Filter item)
  /\ Forall normalEffect (ClipItem_Effect item)
  /\ Forall normalMarker (ClipItem_Marker item).

(** A generator item in the form the encoder writes it. *)
Definition normalGeneratorItem (item : GeneratorItem) : Prop :=
  is_Some (GeneratorItem_Enabled item)
  /\ exactFrames (GeneratorItem_In item)
  /\ exactFrames (GeneratorItem_Duration item)
  /\ GeneratorItem_Out item
     = add64 (GeneratorItem_In item) (GeneratorItem_Duration item)
  /\ GeneratorItem_End item
     = add64 (GeneratorItem_Start item) (GeneratorItem_Duration item)
  /\ match GeneratorItem_Effect item with
     | Some e => normalEffect e
     | None => True
     end
  /\ Forall normalFilter (GeneratorItem_Filter item)
  /\ Forall normalMarker (GeneratorItem_Marker item).

(** The timebases at which the encoder recognises an NTSC rate. *)
Definition ntscTimebases : list Z := [24; 30; 60]%Z.

(** What decoding and encoding makes of the two rates of a timebase: the
    plain rate comes back; the NTSC rate comes back at a timebase the
    encoder recognises, and as the plain rate of the timebase below
    otherwise. *)
Definition reencodedNTSC (tb : Z) : Rate :=
  if existsb (Z.eqb tb) ntscTimebases then mkRate tb true
  else mkRate (tb - 1) false.

(** The law above, as a test on one timebase. *)
Definition rate_eqb (a b : Rate) : bool :=
  Z.eqb (Rate_Timebase a) (Rate_Timebase b)
  && Bool.eqb (Rate_NTSC a) (Rate_NTSC b).

Definition reencodesAsLaw (tb : Z) : bool :=
  rate_eqb (Spec.reencodeRate (mkRate tb false)) (mkRate tb false)
  && rate_eqb (Spec.reencodeRate (mkRate tb true)) (reencodedNTSC tb).

(** A transition item in the form the encoder writes it: it ends its
    frames after its start. *)
Definition normalTransitionItem (item : TransitionItem) : Prop :=
  TransitionItem_End item
  = add64 (TransitionItem_Start item) (transitionFrames item)
  /\ match TransitionItem_Effect item with
     | Some e => normalEffect e
     | None => True
     end.

(** The end of a track item, and a track item in the form the encoder
    writes it at the rate [rate]. *)
Definition itemEnd (item : Decoder.trackItem) : Z :=
  match Decoder.payload item with
  | Decoder.clipItem c => ClipItem_End c
  | Decoder.transition x => TransitionItem_End x
  | Decoder.generator g => GeneratorItem_End g
  end.

Definition normalItem `{Platform} (rate : Rate) (item : Decoder.trackItem)
  : Prop :=
  match Decoder.payload item with
  | Decoder.clipItem c =>
      Decoder.start item = ClipItem_Start c
      /\ ClipItem_Rate c = rate
      /\ normalClipItem c
  | Decoder.transition x =>
      Decoder.start item = TransitionItem_Start x
      /\ TransitionItem_Rate x = rate
      /\ normalTransitionItem x
  | Decoder.generator g =>
      Decoder.start item = GeneratorItem_Start g
      /\ GeneratorItem_Rate g = rate
      /\ normalGeneratorItem g
  end.

(** Items laid end to end from [pos]. *)
Fixpoint abutting (pos : Z) (items : list Decoder.trackItem) : Prop :=
  match items with
  | [] => True
  | item :: rest => Decoder.start item = pos /\ abutting (itemEnd item) rest
  end.

(** The document track that holds the items, each in the list of its
    kind, in the order given. *)
Definition place (t : Schema.Track) (item : Decoder.trackItem)
  : Schema.Track :=
  match Decoder.payload item with
  | Decoder.clipItem c => Encoder.appendClipItem t c
  | Decoder.transition x => Encoder.appendTransitionItem t x
  | Decoder.generator g => Encoder.appendGeneratorItem t g
  end.

Definition layOut (enabled : bool) (items : list Decoder.trackItem)
  : Schema.Track :=
  fold_left place items (Schema.mkTrack (Some enabled) [] [] []).

(** A track as the encoder writes one at the rate [rate]: items in
    written form, laid end to end from 0 at strictly ascending starts. *)
Definition writtenTrack `{Platform} (rate : Rate)
    (items : list Decoder.trackItem) : Prop :=
  Forall (normalItem rate) items
  /\ abutting 0 items
  /\ StronglySorted Z.lt (map Decoder.start items).

End Laws.

(** Inputs of the closed instances of the laws. *)
Module LawFixtures.

(** A marker with a comment and a colour. *)
Definition sampleMarker : Schema.Marker :=
  Schema.mkMarker "Clip Marker 1" "First marker" 10 20
                  (Some (mkColor 255 0 0 255)).

(** Collaborators that know a file URL by its prefix. *)
Definition filePlatform : Platform :=
  {| Timeline_Duration := fun _ => Ok (NewRationalTime 48%float 24%float);
     url_Parse_Scheme :=
       fun s => if String.prefix "file:" s then Some "file"%string else None;
     filepath_Abs := fun p => Some p;
     fileURL_String := fun p => ("file://" ++ p)%string;
     xml_Marshal := fun _ => Ok EmptyString |}.

(** An effect with a parameter, and a filter that carries it. *)
Definition sampleEffect : Effect :=
  mkEffect "Cross Dissolve" "Cross Dissolve" "transition" "video" "Dissolve"
           24 (Some 0%float) (Some 1%float) (Some false)
           [mkParam "level" "Level" "50" "" (Some 0%float) (Some 100%float)
                    ""].

Definition sampleFilter : Filter :=
  mkFilter (Some true) 0 48 (Some sampleEffect).

(** A file and a clip item as the encoder writes them. *)
Definition writtenFile : File :=
  mkFile "file-shot1mov" "shot1.mov" "file:///media/shot1.mov"
         Fixtures.rate24 240.

Definition writtenClipItem : ClipItem :=
  mkClipItem "clipitem-1" "Shot 1" (Some true) 48 Fixtures.rate24 0 48
             10 58 (Some writtenFile) None [sampleFilter] [sampleEffect]
             [sampleMarker].

(** A generator item as the encoder writes one. *)
Definition writtenGeneratorItem : GeneratorItem :=
  mkGeneratorItem "Bars and Tone" 120 Fixtures.rate24 72 192 0 120 (Some true)
                  (Some sampleEffect) [sampleFilter] [sampleMarker].

(** The file of an image sequence, and the document of the gap
    timeline. *)
Definition sequenceFile : File :=
  mkFile "file-7" "shot.####.exr" "file:///media/shots/" Fixtures.rate24 240.

Definition encodedGapDocument : XMEML :=
  mkXMEML "5"
    [mkSequence "Timeline with Gaps" 125 Fixtures.rate24
       (mkMedia (Some [Fixtures.encodedGapTrack]) None)].




(** A transition item as the encoder writes one, and a track of the three
    items laid end to end. *)
Definition writtenTransitionItem : TransitionItem :=
  mkTransitionItem "Cross Dissolve" Fixtures.rate24 48 72 "center"
                   (Some sampleEffect).

Definition writtenItems : list Decoder.trackItem :=
  [ Decoder.mkTrackItem 0 (Decoder.clipItem writtenClipItem);
    Decoder.mkTrackItem 48 (Decoder.transition writtenTransitionItem);
    Decoder.mkTrackItem 72 (Decoder.generator writtenGeneratorItem) ].

(** A clip of 50 whole frames from frame 10, at 30 frames per second. *)
Definition wholeFrameClip : Clip :=
  NewClip "Shot 2" (Some (MissingReference "" None ∅))
          (Some (NewTimeRange (NewRationalTime (float64_of_int 10) 30%float)
                              (NewRationalTime (float64_of_int 50) 30%float)))
          ∅ [].

End LawFixtures.

(** Unfolding the error monad alone; [simpl] and [cbn] are kept away from
    goals that hold metadata maps with literal keys, which they would
    normalise at great cost. *)
Ltac monad_simpl :=
  unfold mbind, mret, result_bind, result_ret, Go.bind, Go.wrapf;
  cbv beta iota.

Tactic Notation "monad_simpl" "in" hyp(H) :=
  unfold mbind, mret, result_bind, result_ret, Go.bind, Go.wrapf in H;
  cbv beta iota in H.

Section SortFacts.

Import Decoder Spec.

Lemma sweep_length x t : length (snd (sweep x t)) = length t.
Proof.
  revert x. induction t as [|y t IH]; intros x; simpl; [done|].
  destruct (start y <? start x)%Z.
  - specialize (IH y). destruct (sweep y t). simpl in *. lia.
  - specialize (IH x). destruct (sweep x t). simpl in *. lia.
Qed.

Lemma sweep_perm x t :
  Permutation (x :: t) (fst (sweep x t) :: snd (sweep x t)).
Proof.
  revert x. induction t as [|y t IH]; intros x; simpl; [done|].
  destruct (start y <? start x)%Z.
  - specialize (IH y). destruct (sweep y t) as [m r]. simpl in *.
    rewrite IH. apply perm_swap.
  - specialize (IH x). destruct (sweep x t) as [m r]. simpl in *.
    etransitivity; [apply perm_swap|]. rewrite IH. apply perm_swap.
Qed.

Lemma sweep_min x t :
  Forall (byStart (fst (sweep x t))) (x :: t).
Proof.
  revert x. induction t as [|y t IH]; intros x; simpl.
  - repeat constructor. unfold byStart. lia.
  - destruct (start y <? start x)%Z eqn:Hlt.
    + specialize (IH y). destruct (sweep y t) as [m r]. simpl in *.
      apply Z.ltb_lt in Hlt. inversion IH as [|? ? Hy Ht]; subst.
      constructor; [|done]. unfold byStart in *. lia.
    + specialize (IH x). destruct (sweep x t) as [m r]. simpl in *.
      apply Z.ltb_ge in Hlt. inversion IH as [|? ? Hx Ht]; subst.
      constructor; [done|]. constructor; [|done]. unfold byStart in *. lia.
Qed.

Lemma sweep_min_rest x t : Forall (byStart (fst (sweep x t))) (snd (sweep x t)).
Proof.
  pose proof (sweep_min x t) as Hmin.
  rewrite (sweep_perm x t) in Hmin. by inversion Hmin.
Qed.

Lemma exchangeSort_perm n l : Permutation (exchangeSort n l) l.
Proof.
  revert l. induction n as [|n IH]; intros l; simpl; [done|].
  destruct l as [|x t]; [done|].
  pose proof (sweep_perm x t) as Hp.
  destruct (sweep x t) as [m r]. simpl in *.
  rewrite IH. by symmetry.
Qed.

Lemma exchangeSort_sorted n l :
  length l <= S n -> StronglySorted byStart (exchangeSort n l).
Proof.
  revert l. induction n as [|n IH]; intros l Hlen; simpl.
  - destruct l as [|x [|y t]]; simpl in *; try lia; repeat constructor.
  - destruct l as [|x t]; [constructor|].
    pose proof (sweep_min_rest x t) as Hmin.
    pose proof (sweep_length x t) as Hl.
    destruct (sweep x t) as [m r]. simpl in *.
    constructor.
    + apply IH. lia.
    + by rewrite exchangeSort_perm.
Qed.

(** The inner loop is a sweep: with [pre] before position [i], [x] at
    [i], [seen] already compared and [todo] still to compare. *)
Lemma sortInner_sweep todo : forall pre x seen,
  sortInner (length todo) (length pre) (length pre + S (length seen))
            (pre ++ x :: seen ++ todo)
  = pre ++ fst (sweep x todo) :: seen ++ snd (sweep x todo).
Proof.
  induction todo as [|y todo IH]; intros pre x seen; simpl; [done|].
  assert (Hj : (pre ++ x :: seen ++ y :: todo)
               !! (length pre + S (length seen)) = Some y).
  { rewrite lookup_app_r by lia.
    replace (length pre + S (length seen) - length pre)
      with (S (length seen)) by lia.
    simpl. by apply list_lookup_middle. }
  assert (Hi : (pre ++ x :: seen ++ y :: todo) !! length pre = Some x)
    by (by apply list_lookup_middle).
  rewrite Hj, Hi.
  destruct (start y <? start x)%Z.
  - unfold swapItems. rewrite Hi, Hj.
    assert (Hswap :
      <[length pre := y]>
        (<[length pre + S (length seen) := x]>
           (pre ++ x :: seen ++ y :: todo))
      = pre ++ y :: (seen ++ [x]) ++ todo).
    { rewrite insert_app_r. simpl.
      replace (length seen) with (length seen + 0) at 1 by lia.
      rewrite insert_app_r. simpl.
      replace (length pre) with (length pre + 0) at 1 by lia.
      rewrite insert_app_r. simpl. by rewrite <- app_assoc. }
    rewrite Hswap.
    replace (S (length pre + S (length seen)))
      with (length pre + S (length (seen ++ [x])))
      by (rewrite length_app; simpl; lia).
    rewrite IH. destruct (sweep y todo) as [m r]. simpl.
    by rewrite <- app_assoc.
  - replace (pre ++ x :: seen ++ y :: todo)
      with (pre ++ x :: (seen ++ [y]) ++ todo)
      by (by rewrite <- app_assoc).
    replace (S (length pre + S (length seen)))
      with (length pre + S (length (seen ++ [y])))
      by (rewrite length_app; simpl; lia).
    rewrite IH. destruct (sweep x todo) as [m r]. simpl.
    by rewrite <- app_assoc.
Qed.

(** Past the last but one position the outer loop changes nothing. *)
Lemma sortOuter_past n : forall i items,
  length items <= S i -> sortOuter n i items = items.
Proof.
  induction n as [|n IH]; intros i items Hlen; simpl; [done|].
  replace (length items - S i) with 0 by lia. simpl. apply IH. lia.
Qed.

(** The outer loop is the exchange sort of what lies from [i] on. *)
Lemma sortOuter_exchangeSort n : forall pre rest,
  sortOuter n (length pre) (pre ++ rest) = pre ++ exchangeSort n rest.
Proof.
  induction n as [|n IH]; intros pre rest; simpl; [done|].
  destruct rest as [|x t].
  - rewrite app_nil_r. replace (length pre - S (length pre)) with 0 by lia.
    simpl. apply sortOuter_past. lia.
  - replace (length (pre ++ x :: t) - S (length pre)) with (length t)
      by (rewrite length_app; simpl; lia).
    pose proof (sortInner_sweep t pre x []) as Hin. simpl in Hin.
    replace (length pre + 1) with (S (length pre)) in Hin by lia.
    rewrite Hin. destruct (sweep x t) as [m r]. simpl.
    replace (pre ++ m :: r) with ((pre ++ [m]) ++ r)
      by (by rewrite <- app_assoc).
    replace (S (length pre)) with (length (pre ++ [m]))
      by (rewrite length_app; simpl; lia).
    rewrite IH. by rewrite <- app_assoc.
Qed.

Lemma sortByStart_exchangeSort items :
  sortByStart items = exchangeSort (length items - 1) items.
Proof. unfold sortByStart. apply (sortOuter_exchangeSort _ [] items). Qed.

Lemma sortByStart_perm items : Permutation (sortByStart items) items.
Proof. rewrite sortByStart_exchangeSort. apply exchangeSort_perm. Qed.

Lemma sortByStart_sorted items : StronglySorted byStart (sortByStart items).
Proof. rewrite sortByStart_exchangeSort. apply exchangeSort_sorted. lia. Qed.

(** The stable sort of the specification is a sorted rearrangement too. *)
Lemma insertByStart_perm x l : Permutation (insertByStart x l) (x :: l).
Proof.
  induction l as [|y l IH]; cbn [insertByStart]; [done|].
  destruct (start x <=? start y)%Z; [done|].
  rewrite IH. apply perm_swap.
Qed.

Lemma stableSortByStart_perm l : Permutation (stableSortByStart l) l.
Proof.
  induction l as [|x l IH]; cbn [stableSortByStart]; [done|].
  by rewrite insertByStart_perm, IH.
Qed.

Lemma insertByStart_sorted x l :
  StronglySorted byStart l -> StronglySorted byStart (insertByStart x l).
Proof.
  induction 1 as [|y l Hs IH Hy]; cbn [insertByStart].
  - repeat constructor.
  - destruct (start x <=? start y)%Z eqn:Hle.
    + apply Z.leb_le in Hle. constructor; [by constructor|].
      constructor; [done|].
      eapply Forall_impl; [exact Hy|]. unfold byStart. intros z Hz. lia.
    + apply Z.leb_gt in Hle. constructor; [done|].
      rewrite insertByStart_perm. constructor; [|done].
      unfold byStart. lia.
Qed.

Lemma stableSortByStart_sorted l : StronglySorted byStart (stableSortByStart l).
Proof.
  induction l as [|x l IH]; cbn [stableSortByStart]; [constructor|].
  by apply insertByStart_sorted.
Qed.

(** Two items of a list with pairwise distinct starts that start together
    are the same item. *)
Lemma same_start_same_item (l : list trackItem) x y :
  NoDup (map start l) -> x ∈ l -> y ∈ l -> start x = start y -> x = y.
Proof.
  induction l as [|z l IH]; intros Hnd Hx Hy Hxy; [by inversion Hx|].
  cbn [map] in Hnd. apply NoDup_cons in Hnd as [Hz Hnd].
  apply elem_of_cons in Hx as [->|Hx]; apply elem_of_cons in Hy as [->|Hy].
  - done.
  - exfalso. apply Hz. rewrite Hxy. by apply list_elem_of_fmap_2.
  - exfalso. apply Hz. rewrite <- Hxy. by apply list_elem_of_fmap_2.
  - by apply IH.
Qed.

(** With pairwise distinct starts the ascending order is unique. *)
Lemma sorted_perm_unique (l1 : list trackItem) : forall l2,
  NoDup (map start l1) ->
  StronglySorted byStart l1 -> StronglySorted byStart l2 ->
  Permutation l1 l2 -> l1 = l2.
Proof.
  induction l1 as [|x l1 IH]; intros l2 Hnd Hs1 Hs2 Hp.
  - by apply Permutation_nil in Hp.
  - destruct l2 as [|y l2]; [by apply Permutation_sym, Permutation_nil in Hp|].
    apply StronglySorted_inv in Hs1 as [Hs1 Hx].
    apply StronglySorted_inv in Hs2 as [Hs2 Hy].
    assert (Hyin : y ∈ x :: l1) by (rewrite Hp; apply elem_of_cons; by left).
    assert (Hxin : x ∈ y :: l2) by (rewrite <- Hp; apply elem_of_cons; by left).
    assert (Hxy : start x = start y).
    { apply elem_of_cons in Hyin as [->|Hyin]; [done|].
      apply elem_of_cons in Hxin as [->|Hxin]; [done|].
      rewrite Forall_forall in Hx, Hy.
      specialize (Hx y Hyin). specialize (Hy x Hxin).
      unfold byStart in *. lia. }
    assert (x = y) as <-.
    { apply (same_start_same_item (x :: l1)); try done.
      apply elem_of_cons. by left. }
    f_equal. apply Permutation_cons_inv in Hp.
    cbn [map] in Hnd. apply NoDup_cons in Hnd as [_ Hnd]. by apply IH.
Qed.

Lemma sortByStart_stable_when_distinct items :
  NoDup (map start items) -> sortByStart items = stableSortByStart items.
Proof.
  intros Hnd. apply sorted_perm_unique.
  - by rewrite (sortByStart_perm items).
  - apply sortByStart_sorted.
  - apply stableSortByStart_sorted.
  - by rewrite sortByStart_perm, stableSortByStart_perm.
Qed.

(** Items already in ascending order are left where they are. *)
Lemma sweep_sorted x t : Forall (byStart x) t -> sweep x t = (x, t).
Proof.
  induction 1 as [|y t Hy _ IH]; cbn [sweep]; [done|].
  unfold byStart in Hy. apply Z.ltb_ge in Hy. by rewrite Hy, IH.
Qed.

Lemma exchangeSort_sorted_id n : forall l,
  StronglySorted byStart l -> exchangeSort n l = l.
Proof.
  induction n as [|n IH]; intros l Hs; cbn [exchangeSort]; [done|].
  destruct Hs as [|x t Hs Hx]; [done|].
  by rewrite (sweep_sorted x t Hx), IH.
Qed.

Lemma sortByStart_sorted_id items :
  StronglySorted byStart items -> sortByStart items = items.
Proof. rewrite sortByStart_exchangeSort. apply exchangeSort_sorted_id. Qed.

End SortFacts.

(* ===================================================================== *)
(** ** The decoder's track loop *)
(* ===================================================================== *)

Section DecoderTrackFacts.

Import Decoder Spec.

(** The three item converters of the decoder return no error. *)
Lemma convertClipItem_total c rate :
  exists child, convertClipItem c rate = Ok child.
Proof.
  unfold convertClipItem. destruct (ClipItem_Sequence c); eauto.
Qed.

Lemma convertTransition_total t rate :
  exists trans, convertTransition t rate = Ok trans.
Proof. unfold convertTransition. eauto. Qed.

Lemma convertGenerator_total g rate :
  exists clip, convertGenerator g rate = Ok clip.
Proof. unfold convertGenerator. eauto. Qed.

Lemma convertItem_total rate item :
  exists child, convertItem rate item = Ok child.
Proof.
  unfold convertItem. destruct (payload item) as [c|t|g].
  - apply convertClipItem_total.
  - destruct (convertTransition_total t rate) as [x ->]. monad_simpl. eauto.
  - destruct (convertGenerator_total g rate) as [x ->]. monad_simpl. eauto.
Qed.

(** The item loop appends, to the children the track already has, the
    translation of each item in turn, and returns no error. *)
Lemma convertItems_children rate items : forall i track,
  exists children,
    Forall2 (fun item child => convertItem rate item = Ok child)
            items children
    /\ convertItemsWith convertClipItem convertTransition convertGenerator
         rate i items track
       = Ok (Otio.mkTrack (Track_Name track) (Track_Kind track)
                          (Track_Children track ++ children)
                          (Otio.Track_Enabled track)).
Proof.
  induction items as [|item rest IH]; intros i track.
  - exists []. split; [constructor|]. simpl. rewrite app_nil_r.
    by destruct track.
  - destruct (convertItem_total rate item) as [child Hchild].
    cbn [convertItemsWith].
    match goal with
    | |- context [mbind _ ?step] =>
        assert (Hstep :
          step = Ok (Otio.mkTrack (Track_Name track) (Track_Kind track)
                                  (Track_Children track ++ [child])
                                  (Otio.Track_Enabled track)))
    end.
    { unfold convertItem in Hchild. destruct (payload item) as [c|t|g].
      - rewrite Hchild. reflexivity.
      - destruct (convertTransition_total t rate) as [x Hx].
        rewrite Hx in *. monad_simpl in Hchild. monad_simpl.
        by injection Hchild as <-.
      - destruct (convertGenerator_total g rate) as [x Hx].
        rewrite Hx in *. monad_simpl in Hchild. monad_simpl.
        by injection Hchild as <-. }
    rewrite Hstep. monad_simpl.
    destruct (IH (S i) (Otio.mkTrack (Track_Name track) (Track_Kind track)
                                     (Track_Children track ++ [child])
                                     (Otio.Track_Enabled track)))
      as [children [HF Hrest]].
    exists (child :: children). split; [by constructor|].
    rewrite Hrest. cbn [Track_Name Track_Kind Track_Children Otio.Track_Enabled].
    by rewrite <- app_assoc.
Qed.

(** A child carries the name of the item it translates. *)
Lemma convertItem_name rate item child :
  convertItem rate item = Ok child -> childName child = itemName item.
Proof.
  unfold convertItem, itemName.
  destruct (payload item) as [c|t|g].
  - unfold convertClipItem.
    destruct (ClipItem_Sequence c); [by intros [= <-]|].
    by destruct (ClipItem_Enabled c) as [[|]|]; intros [= <-].
  - unfold convertTransition. monad_simpl. by intros [= <-].
  - unfold convertGenerator. monad_simpl.
    by destruct (GeneratorItem_Enabled g) as [[|]|]; intros [= <-].
Qed.

Lemma translated_names rate items children :
  Forall2 (fun item child => convertItem rate item = Ok child) items children ->
  map childName children = map itemName items.
Proof.
  induction 1 as [|item child items children Hc _ IH]; [done|].
  cbn [map]. by rewrite (convertItem_name _ _ _ Hc), IH.
Qed.

Lemma convertTrack_inOrder fcpTrack rate kind index :
  DecodedInOrderOf sortByStart fcpTrack rate kind index.
Proof.
  unfold DecodedInOrderOf, Decoder.convertTrack, convertTrackWith.
  match goal with
  | |- context [convertItemsWith _ _ _ rate 0 ?items ?track] =>
      destruct (convertItems_children rate items 0 track)
        as [children [HF Hconv]]
  end.
  eexists. split; [exact Hconv|].
  by destruct (Schema.Track_Enabled fcpTrack) as [[|]|].
Qed.

End DecoderTrackFacts.

(* ===================================================================== *)
(** ** The order of the decoded children, on the items of the document *)
(* ===================================================================== *)

Section OrderFacts.

Import Decoder Spec.

(** What the decoder records of the items of a track: each item of the
    concatenation, under its own start. *)
Lemma collectItems_concatenation fcpTrack :
  collectItems fcpTrack
  = map (fun p => mkTrackItem (startOf p) p) (concatenation fcpTrack).
Proof.
  unfold collectItems, concatenation.
  by rewrite !map_app, !map_map.
Qed.

Lemma payload_recorded (l : list trackItemPayload) :
  map payload (map (fun p => mkTrackItem (startOf p) p) l) = l.
Proof. rewrite map_map. cbn [payload]. apply map_id. Qed.

Lemma start_recorded (l : list trackItemPayload) :
  map start (map (fun p => mkTrackItem (startOf p) p) l) = map startOf l.
Proof. by rewrite map_map. Qed.

(** Every item of a rearrangement of the recorded items is still recorded
    under its own start. *)
Lemma recorded_perm (l : list trackItemPayload) (items : list trackItem) :
  Permutation items (map (fun p => mkTrackItem (startOf p) p) l) ->
  items = map (fun p => mkTrackItem (startOf p) p) (map payload items).
Proof.
  intros Hp.
  assert (Hall : Forall (fun item => item = mkTrackItem (startOf (payload item))
                                                         (payload item)) items).
  { rewrite Hp. apply Forall_forall. intros item Hin.
    apply list_elem_of_In, in_map_iff in Hin as [p [<- _]]. reflexivity. }
  clear Hp. induction Hall as [|item items Hitem _ IH]; [done|].
  cbn [map]. by rewrite <- Hitem, <- IH.
Qed.

Lemma ascending_recorded (l : list trackItemPayload) :
  StronglySorted byStart (map (fun p => mkTrackItem (startOf p) p) l)
  <-> StronglySorted ascending l.
Proof.
  induction l as [|p l IH]; [split; constructor|].
  cbn [map]. split; intros [Hs Hp]%StronglySorted_inv.
  - constructor; [by apply IH|].
    rewrite Forall_map in Hp. exact Hp.
  - constructor; [by apply IH|].
    rewrite Forall_map. exact Hp.
Qed.

Lemma insertStably_recorded p l :
  insertByStart (mkTrackItem (startOf p) p)
                (map (fun p => mkTrackItem (startOf p) p) l)
  = map (fun p => mkTrackItem (startOf p) p) (insertStably p l).
Proof.
  induction l as [|q l IH]; [done|].
  cbn [map insertByStart insertStably start].
  destruct (startOf p <=? startOf q)%Z; [done|].
  cbn [map]. by rewrite IH.
Qed.

Lemma stablySorted_recorded l :
  stableSortByStart (map (fun p => mkTrackItem (startOf p) p) l)
  = map (fun p => mkTrackItem (startOf p) p) (stablySorted l).
Proof.
  induction l as [|p l IH]; [done|].
  cbn [map stableSortByStart stablySorted].
  by rewrite IH, insertStably_recorded.
Qed.

(** The stable order on the items of the document is the stable order on
    the items the decoder records. *)
Lemma DecodedAs_stable fcpTrack rate kind index :
  DecodedAs (stablySorted (concatenation fcpTrack)) fcpTrack rate kind index ->
  DecodedInOrderOf stableSortByStart fcpTrack rate kind index.
Proof.
  intros [track [Hconv HF]]. exists track. split; [exact Hconv|].
  rewrite collectItems_concatenation, stablySorted_recorded.
  apply Forall2_fmap_l. exact HF.
Qed.

(** The order the decoder's sort leaves the items of a track in. *)
Lemma convertTrack_order fcpTrack rate kind index :
  exists order,
    DecodedAs order fcpTrack rate kind index
    /\ Permutation order (concatenation fcpTrack)
    /\ StronglySorted ascending order
    /\ (NoDup (map startOf (concatenation fcpTrack)) ->
        order = stablySorted (concatenation fcpTrack))
    /\ (StronglySorted ascending (concatenation fcpTrack) ->
        order = concatenation fcpTrack).
Proof.
  exists (map payload (sortByStart (collectItems fcpTrack))).
  pose proof (sortByStart_perm (collectItems fcpTrack)) as Hperm.
  pose proof (sortByStart_sorted (collectItems fcpTrack)) as Hsorted.
  rewrite collectItems_concatenation in Hperm at 2.
  split; [|split; [|split; [|split]]].
  - destruct (convertTrack_inOrder fcpTrack rate kind index)
      as [track [Hconv HF]].
    exists track. split; [exact Hconv|].
    apply Forall2_fmap_l. exact HF.
  - rewrite <- (payload_recorded (concatenation fcpTrack)).
    by apply Permutation_map.
  - apply ascending_recorded. by rewrite <- (recorded_perm _ _ Hperm).
  - intros Hnd.
    rewrite sortByStart_stable_when_distinct, collectItems_concatenation.
    + by rewrite stablySorted_recorded, payload_recorded.
    + by rewrite collectItems_concatenation, start_recorded.
  - intros Hasc.
    rewrite sortByStart_sorted_id, collectItems_concatenation.
    + apply payload_recorded.
    + rewrite collectItems_concatenation. by apply ascending_recorded.
Qed.




End OrderFacts.

(** C1, as amended.  A track always decodes, and the children of the
    decoded track are the translations, one for one, of the track's items
    in an order that is a rearrangement of the concatenation of the
    track's clip-item, transition-item and generator-item lists in which
    the items' start values never decrease.  When no two items of the
    track start together that order is the stably sorted concatenation,
    and a concatenation that is already in ascending order is kept as it
    is; otherwise nothing is promised about the relative order of items of
    equal start. *)
Theorem decoded_children_ascending_start
    (fcpTrack : Schema.Track) (rate : Rate) (kind : string) (index : nat) :
  exists order,
    Spec.DecodedAs order fcpTrack rate kind index
    /\ Permutation order (Spec.concatenation fcpTrack)
    /\ StronglySorted Spec.ascending order
    /\ (NoDup (map Spec.startOf (Spec.concatenation fcpTrack)) ->
        order = Spec.stablySorted (Spec.concatenation fcpTrack))
    /\ (StronglySorted Spec.ascending (Spec.concatenation fcpTrack) ->
        order = Spec.concatenation fcpTrack).
Proof. apply convertTrack_order. Qed.

(** A closed instance of [decoded_children_ascending_start], on a track
    that meets both provisos: its children are the translations of the
    stably sorted concatenation, which is the concatenation itself. *)
Lemma decoded_children_ascending_start_witness :
  NoDup (map Spec.startOf (Spec.concatenation Fixtures.orderedTrack))
  /\ StronglySorted Spec.ascending (Spec.concatenation Fixtures.orderedTrack)
  /\ Spec.DecodedAs (Spec.stablySorted
                       (Spec.concatenation Fixtures.orderedTrack))
       Fixtures.orderedTrack Fixtures.rate24 "Video" 0
  /\ Spec.DecodedAs (Spec.concatenation Fixtures.orderedTrack)
       Fixtures.orderedTrack Fixtures.rate24 "Video" 0.
Proof.
  assert (Hnd : NoDup (map Spec.startOf
                           (Spec.concatenation Fixtures.orderedTrack))).
  { vm_compute.
    repeat (apply NoDup_cons; split;
            [rewrite ?elem_of_cons, elem_of_nil; intuition discriminate|]).
    apply NoDup_nil. done. }
  assert (Hs : StronglySorted Spec.ascending
                 (Spec.concatenation Fixtures.orderedTrack)).
  { repeat constructor; unfold Spec.ascending; cbn; lia. }
  destruct (decoded_children_ascending_start Fixtures.orderedTrack
              Fixtures.rate24 "Video" 0)
    as (order & Hdec & _ & _ & Hstable & Hid).
  split; [exact Hnd|]. split; [exact Hs|]. split.
  - rewrite <- (Hstable Hnd). exact Hdec.
  - rewrite <- (Hid Hs). exact Hdec.
Defined.

(** C1, refuted as stated.  On the track whose clip items A and B both
    start at 2 and whose generator item G starts at 1, the decoded
    children are not in the stable order G, A, B: the exchange of A with G
    carries A behind B.  This holds for the stable sort of the items the
    decoder records and for the stable sort of the concatenation of the
    track's three lists alike. *)
Lemma decoded_children_not_stable :
  ~ Spec.DecodedInOrderOf Spec.stableSortByStart Fixtures.tieTrack
      Fixtures.rate24 "Video" 0
  /\ ~ Spec.DecodedAs (Spec.stablySorted
                         (Spec.concatenation Fixtures.tieTrack))
         Fixtures.tieTrack Fixtures.rate24 "Video" 0.
Proof.
  assert (Hno : ~ Spec.DecodedInOrderOf Spec.stableSortByStart
                    Fixtures.tieTrack Fixtures.rate24 "Video" 0).
  { intros [track [Hconv Hstable]].
    destruct (convertTrack_inOrder Fixtures.tieTrack Fixtures.rate24
                                   "Video" 0) as [track' [Hconv' Hcode]].
    rewrite Hconv in Hconv'. injection Hconv' as <-.
    apply translated_names in Hstable. apply translated_names in Hcode.
    rewrite Hstable in Hcode. vm_compute in Hcode. discriminate Hcode. }
  split; [exact Hno|].
  intros Hdec. apply Hno. by apply DecodedAs_stable.
Qed.

(* ===================================================================== *)
(** ** Frame rates *)
(* ===================================================================== *)

(** The rate a decoded clip carries is [rateToFrameRate] of the rate of
    its clip item: [convertClipItem] computes it in line. *)
Lemma convertClipItem_frameRate item seqRate :
  exists clip,
    Decoder.convertClipItem item seqRate = Ok (CClip clip)
    /\ Clip_Duration clip
       = Ok (NewRationalTime
               (float64_of_int (sub64 (ClipItem_Out item) (ClipItem_In item)))
               (Decoder.rateToFrameRate (ClipItem_Rate item))).
Proof.
  unfold Decoder.convertClipItem, Decoder.rateToFrameRate.
  destruct (ClipItem_Sequence item); [by eexists|].
  by destruct (ClipItem_Enabled item) as [[|]|]; eexists.
Qed.

(** A clip item at the rate [r], decoded and put first in the first track
    of a timeline, makes [reencodeRate r] the rate of the encoded
    document, provided the decoded rate is positive. *)
Lemma decoded_clip_sets_rate
    id name en dur r st e i o f sq fl ef mk seqRate :
  PrimFloat.ltb 0 (Decoder.rateToFrameRate r) = true ->
  exists clip,
    Decoder.convertClipItem
      (mkClipItem id name en dur r st e i o f sq fl ef mk) seqRate
    = Ok (CClip clip)
    /\ forall title trackName kind enabled rest others,
         Spec.encodedRate
           (mkTimeline title
              (CTrack (Otio.mkTrack trackName kind (CClip clip :: rest)
                                    enabled) :: others))
         = Spec.reencodeRate r.
Proof.
  intros Hpos.
  destruct (convertClipItem_frameRate
              (mkClipItem id name en dur r st e i o f sq fl ef mk) seqRate)
    as [clip [Hc Hd]].
  exists clip. split; [exact Hc|]. intros.
  unfold Spec.encodedRate, Encoder.workingRate.
  cbn [Timeline_Tracks Encoder.findFrameRate Track_Children].
  rewrite Hd. cbn [rt_Rate ClipItem_Rate]. by rewrite Hpos.
Qed.

(** C2.  For each canonical rate, given as its timebase and NTSC flag,
    decoding to frames per second and encoding again gives back the same
    timebase and the same flag: on the rate itself, and on the document
    encoded from a timeline whose first track opens with a clip decoded
    from a clip item at that rate. *)
Theorem canonical_rates_reencode :
  Forall
    (fun r =>
       Spec.reencodeRate r = r
       /\ forall id name en dur st e i o f sq fl ef mk seqRate,
            exists clip,
              Decoder.convertClipItem
                (mkClipItem id name en dur r st e i o f sq fl ef mk) seqRate
              = Ok (CClip clip)
              /\ forall title trackName kind enabled rest others,
                   Spec.encodedRate
                     (mkTimeline title
                        (CTrack (Otio.mkTrack trackName kind
                                              (CClip clip :: rest) enabled)
                         :: others))
                   = r)
    Spec.canonicalRates.
Proof.
  unfold Spec.canonicalRates.
  repeat
    (constructor;
     [ match goal with
       | |- Spec.reencodeRate ?r = _ /\ _ =>
           assert (Hre : Spec.reencodeRate r = r) by (vm_compute; reflexivity);
           split; [exact Hre|];
           intros id name en dur st e i o f sq fl ef mk seqRate;
           destruct (decoded_clip_sets_rate id name en dur r st e i o f sq
                       fl ef mk seqRate) as [clip [Hc He]];
           [vm_compute; reflexivity|];
           exists clip; split; [exact Hc|]; intros; rewrite He; exact Hre
       end | ]).
  constructor.
Qed.

(* ===================================================================== *)
(** ** Identifier sanitization *)
(* ===================================================================== *)

Section SanitizeFacts.

Import Encoder Spec.

Lemma string_app_nil_l (s : string) : ("" ++ s)%string = s.
Proof. reflexivity. Qed.

Lemma string_app_cons (c : ascii) (s t : string) :
  (String c s ++ t)%string = String c (s ++ t)%string.
Proof. reflexivity. Qed.

Lemma string_app_nil_r (s : string) : (s ++ "")%string = s.
Proof.
  induction s as [|c s IH]; [done|]. by rewrite string_app_cons, IH.
Qed.

Lemma string_app_assoc (a b c : string) :
  ((a ++ b) ++ c)%string = (a ++ (b ++ c))%string.
Proof.
  induction a as [|x a IH]; [done|]. by rewrite !string_app_cons, IH.
Qed.

(** The character test of the code accepts exactly the alphabet. *)
Lemma isIDChar_alphabet c : isIDChar c = occurs c idAlphabet.
Proof.
  destruct c as [[|] [|] [|] [|] [|] [|] [|] [|]]; vm_compute; reflexivity.
Qed.

(** The loop appends to what it was given the sanitized characters. *)
Lemma sanitizeLoop_chars s : forall acc,
  sanitizeLoop s acc = (acc ++ sanitizeChars s)%string.
Proof.
  induction s as [|c s IH]; intros acc; cbn [sanitizeLoop sanitizeChars].
  - by rewrite string_app_nil_r.
  - rewrite IH, <- isIDChar_alphabet.
    destruct (Ascii.eqb_spec c " ") as [->|Hc].
    + replace (isIDChar " ") with false by (vm_compute; reflexivity).
      by rewrite string_app_assoc.
    + destruct (isIDChar c); [|done]. by rewrite string_app_assoc.
Qed.

Lemma sanitizeID_worded s : sanitizeID s = sanitizeWorded s.
Proof.
  unfold sanitizeID, sanitizeWorded.
  rewrite sanitizeLoop_chars, string_app_nil_l.
  by destruct (sanitizeChars s).
Qed.

End SanitizeFacts.

(** C8.  [sanitizeID] gives "file" for the empty string, "with_spaces"
    for "with spaces" and "withspecial" for "with!@#special"; in general
    every space becomes an underscore, every character other than the
    ASCII letters, the digits, the hyphen and the underscore is removed,
    and an empty result is replaced by "file". *)
Theorem sanitizeID_spec :
  Encoder.sanitizeID "" = "file"
  /\ Encoder.sanitizeID "with spaces" = "with_spaces"
  /\ Encoder.sanitizeID "with!@#special" = "withspecial"
  /\ forall s, Encoder.sanitizeID s = Spec.sanitizeWorded s.
Proof.
  split; [reflexivity|]. split; [vm_compute; reflexivity|].
  split; [vm_compute; reflexivity|]. apply sanitizeID_worded.
Qed.

(* ===================================================================== *)
(** ** Decoding a document *)
(* ===================================================================== *)

Section DecodeFacts.

Import Decoder Spec.








End DecodeFacts.


(* ===================================================================== *)
(** ** The encoder's item converters *)
(* ===================================================================== *)

Section EncoderItemFacts.

Import Encoder Spec.

Context `{Platform}.

Lemma bind_Ok {A B : Type} (r : result A) (k : A -> result B) (b : B) :
  (x ← r; k x) = Ok b -> exists a, r = Ok a /\ k a = Ok b.
Proof. destruct r as [a|e]; monad_simpl; [eauto|discriminate]. Qed.

Lemma wrapf_Ok {A : Type} (msg : string) (r : result A) (a : A) :
  wrapf msg r = Ok a -> r = Ok a.
Proof. destruct r; monad_simpl; congruence. Qed.

(** [convertMediaReference] returns a file reference for every kind of
    media reference, at the rate it is given. *)
Lemma convertMediaReference_total ref rate :
  exists file,
    convertMediaReference ref rate = Ok file
    /\ File_ID file = ("file-" ++ sanitizeID (MediaReference_Name ref))%string
    /\ File_Name file = MediaReference_Name ref
    /\ File_Rate file = rate.
Proof. destruct ref; eexists; (split; [reflexivity|]); by repeat split. Qed.

(** What a clip item holds when [convertClip] returns one. *)
Lemma convertClip_fields clip rate pos ci :
  convertClip clip rate pos = Ok ci ->
  ClipItem_Name ci = Clip_Name clip
  /\ ClipItem_Rate ci = rate
  /\ ClipItem_Start ci = pos
  /\ ClipItem_Enabled ci = Some (Clip_Enabled clip)
  /\ match Clip_MediaReference clip with
     | Some ref =>
         exists file,
           convertMediaReference ref rate = Ok file
           /\ ClipItem_File ci = Some file
     | None => ClipItem_File ci = None
     end.
Proof.
  unfold convertClip. intros Hc.
  apply bind_Ok in Hc as [sourceRange [_ Hc]].
  apply bind_Ok in Hc as [file [Hfile Hc]].
  injection Hc as <-.
  cbn [ClipItem_Name ClipItem_Rate ClipItem_Start ClipItem_Enabled
       ClipItem_File].
  repeat (split; [reflexivity|]).
  destruct (Clip_MediaReference clip) as [ref|].
  - apply bind_Ok in Hfile as [f [Hf Hfile]]. apply wrapf_Ok in Hf.
    injection Hfile as <-. eauto.
  - by injection Hfile as <-.
Qed.

(** [convertClip] fails only for want of a range. *)
Lemma convertClip_Ok clip rate pos :
  isOk (Clip_Duration clip) = true ->
  exists ci, convertClip clip rate pos = Ok ci.
Proof.
  unfold convertClip, Clip_Duration. intros Hdur.
  destruct (Clip_SourceRange clip) as [sr|].
  - monad_simpl. destruct (Clip_MediaReference clip) as [ref|]; [|by eexists].
    destruct (convertMediaReference_total ref rate) as [file [-> _]].
    by eexists.
  - destruct (Clip_AvailableRange clip) as [ar|e] eqn:Har;
      [|monad_simpl in Hdur; discriminate].
    monad_simpl. destruct (Clip_MediaReference clip) as [ref|]; [|by eexists].
    destruct (convertMediaReference_total ref rate) as [file [-> _]].
    by eexists.
Qed.

(** [convertToGenerator] answers by [isGeneratorClip], and gives an item
    at the given rate and position when it answers true. *)
Lemma convertToGenerator_routes clip rate pos :
  if isGeneratorClip clip
  then exists g,
         convertToGenerator clip rate pos = (true, Some g)
         /\ GeneratorItem_Name g = Clip_Name clip
         /\ GeneratorItem_Rate g = rate
         /\ GeneratorItem_Start g = pos
         /\ GeneratorItem_Enabled g = Some (Clip_Enabled clip)
  else convertToGenerator clip rate pos = (false, None).
Proof.
  unfold isGeneratorClip, convertToGenerator.
  destruct (asBool (Clip_Metadata clip !! "fcp7xml_generator")) as [[|]|];
    [|done|done].
  destruct (Clip_Duration clip) as [dur|e]; [|done].
  cbn [isOk]. eexists. split; [reflexivity|]. by repeat split.
Qed.

Lemma convertTransitionToItem_fields trans rate pos x :
  convertTransitionToItem trans rate pos = Ok x ->
  TransitionItem_Name x = Transition_Name trans
  /\ TransitionItem_Rate x = rate
  /\ TransitionItem_Start x = pos.
Proof. unfold convertTransitionToItem. by intros [= <-]. Qed.

(** The loop of [convertTrack] appends to the three lists of the track it
    was given: a clip item for each plain clip, a transition item for each
    transition and a generator item for each generator clip, each made by
    its converter at some position. *)
Lemma convertChildren_emits rate children : forall fcpTrack pos fcpTrack',
  convertChildren rate children fcpTrack pos = Ok fcpTrack' ->
  exists cs ts gs,
    fcpTrack'
    = Schema.mkTrack (Schema.Track_Enabled fcpTrack)
                     (Track_ClipItem fcpTrack ++ cs)
                     (Track_TransitionItem fcpTrack ++ ts)
                     (Track_GeneratorItem fcpTrack ++ gs)
    /\ Forall2 (fun clip ci => exists p, convertClip clip rate p = Ok ci)
               (plainClips children) cs
    /\ Forall2 (fun trans x =>
                  exists p, convertTransitionToItem trans rate p = Ok x)
               (transitionsOf children) ts
    /\ Forall2 (fun clip g =>
                  exists p, convertToGenerator clip rate p = (true, Some g))
               (generatorClips children) gs.
Proof.
  induction children as [|child rest IH]; intros fcpTrack pos fcpTrack' Hc.
  - injection Hc as <-. exists [], [], [].
    rewrite !app_nil_r. split; [by destruct fcpTrack|].
    repeat split; constructor.
  - cbn [convertChildren] in Hc. destruct child as [clip|trans|gap|t|n cc].
    + apply bind_Ok in Hc as [t1 [Hstep Hc]].
      apply bind_Ok in Hc as [dur [_ Hc]].
      apply IH in Hc as (cs & ts & gs & -> & Hcs & Hts & Hgs).
      pose proof (convertToGenerator_routes clip rate pos) as Hroute.
      unfold plainClips, generatorClips.
      cbn [clipsOf flat_map app List.filter transitionsOf].
      fold (clipsOf rest). fold (transitionsOf rest).
      destruct (isGeneratorClip clip) eqn:Hgen; cbn [negb].
      * destruct Hroute as [g [Hg _]]. rewrite Hg in Hstep.
        injection Hstep as <-.
        exists cs, ts, (g :: gs). unfold appendGeneratorItem.
        cbn [Schema.Track_Enabled Track_ClipItem Track_TransitionItem
             Track_GeneratorItem].
        rewrite <- app_assoc. split; [done|].
        split; [done|]. split; [done|]. constructor; [eauto|done].
      * rewrite Hroute in Hstep.
        apply bind_Ok in Hstep as [ci [Hci Hstep]]. apply wrapf_Ok in Hci.
        injection Hstep as <-.
        exists (ci :: cs), ts, gs. unfold appendClipItem.
        cbn [Schema.Track_Enabled Track_ClipItem Track_TransitionItem
             Track_GeneratorItem].
        rewrite <- app_assoc. split; [done|].
        split; [constructor; [eauto|done]|]. by split.
    + apply bind_Ok in Hc as [x [Hx Hc]]. apply wrapf_Ok in Hx.
      apply IH in Hc as (cs & ts & gs & -> & Hcs & Hts & Hgs).
      exists cs, (x :: ts), gs. unfold appendTransitionItem.
      cbn [Schema.Track_Enabled Track_ClipItem Track_TransitionItem
           Track_GeneratorItem].
      rewrite <- app_assoc. split; [done|]. split; [done|].
      split; [|done]. cbn [transitionsOf flat_map app].
      constructor; [eauto|done].
    + apply bind_Ok in Hc as [dur [_ Hc]]. by apply IH in Hc.
    + by apply IH in Hc.
    + by apply IH in Hc.
Qed.

(** The same for [convertTrack], which starts from the empty lists and
    the enabled state of the track. *)
Lemma convertTrack_emits track rate fcpTrack :
  Encoder.convertTrack track rate = Ok fcpTrack ->
  Schema.Track_Enabled fcpTrack = Some (Otio.Track_Enabled track)
  /\ Forall2 (fun clip ci => exists p, convertClip clip rate p = Ok ci)
             (plainClips (Track_Children track)) (Track_ClipItem fcpTrack)
  /\ Forall2 (fun trans x =>
                exists p, convertTransitionToItem trans rate p = Ok x)
             (transitionsOf (Track_Children track))
             (Track_TransitionItem fcpTrack)
  /\ Forall2 (fun clip g =>
                exists p, convertToGenerator clip rate p = (true, Some g))
             (generatorClips (Track_Children track))
             (Track_GeneratorItem fcpTrack).
Proof.
  unfold Encoder.convertTrack. intros Hc.
  apply convertChildren_emits in Hc as (cs & ts & gs & -> & Hcs & Hts & Hgs).
  by cbn.
Qed.

End EncoderItemFacts.

(* ===================================================================== *)
(** ** Gaps *)
(* ===================================================================== *)

Section GapFacts.

Import Encoder Spec Fixtures.

Context `{Platform}.

Lemma gapTrack_encoded :
  Encoder.convertTrack gapTrack rate24 = Ok encodedGapTrack.
Proof. vm_compute. reflexivity. Qed.

(** A gap moves the cursor on by its duration and appends nothing. *)
Lemma convertChildren_gap rate g rest fcpTrack pos dur :
  Gap_Duration g = Ok dur ->
  convertChildren rate (CGap g :: rest) fcpTrack pos
  = convertChildren rate rest fcpTrack
      (add64 pos (int64_of_float64 (rt_Value dur))).
Proof. intros Hd. cbn [convertChildren]. by rewrite Hd. Qed.

End GapFacts.

(** C5.  The timeline of one video track holding a clip of 50 frames, a
    gap of 25 frames and a second clip of 50 frames encodes to a document
    whose only track has exactly two clip items and no other item, the
    second clip item starting at 75; in general a gap moves the position
    cursor on by its duration and appends no element. *)
Theorem gap_elided `{Platform} (d : RationalTime) :
  Timeline_Duration Fixtures.gapTimeline = Ok d ->
  (exists seq track c1 c2,
     Encoder.convertTimeline Fixtures.gapTimeline = Ok (mkXMEML "5" [seq])
     /\ Media_Video (Sequence_Media seq) = Some [track]
     /\ Media_Audio (Sequence_Media seq) = None
     /\ track = Fixtures.encodedGapTrack
     /\ Track_ClipItem track = [c1; c2]
     /\ Track_TransitionItem track = []
     /\ Track_GeneratorItem track = []
     /\ ClipItem_Start c1 = 0%Z /\ ClipItem_End c1 = 50%Z
     /\ ClipItem_Start c2 = 75%Z /\ ClipItem_End c2 = 125%Z)
  /\ (forall rate g rest fcpTrack pos dur,
        Gap_Duration g = Ok dur ->
        Encoder.convertChildren rate (CGap g :: rest) fcpTrack pos
        = Encoder.convertChildren rate rest fcpTrack
            (add64 pos (int64_of_float64 (rt_Value dur)))).
Proof.
  intros Hd. split; [|apply @convertChildren_gap].
  unfold Encoder.convertTimeline.
  replace (Encoder.workingRate Fixtures.gapTimeline) with (24%float, false)
    by (vm_compute; reflexivity).
  unfold Encoder.convertTracks. rewrite Hd.
  replace (Encoder.sequenceRate 24 false) with Fixtures.rate24
    by (vm_compute; reflexivity).
  replace (Timeline_VideoTracks Fixtures.gapTimeline)
    with [Fixtures.gapTrack] by (vm_compute; reflexivity).
  replace (Timeline_AudioTracks Fixtures.gapTimeline)
    with (@nil Otio.Track) by (vm_compute; reflexivity).
  cbn [Encoder.convertTrackList]. rewrite gapTrack_encoded. monad_simpl.
  do 4 eexists. split; [reflexivity|].
  cbn [Sequence_Media Media_Video Media_Audio].
  repeat (split; [reflexivity|]). reflexivity.
Qed.

(** A closed instance of [gap_elided]: the sample collaborators report a
    timeline of 125 frames. *)
Lemma gap_elided_witness :
  @Timeline_Duration Fixtures.samplePlatform Fixtures.gapTimeline
  = Ok (NewRationalTime 125%float 24%float)
  /\ exists seq track c1 c2,
       @Encoder.convertTimeline Fixtures.samplePlatform Fixtures.gapTimeline
       = Ok (mkXMEML "5" [seq])
       /\ Media_Video (Sequence_Media seq) = Some [track]
       /\ Media_Audio (Sequence_Media seq) = None
       /\ track = Fixtures.encodedGapTrack
       /\ Track_ClipItem track = [c1; c2]
       /\ Track_TransitionItem track = []
       /\ Track_GeneratorItem track = []
       /\ ClipItem_Start c1 = 0%Z /\ ClipItem_End c1 = 50%Z
       /\ ClipItem_Start c2 = 75%Z /\ ClipItem_End c2 = 125%Z.
Proof.
  split; [reflexivity|].
  apply (@gap_elided Fixtures.samplePlatform
                     (NewRationalTime 125%float 24%float)).
  reflexivity.
Defined.

(* ===================================================================== *)
(** ** The working rate *)
(* ===================================================================== *)

Section WorkingRateFacts.

Import Encoder Spec.

Context `{Platform}.

Lemma findFrameRate_cons child rest :
  findFrameRate (child :: rest)
  = match decidesRate child with
    | Some r => Some r
    | None => findFrameRate rest
    end.
Proof.
  cbn [findFrameRate]. unfold decidesRate.
  destruct child as [c|t|g|track|n cc]; try reflexivity.
  destruct (Track_Children track) as [|[clip|t|g|t|n cc] cs]; try reflexivity.
  destruct (Clip_Duration clip) as [dur|e]; [|reflexivity].
  by destruct (PrimFloat.ltb 0 (rt_Rate dur)).
Qed.

(** The scan stops at the first child of the stack that decides a rate. *)
Lemma findFrameRate_scan children :
  match findFrameRate children with
  | Some r =>
      exists pre child post,
        children = pre ++ child :: post
        /\ Forall (fun c => decidesRate c = None) pre
        /\ decidesRate child = Some r
  | None => Forall (fun c => decidesRate c = None) children
  end.
Proof.
  induction children as [|child rest IH]; [constructor|].
  rewrite findFrameRate_cons.
  destruct (decidesRate child) as [r|] eqn:Hd.
  - exists [], child, rest. by repeat split.
  - destruct (findFrameRate rest) as [r|].
    + destruct IH as (pre & c & post & -> & Hpre & Hc).
      exists (child :: pre), c, post. repeat split; [|done].
      by constructor.
    + by constructor.
Qed.

Lemma clipItems_atRate rate clips cs :
  Forall2 (fun clip ci => exists p, convertClip clip rate p = Ok ci) clips cs ->
  Forall (clipItemAtRate rate) cs.
Proof.
  induction 1 as [|clip ci clips cs [p Hc] _ IH]; constructor; [|done].
  apply convertClip_fields in Hc as (_ & Hrate & _ & _ & Hfile).
  split; [done|].
  destruct (Clip_MediaReference clip) as [ref|].
  - destruct Hfile as [file [Hf ->]].
    destruct (convertMediaReference_total ref rate) as [file' [Hf' Hr]].
    rewrite Hf in Hf'. injection Hf' as <-. by destruct Hr as (_ & _ & ?).
  - by rewrite Hfile.
Qed.

Lemma transitionItems_atRate rate transitions ts :
  Forall2 (fun trans x =>
             exists p, convertTransitionToItem trans rate p = Ok x)
          transitions ts ->
  Forall (fun x => TransitionItem_Rate x = rate) ts.
Proof.
  induction 1 as [|trans x transitions ts [p Hx] _ IH]; constructor; [|done].
  by apply convertTransitionToItem_fields in Hx as (_ & ? & _).
Qed.

Lemma generatorItems_atRate rate clips gs :
  Forall2 (fun clip g =>
             exists p, convertToGenerator clip rate p = (true, Some g))
          clips gs ->
  Forall (fun g => GeneratorItem_Rate g = rate) gs.
Proof.
  induction 1 as [|clip g clips gs [p Hg] _ IH]; constructor; [|done].
  pose proof (convertToGenerator_routes clip rate p) as Hroute.
  destruct (isGeneratorClip clip).
  - destruct Hroute as [g' [Hg' (_ & Hrate & _)]].
    rewrite Hg in Hg'. by injection Hg' as <-.
  - rewrite Hg in Hroute. discriminate Hroute.
Qed.

Lemma convertTrack_atRate track rate fcpTrack :
  Encoder.convertTrack track rate = Ok fcpTrack -> trackAtRate rate fcpTrack.
Proof.
  intros Hc. apply convertTrack_emits in Hc as (_ & Hcs & Hts & Hgs).
  split; [by eapply clipItems_atRate|].
  split; [by eapply transitionItems_atRate|by eapply generatorItems_atRate].
Qed.

Lemma convertTrackList_atRate label rate tracks : forall fcpTracks,
  convertTrackList label rate tracks = Ok fcpTracks ->
  Forall (trackAtRate rate) fcpTracks.
Proof.
  induction tracks as [|track rest IH]; intros fcpTracks Hc.
  - injection Hc as <-. constructor.
  - cbn [convertTrackList] in Hc.
    apply bind_Ok in Hc as [fcpTrack [Ht Hc]]. apply wrapf_Ok in Ht.
    apply bind_Ok in Hc as [others [Ho Hc]]. injection Hc as <-.
    constructor; [by apply (convertTrack_atRate track)|by apply IH].
Qed.

Lemma convertTracks_atRate timeline frameRate isNTSC seq :
  convertTracks timeline frameRate isNTSC = Ok seq ->
  sequenceAtRate (sequenceRate frameRate isNTSC) seq.
Proof.
  unfold convertTracks. intros Hc.
  apply bind_Ok in Hc as [duration [_ Hc]].
  apply bind_Ok in Hc as [videoTracks [Hv Hc]].
  apply bind_Ok in Hc as [audioTracks [Ha Hc]].
  injection Hc as <-. split; [reflexivity|].
  apply convertTrackList_atRate in Hv. apply convertTrackList_atRate in Ha.
  unfold tracksOfSequence. cbn [Sequence_Media Media_Video Media_Audio].
  apply Forall_app. split.
  - by destruct videoTracks.
  - by destruct audioTracks.
Qed.

End WorkingRateFacts.

(** C4, as amended.  [Encode] picks one working rate for the whole
    sequence: the rate of the duration of the first child of the first
    child of the track stack that is a track opening with a clip whose
    duration is available at a positive rate, and 24 frames per second,
    not NTSC, when no child of the stack qualifies.  The sequence, and
    every clip item, transition item, generator item and file reference
    emitted, carry the rate made of it. *)
Theorem single_working_rate `{Platform}
    (timeline : Timeline) (xmeml : XMEML) :
  Encoder.convertTimeline timeline = Ok xmeml ->
  (exists seq,
     xmeml = mkXMEML "5" [seq]
     /\ Spec.sequenceAtRate (Spec.encodedRate timeline) seq)
  /\ ((exists pre child post r,
         Timeline_Tracks timeline = pre ++ child :: post
         /\ Forall (fun c => Spec.decidesRate c = None) pre
         /\ Spec.decidesRate child = Some r
         /\ Encoder.workingRate timeline = (r, Encoder.isNTSCRate r))
      \/ (Forall (fun c => Spec.decidesRate c = None)
                 (Timeline_Tracks timeline)
          /\ Encoder.workingRate timeline = (24%float, false))).
Proof.
  intros Hc. split.
  - unfold Encoder.convertTimeline in Hc. unfold Spec.encodedRate.
    destruct (Encoder.workingRate timeline) as [frameRate isNTSC].
    apply bind_Ok in Hc as [seq [Hseq Hc]]. injection Hc as <-.
    exists seq. split; [done|]. by apply (convertTracks_atRate timeline).
  - unfold Encoder.workingRate.
    pose proof (findFrameRate_scan (Timeline_Tracks timeline)) as Hscan.
    destruct (Encoder.findFrameRate (Timeline_Tracks timeline)) as [r|].
    + left. destruct Hscan as (pre & child & post & Heq & Hpre & Hd).
      by exists pre, child, post, r.
    + by right.
Qed.

(** A closed instance of [single_working_rate]: the timeline of the gap
    test under the sample collaborators. *)
Lemma single_working_rate_witness :
  exists xmeml,
    @Encoder.convertTimeline Fixtures.samplePlatform Fixtures.gapTimeline
    = Ok xmeml
    /\ exists seq,
         xmeml = mkXMEML "5" [seq]
         /\ Spec.sequenceAtRate (Spec.encodedRate Fixtures.gapTimeline) seq.
Proof.
  eexists. split; [vm_compute; reflexivity|].
  apply (@single_working_rate Fixtures.samplePlatform Fixtures.gapTimeline).
  vm_compute. reflexivity.
Defined.

(** C4, refuted as stated.  With a first track that opens with a gap and
    holds a clip at 30 frames per second, and a second track that opens
    with a clip at 25, the working rate is 25: it is not the rate of the
    first clip of the first track. *)
Lemma working_rate_not_first_clip :
  ~ Spec.WorkingRateIsFirstClipRate Fixtures.mixedRateTimeline.
Proof.
  unfold Spec.WorkingRateIsFirstClipRate. intros Heq.
  apply (f_equal int64_of_float64) in Heq.
  vm_compute in Heq. discriminate Heq.
Qed.

(* ===================================================================== *)
(** ** Media references, generator routing and enabled flags *)
(* ===================================================================== *)

Section EncoderClipFacts.

Import Encoder Spec.

Context `{Platform}.

(** A reference of a kind the switch does not name gives the empty path
    and no duration. *)
Lemma convertMediaReference_other ref rate :
  recognizedKind ref = false ->
  convertMediaReference ref rate
  = Ok (mkFile ("file-" ++ sanitizeID (MediaReference_Name ref))
               (MediaReference_Name ref) "" rate 0).
Proof. by destruct ref. Qed.

(** The only error of [convertClip] is the one about the available
    range. *)
Lemma convertClip_Err clip rate pos e :
  convertClip clip rate pos = Err e ->
  exists cause, e = wrapError "failed to get available range" cause.
Proof.
  unfold convertClip.
  destruct (Clip_SourceRange clip) as [sr|].
  - monad_simpl. destruct (Clip_MediaReference clip) as [ref|]; [|done].
    by destruct (convertMediaReference_total ref rate) as [file [-> _]].
  - destruct (Clip_AvailableRange clip) as [ar|cause].
    + monad_simpl. destruct (Clip_MediaReference clip) as [ref|]; [|done].
      by destruct (convertMediaReference_total ref rate) as [file [-> _]].
    + monad_simpl. intros [= <-]. by exists cause.
Qed.

Lemma convertClip_never_reference_failure clip rate pos :
  ~ MediaReferenceConversionFailed (convertClip clip rate pos).
Proof.
  intros [cause Hc]. apply convertClip_Err in Hc as [cause' Hc].
  discriminate Hc.
Qed.

Lemma flagged_isGeneratorClip clip :
  isOk (Clip_Duration clip) = true ->
  isGeneratorClip clip = flaggedGenerator clip.
Proof.
  unfold isGeneratorClip, flaggedGenerator. intros ->.
  by destruct (asBool (Clip_Metadata clip !! "fcp7xml_generator"))
    as [[|]|].
Qed.

Lemma clipItems_enabled rate clips cs :
  Forall2 (fun clip ci => exists p, convertClip clip rate p = Ok ci) clips cs ->
  map ClipItem_Enabled cs = map (fun c => Some (Clip_Enabled c)) clips.
Proof.
  induction 1 as [|clip ci clips cs [p Hc] _ IH]; [done|].
  apply convertClip_fields in Hc as (_ & _ & _ & Hen & _).
  cbn [map]. by rewrite Hen, IH.
Qed.

Lemma generatorItems_enabled rate clips gs :
  Forall2 (fun clip g =>
             exists p, convertToGenerator clip rate p = (true, Some g))
          clips gs ->
  map GeneratorItem_Enabled gs = map (fun c => Some (Clip_Enabled c)) clips.
Proof.
  induction 1 as [|clip g clips gs [p Hg] _ IH]; [done|].
  pose proof (convertToGenerator_routes clip rate p) as Hroute.
  destruct (isGeneratorClip clip).
  - destruct Hroute as [g' [Hg' (_ & _ & _ & Hen)]].
    rewrite Hg in Hg'. injection Hg' as <-. cbn [map]. by rewrite Hen, IH.
  - rewrite Hg in Hroute. discriminate Hroute.
Qed.

End EncoderClipFacts.

(** C7, as amended.  During encode the conversion of a media reference
    never fails: a reference that is neither an external-file reference
    nor a missing reference gives a file reference with the sanitized
    identifier, the name and the working rate, an empty path URL and no
    duration; so no clip conversion ends in the error
    [MediaReferenceConversionFailed]. *)
Theorem media_reference_conversion_total `{Platform} :
  (forall ref rate,
     exists file,
       Encoder.convertMediaReference ref rate = Ok file
       /\ File_ID file
          = ("file-" ++ Encoder.sanitizeID (MediaReference_Name ref))%string
       /\ File_Name file = MediaReference_Name ref
       /\ File_Rate file = rate
       /\ (if Spec.recognizedKind ref then True
           else File_PathURL file = "" /\ File_Duration file = 0%Z))
  /\ (forall clip rate pos,
        ~ Spec.MediaReferenceConversionFailed
            (Encoder.convertClip clip rate pos)).
Proof.
  split; [|apply @convertClip_never_reference_failure].
  intros ref rate.
  destruct (Spec.recognizedKind ref) eqn:Hkind.
  - destruct (convertMediaReference_total ref rate) as (file & ? & ? & ? & ?).
    by exists file.
  - rewrite (convertMediaReference_other ref rate Hkind).
    eexists. by repeat split.
Qed.

(** C7, refuted as stated.  The clip that holds a generator reference is
    converted to a clip item; its conversion does not fail. *)
Lemma generator_reference_converts :
  ~ Spec.MediaReferenceConversionFailed
      (@Encoder.convertClip Fixtures.samplePlatform Fixtures.barsClip
                            Fixtures.rate24 0).
Proof. intros [cause Hc]. vm_compute in Hc. discriminate Hc. Qed.

(** C9, as amended.  For a clip whose duration is available, the encoder
    emits a generator item exactly when the clip's metadata maps
    "fcp7xml_generator" to the boolean true; the kind of the media
    reference is not consulted.  Such a clip that holds a generator
    reference and lacks the flag is emitted, alone in its track, as one
    ordinary clip item whose file reference has the empty path URL. *)
Theorem generator_routed_by_flag `{Platform}
    (clip : Clip) (rate : Rate) (pos : Z) :
  isOk (Clip_Duration clip) = true ->
  fst (Encoder.convertToGenerator clip rate pos) = Spec.flaggedGenerator clip
  /\ (forall name kind enabled,
        Spec.holdsGeneratorReference clip = true ->
        Spec.flaggedGenerator clip = false ->
        exists ci file,
          Encoder.convertClip clip rate 0 = Ok ci
          /\ ClipItem_File ci = Some file
          /\ File_PathURL file = ""
          /\ Encoder.convertTrack
               (Otio.mkTrack name kind [CClip clip] enabled) rate
             = Ok (Schema.mkTrack (Some enabled) [ci] [] [])).
Proof.
  intros Hdur.
  pose proof (convertToGenerator_routes clip rate pos) as Hroute.
  rewrite (flagged_isGeneratorClip clip Hdur) in Hroute.
  split.
  - destruct (Spec.flaggedGenerator clip).
    + by destruct Hroute as [g [-> _]].
    + by rewrite Hroute.
  - intros name kind enabled Href Hflag.
    destruct (convertClip_Ok clip rate 0 Hdur) as [ci Hci].
    pose proof (convertClip_fields clip rate 0 ci Hci) as (_ & _ & _ & _ & Hf).
    unfold Spec.holdsGeneratorReference in Href.
    destruct (Clip_MediaReference clip) as [[| |n k ps ar md|]|];
      try discriminate Href.
    destruct Hf as [file [Hfile Hcf]].
    injection Hfile as <-.
    eexists. eexists. split; [exact Hci|]. split; [exact Hcf|].
    split; [reflexivity|].
    unfold Encoder.convertTrack.
    cbn [Track_Children Otio.Track_Enabled Encoder.convertChildren].
    pose proof (convertToGenerator_routes clip rate 0) as Hroute0.
    rewrite (flagged_isGeneratorClip clip Hdur), Hflag in Hroute0.
    rewrite Hroute0, Hci.
    destruct (Clip_Duration clip) as [dur|e]; [|discriminate Hdur].
    reflexivity.
Qed.

(** A closed instance of [generator_routed_by_flag]: the clip with a
    generator reference, no flag and a source range of 10 frames. *)
Lemma generator_routed_by_flag_witness :
  isOk (Clip_Duration Fixtures.barsClip) = true
  /\ Spec.holdsGeneratorReference Fixtures.barsClip = true
  /\ Spec.flaggedGenerator Fixtures.barsClip = false
  /\ fst (Encoder.convertToGenerator Fixtures.barsClip Fixtures.rate24 0)
     = Spec.flaggedGenerator Fixtures.barsClip
  /\ (forall name kind enabled,
        Spec.holdsGeneratorReference Fixtures.barsClip = true ->
        Spec.flaggedGenerator Fixtures.barsClip = false ->
        exists ci file,
          @Encoder.convertClip Fixtures.samplePlatform Fixtures.barsClip
                               Fixtures.rate24 0
          = Ok ci
          /\ ClipItem_File ci = Some file
          /\ File_PathURL file = ""
          /\ @Encoder.convertTrack Fixtures.samplePlatform
               (Otio.mkTrack name kind [CClip Fixtures.barsClip] enabled)
               Fixtures.rate24
             = Ok (Schema.mkTrack (Some enabled) [ci] [] [])).
Proof.
  split; [reflexivity|].
  split; [vm_compute; reflexivity|]. split; [vm_compute; reflexivity|].
  apply (@generator_routed_by_flag Fixtures.samplePlatform
                                   Fixtures.barsClip Fixtures.rate24 0).
  reflexivity.
Defined.

(** C9, refuted as stated.  The clip that holds a generator reference
    and lacks both the flag and a source range is not emitted as a clip
    item: its duration is unavailable, and [convertClip] fails. *)
Lemma flagless_generator_not_always_emitted :
  ~ @Spec.RoutedByFlagAlone Fixtures.samplePlatform Fixtures.bareBarsClip
      Fixtures.rate24 0.
Proof.
  intros [_ Hemit].
  destruct Hemit as (ci & file & Hc & _);
    [vm_compute; reflexivity|vm_compute; reflexivity|].
  vm_compute in Hc. discriminate Hc.
Qed.

(** C10.  Every track the encoder produces has its enabled flag set, to
    the enabled state of the model track; every clip item and every
    generator item has its flag set, to the enabled state of the clip it
    comes from.  A clip decoded from a clip item that omits the flag is
    enabled, so that encoding it writes the flag as true. *)
Theorem enabled_always_emitted `{Platform}
    (track : Otio.Track) (rate : Rate) (fcpTrack : Schema.Track) :
  Encoder.convertTrack track rate = Ok fcpTrack ->
  Schema.Track_Enabled fcpTrack = Some (Otio.Track_Enabled track)
  /\ map ClipItem_Enabled (Track_ClipItem fcpTrack)
     = map (fun c => Some (Clip_Enabled c))
           (Spec.plainClips (Track_Children track))
  /\ map GeneratorItem_Enabled (Track_GeneratorItem fcpTrack)
     = map (fun c => Some (Clip_Enabled c))
           (Spec.generatorClips (Track_Children track))
  /\ (forall id name dur r st e i o f fl ef mk seqRate,
        exists clip,
          Decoder.convertClipItem
            (mkClipItem id name None dur r st e i o f None fl ef mk) seqRate
          = Ok (CClip clip)
          /\ Clip_Enabled clip = true).
Proof.
  intros Hc. apply convertTrack_emits in Hc as (Hen & Hcs & _ & Hgs).
  split; [done|].
  split; [by eapply clipItems_enabled|].
  split; [by eapply generatorItems_enabled|].
  intros. by eexists.
Qed.

(** A closed instance of [enabled_always_emitted]: the track of the gap
    test. *)
Lemma enabled_always_emitted_witness :
  @Encoder.convertTrack Fixtures.samplePlatform Fixtures.gapTrack
                        Fixtures.rate24
  = Ok Fixtures.encodedGapTrack
  /\ Schema.Track_Enabled Fixtures.encodedGapTrack
     = Some (Otio.Track_Enabled Fixtures.gapTrack)
  /\ map ClipItem_Enabled (Track_ClipItem Fixtures.encodedGapTrack)
     = map (fun c => Some (Clip_Enabled c))
           (Spec.plainClips (Track_Children Fixtures.gapTrack)).
Proof.
  split; [vm_compute; reflexivity|].
  destruct (@enabled_always_emitted Fixtures.samplePlatform Fixtures.gapTrack
              Fixtures.rate24 Fixtures.encodedGapTrack)
    as (Hen & Hcs & _); [vm_compute; reflexivity|].
  split; [exact Hen|exact Hcs].
Defined.

(* ===================================================================== *)
(** ** Lifting to metadata and lowering again *)
(* ===================================================================== *)

Section MetadataFacts.

Import Laws.

(** Looking a key up through the conditional insertions of the lifting
    functions. *)
Lemma lookup_if_insert_ne {V : Type} (c : bool) (k k' : string) (v : V)
    (m : gmap string V) :
  k <> k' -> (if c then <[k := v]> m else m) !! k' = m !! k'.
Proof. intros Hk. destruct c; [by rewrite lookup_insert_ne|done]. Qed.

Lemma lookup_if_insert_eq {V : Type} (c : bool) (k : string) (v : V)
    (m : gmap string V) :
  (if c then <[k := v]> m else m) !! k = if c then Some v else m !! k.
Proof. destruct c; [by rewrite lookup_insert_eq|done]. Qed.

Lemma lookup_opt_insert_ne {V B : Type} (o : option B) (f : B -> V)
    (k k' : string) (m : gmap string V) :
  k <> k' ->
  match o with Some b => <[k := f b]> m | None => m end !! k' = m !! k'.
Proof. intros Hk. destruct o; [by rewrite lookup_insert_ne|done]. Qed.

Lemma lookup_opt_insert_eq {V B : Type} (o : option B) (f : B -> V)
    (k : string) (m : gmap string V) :
  match o with Some b => <[k := f b]> m | None => m end !! k
  = match o with Some b => Some (f b) | None => m !! k end.
Proof. destruct o; [by rewrite lookup_insert_eq|done]. Qed.

Lemma lookup_list_insert_ne {V B : Type} (l : list B) (f : list B -> V)
    (k k' : string) (m : gmap string V) :
  k <> k' ->
  match l with [] => m | _ :: _ => <[k := f l]> m end !! k' = m !! k'.
Proof. intros Hk. destruct l; [done|by rewrite lookup_insert_ne]. Qed.

Lemma lookup_list_insert_eq {V B : Type} (l : list B) (f : list B -> V)
    (k : string) (m : gmap string V) :
  match l with [] => m | _ :: _ => <[k := f l]> m end !! k
  = match l with [] => m !! k | _ :: _ => Some (f l) end.
Proof. destruct l; [done|by rewrite lookup_insert_eq]. Qed.

End MetadataFacts.

(** Rewriting a lookup down a chain of insertions with literal keys. *)
Ltac lookup_chain :=
  repeat first
    [ rewrite lookup_if_insert_eq
    | rewrite lookup_opt_insert_eq
    | rewrite lookup_list_insert_eq
    | rewrite lookup_insert_eq
    | rewrite lookup_if_insert_ne by done
    | rewrite lookup_opt_insert_ne by done
    | rewrite lookup_list_insert_ne by done
    | rewrite lookup_insert_ne by done
    | rewrite lookup_empty ].

Section LiftLowerFacts.

Import Laws.

Lemma string_or_empty (s : string) :
  default "" (asString (if negb (String.eqb s "") then Some (AnyString s)
                        else None)) = s.
Proof. by destruct (String.eqb_spec s "") as [->|]. Qed.

Lemma parameter_lowered (p : Param) :
  Encoder.metadataToParameter (Decoder.parameterToMetadata p) = p.
Proof.
  destruct p as [pid name value vid vmin vmax vlist].
  unfold Encoder.metadataToParameter, Decoder.parameterToMetadata.
  cbv zeta.
  cbn [Param_ParameterID Param_Name Param_Value Param_ValueID Param_ValueMin
       Param_ValueMax Param_ValueList].
  f_equal; lookup_chain; try apply string_or_empty.
  - by destruct vmin.
  - by destruct vmax.
Qed.

Lemma parameters_lowered (ps : list Param) :
  map Encoder.metadataToParameter (map Decoder.parameterToMetadata ps) = ps.
Proof.
  induction ps as [|p ps IH]; [done|].
  cbn [map]. by rewrite parameter_lowered, IH.
Qed.

Lemma count_or_zero (n : Z) :
  default 0%Z (asInt64 (if (0 <? n)%Z then Some (AnyInt64 n) else None))
  = keptCount n.
Proof. unfold keptCount. by destruct (0 <? n)%Z. Qed.

Lemma effect_lowered (e : Effect) :
  Encoder.metadataToEffect (Decoder.effectToMetadata e) = keptEffect e.
Proof.
  destruct e as [name eid etype mtype cat dur sr er rev params].
  unfold Encoder.metadataToEffect, Decoder.effectToMetadata, keptEffect.
  cbv zeta.
  cbn [Effect_Name Effect_EffectID Effect_EffectType Effect_MediaType
       Effect_EffectCategory Effect_Duration Effect_StartRatio
       Effect_EndRatio Effect_Reverse Effect_Parameter].
  destruct params as [|p ps].
  - f_equal; lookup_chain; try reflexivity.
    + apply string_or_empty.
    + apply count_or_zero.
    + by destruct sr.
    + by destruct er.
    + by destruct rev.
  - f_equal; lookup_chain; try reflexivity.
    + apply string_or_empty.
    + apply count_or_zero.
    + by destruct sr.
    + by destruct er.
    + by destruct rev.
    + cbn [asDictSlice]. apply parameters_lowered.
Qed.

Lemma effects_lowered (es : list Effect) :
  Encoder.metadataToEffects (Decoder.effectsToMetadata es)
  = map keptEffect es.
Proof.
  unfold Encoder.metadataToEffects, Decoder.effectsToMetadata.
  induction es as [|e es IH]; [done|].
  cbn [map]. by rewrite effect_lowered, IH.
Qed.

Lemma filters_lowered (fs : list Filter) :
  Encoder.metadataToFilters (Decoder.filtersToMetadata fs)
  = map keptFilter fs.
Proof.
  unfold Encoder.metadataToFilters, Decoder.filtersToMetadata.
  induction fs as [|f fs IH]; [done|].
  cbn [map]. rewrite IH. f_equal.
  destruct f as [en st fin eff]. unfold keptFilter. cbv zeta.
  cbn [Filter_Enabled Filter_Start Filter_End Filter_Effect].
  f_equal; lookup_chain.
  - by destruct en.
  - apply count_or_zero.
  - apply count_or_zero.
  - destruct eff as [e|]; [|done].
    cbn [asDict option_map]. by rewrite effect_lowered.
Qed.

Lemma keptCount_id (n : Z) : keptCount n = n <-> (0 <= n)%Z.
Proof.
  unfold keptCount. destruct (0 <? n)%Z eqn:Hn.
  - apply Z.ltb_lt in Hn. split; [lia|done].
  - apply Z.ltb_ge in Hn. lia.
Qed.

End LiftLowerFacts.

(** X1.  Lowering the metadata of a lifted effect parameter gives the
    parameter back, whatever its fields. *)
Theorem parameter_lift_lower (p : Param) :
  Encoder.metadataToParameter (Decoder.parameterToMetadata p) = p.
Proof. apply parameter_lowered. Qed.

(** X2.  Lowering the metadata of a lifted effect gives the effect back
    with every field but the duration intact, parameters included; the
    duration comes back when it is not negative, and as zero when it is.
    So an effect survives exactly when its duration is not negative. *)
Theorem effect_lift_lower (e : Effect) :
  Encoder.metadataToEffect (Decoder.effectToMetadata e) = Laws.keptEffect e
  /\ (Laws.keptEffect e = e <-> (0 <= Effect_Duration e)%Z).
Proof.
  split; [apply effect_lowered|].
  rewrite <- keptCount_id. destruct e. unfold Laws.keptEffect.
  cbn [Effect_Name Effect_EffectID Effect_EffectType Effect_MediaType
       Effect_EffectCategory Effect_Duration Effect_StartRatio
       Effect_EndRatio Effect_Reverse Effect_Parameter].
  split; [by intros [= ->]|by intros ->].
Qed.

(** X3.  Lowering the metadata of lifted filters gives back as many filters,
    each with its enabled flag and its effect (as an effect comes back), and
    with its start and end when they are not negative, zero otherwise. *)
Theorem filters_lift_lower (fs : list Filter) :
  Encoder.metadataToFilters (Decoder.filtersToMetadata fs)
  = map Laws.keptFilter fs.
Proof. apply filters_lowered. Qed.
(* ===================================================================== *)
(** ** Frame numbers through binary64 *)
(* ===================================================================== *)

Section NumericFacts.

Import Laws.

Local Open Scope Z_scope.

Lemma digits2_pos_iter_xO p k :
  digits2_pos (Pos.iter xO p k) = (digits2_pos p + k)%positive.
Proof.
  induction k as [|k IH] using Pos.peano_ind.
  - cbn. lia.
  - rewrite Pos.iter_succ. cbn [digits2_pos]. rewrite IH. lia.
Qed.

Lemma Zpos_iter_xO p k : Zpos (Pos.iter xO p k) = Zpos p * 2 ^ Zpos k.
Proof.
  induction k as [|k IH] using Pos.peano_ind.
  - cbn. lia.
  - rewrite Pos.iter_succ, Pos2Z.inj_succ, Z.pow_succ_r by lia.
    rewrite Pos2Z.inj_xO, IH. lia.
Qed.

Lemma digits2_pos_lower p : 2 ^ (Zpos (digits2_pos p) - 1) <= Zpos p.
Proof.
  induction p as [p IH|p IH|]; cbn [digits2_pos]; [| |cbn; lia].
  - rewrite Pos2Z.inj_succ.
    replace (Z.succ (Zpos (digits2_pos p)) - 1)
      with (Z.succ (Zpos (digits2_pos p) - 1)) by lia.
    rewrite Z.pow_succ_r by lia. lia.
  - rewrite Pos2Z.inj_succ.
    replace (Z.succ (Zpos (digits2_pos p)) - 1)
      with (Z.succ (Zpos (digits2_pos p) - 1)) by lia.
    rewrite Z.pow_succ_r by lia. lia.
Qed.

Lemma digits2_pos_53 p : Zpos p < 2 ^ 53 -> Zpos (digits2_pos p) <= 53.
Proof.
  intros Hp. pose proof (digits2_pos_lower p) as Hl.
  destruct (Z_le_gt_dec (Zpos (digits2_pos p)) 53) as [|Hgt]; [done|].
  exfalso.
  assert (2 ^ 53 <= 2 ^ (Zpos (digits2_pos p) - 1))
    by (apply Z.pow_le_mono_r; lia).
  lia.
Qed.

(** A mantissa of 53 digits is rounded to itself. *)
Lemma binary_round_aux_exact s m e :
  Zpos (digits2_pos m) = 53 -> -1074 <= e <= 971 ->
  binary_round_aux prec emax s (Zpos m) e loc_Exact = S754_finite s m e.
Proof.
  intros Hd He. unfold binary_round_aux, shr_fexp.
  cbn [Zdigits2 shr_record_of_loc]. rewrite Hd.
  assert (Hf : fexp prec emax (53 + e) - e = 0).
  { unfold fexp, emin, prec, emax. lia. }
  rewrite Hf.
  cbn [shr shr_m loc_of_shr_record round_nearest_even Zdigits2
       shr_record_of_loc].
  rewrite Hd, Hf. cbn [shr shr_m].
  replace (e <=? emax - prec) with true; [done|].
  symmetry. apply Z.leb_le. unfold emax, prec. lia.
Qed.

(** An integer below 2^53 is rounded to a float of the same value. *)
Lemma binary_round_exact s p :
  Zpos p < 2 ^ 53 ->
  exists m e,
    binary_round prec emax s p 0 = S754_finite s m e
    /\ -52 <= e <= 0
    /\ Zpos m = Zpos p * 2 ^ (- e)
    /\ Zpos (digits2_pos m) = 53.
Proof.
  intros Hp. apply digits2_pos_53 in Hp.
  unfold binary_round.
  assert (Hf : fexp prec emax (Zpos (digits2_pos p) + 0)
               = Zpos (digits2_pos p) - 53).
  { unfold fexp, emin, prec, emax. lia. }
  rewrite Hf. unfold shl_align.
  destruct (Zpos (digits2_pos p) - 53 - 0) as [|q|q] eqn:Hq; try lia.
  - assert (Hd : Zpos (digits2_pos p) = 53) by lia.
    exists p, 0. rewrite Hd. change (53 - 53) with 0.
    rewrite binary_round_aux_exact by lia.
    repeat split; try lia.
  - exists (Pos.iter xO p q), (Zpos (digits2_pos p) - 53).
    assert (Hd : Zpos (digits2_pos (Pos.iter xO p q)) = 53).
    { rewrite digits2_pos_iter_xO. lia. }
    rewrite binary_round_aux_exact by lia.
    repeat split; try lia.
    rewrite Zpos_iter_xO. f_equal. f_equal. lia.
Qed.

Lemma int64_of_rounded s p :
  Zpos p < 2 ^ 53 ->
  int64_of_float64 (SF2Prim (binary_round prec emax s p 0))
  = if s then Zneg p else Zpos p.
Proof.
  intros Hp.
  destruct (binary_round_exact s p Hp) as (m & e & -> & He & Hm & Hd).
  unfold int64_of_float64.
  rewrite Prim2SF_SF2Prim.
  2:{ cbn [SpecFloat.valid_binary]. unfold bounded, canonical_mantissa.
      rewrite Hd. apply andb_true_intro. split.
      - apply Z.eqb_eq. unfold fexp, emin, prec, emax. lia.
      - apply Z.leb_le. unfold emax, prec. lia. }
  assert (Ha : match e with
               | Zneg _ => Z.shiftr (Zpos m) (- e)
               | _ => Z.shiftl (Zpos m) e
               end = Zpos p).
  { destruct e as [|q|q]; try lia.
    - rewrite Z.shiftl_0_r. rewrite Hm. cbn. lia.
    - rewrite Z.shiftr_div_pow2 by lia. rewrite Hm.
      apply Z.div_mul. apply Z.pow_nonzero; lia. }
  cbv zeta. rewrite Ha.
  assert (Hr : 2 ^ 53 < 2 ^ 63) by (apply Z.pow_lt_mono_r; lia).
  unfold minInt64, maxInt64.
  destruct s.
  - replace ((- 2 ^ 63 <=? - Zpos p) && (- Zpos p <=? 2 ^ 63 - 1))
      with true; [done|].
    symmetry. apply andb_true_intro. split; apply Z.leb_le; lia.
  - replace ((- 2 ^ 63 <=? Zpos p) && (Zpos p <=? 2 ^ 63 - 1))
      with true; [done|].
    symmetry. apply andb_true_intro. split; apply Z.leb_le; lia.
Qed.

(** [int64(float64(n)) = n] for a frame number below 2^53 in size. *)
Lemma int64_of_float64_of_int n :
  exactFrames n -> int64_of_float64 (float64_of_int n) = n.
Proof.
  unfold exactFrames. intros Hn. unfold float64_of_int, binary_normalize.
  destruct n as [|p|p].
  - reflexivity.
  - apply (int64_of_rounded false). lia.
  - apply (int64_of_rounded true). lia.
Qed.

Lemma exactFrames_int64 n : exactFrames n -> wrap64 n = n.
Proof.
  unfold exactFrames, wrap64. intros Hn.
  assert (2 ^ 53 < 2 ^ 63) by (apply Z.pow_lt_mono_r; lia).
  assert (2 ^ 64 = 2 * 2 ^ 63) by (change 64 with (Z.succ 63);
    rewrite Z.pow_succ_r; lia).
  rewrite Z.mod_small by lia. lia.
Qed.

End NumericFacts.

(* ===================================================================== *)
(** ** Decoding an item and encoding it again *)
(* ===================================================================== *)

Section ItemRoundTrip.

Import Laws.

Context `{Platform}.

Lemma marker_reencoded (m : Schema.Marker) (frameRate : float) :
  Encoder.convertMarkerToFCP (Decoder.convertMarker m frameRate)
  = reencodedMarker m.
Proof.
  destruct m as [name comment mIn mOut color].
  unfold Encoder.convertMarkerToFCP, Decoder.convertMarker, reencodedMarker,
    throughFloat.
  cbv zeta.
  cbn [Schema.Marker_Name Schema.Marker_Comment Schema.Marker_In
       Schema.Marker_Out Schema.Marker_Color
       Otio.Marker_Name Otio.Marker_Comment Otio.Marker_MarkedRange
       Otio.Marker_Metadata tr_StartTime tr_Duration rt_Value].
  f_equal. lookup_chain.
  destruct color as [[r g b a]|]; [|done].
  cbn [asIntMap Color_Red Color_Green Color_Blue Color_Alpha].
  f_equal; by lookup_chain.
Qed.

Lemma markers_reencoded (ms : list Schema.Marker) (frameRate : float) :
  map Encoder.convertMarkerToFCP
      (map (fun m => Decoder.convertMarker m frameRate) ms)
  = map reencodedMarker ms.
Proof.
  induction ms as [|m ms IH]; [done|].
  cbn [map]. by rewrite marker_reencoded, IH.
Qed.

Lemma reencodedMarker_exact (m : Schema.Marker) :
  exactFrames (Schema.Marker_In m) ->
  exactFrames (Schema.Marker_Out m - Schema.Marker_In m) ->
  reencodedMarker m = m.
Proof.
  intros Hin Hlen. destruct m as [name comment mIn mOut color].
  unfold reencodedMarker, throughFloat, sub64, add64. cbv zeta.
  cbn [Schema.Marker_Name Schema.Marker_Comment Schema.Marker_In
       Schema.Marker_Out Schema.Marker_Color] in *.
  rewrite (exactFrames_int64 _ Hlen).
  rewrite !int64_of_float64_of_int by done.
  replace (mIn + (mOut - mIn))%Z with mOut by lia.
  f_equal. unfold exactFrames in *.
  assert (2 ^ 53 < 2 ^ 62)%Z by (apply Z.pow_lt_mono_r; lia).
  assert (2 ^ 63 = 2 * 2 ^ 62)%Z
    by (change 63%Z with (Z.succ 62); rewrite Z.pow_succ_r; lia).
  assert (2 ^ 64 = 2 * 2 ^ 63)%Z
    by (change 64%Z with (Z.succ 63); rewrite Z.pow_succ_r; lia).
  unfold wrap64. rewrite Z.mod_small by lia. lia.
Qed.

(** The enabled state of a decoded clip: disabled only when the item
    says so. *)
Lemma decoded_enabled (en : option bool) (clip : Clip) :
  match en with
  | Some false => Clip_SetEnabled clip false
  | _ => clip
  end
  = mkClip (Clip_Name clip) (Clip_MediaReference clip) (Clip_SourceRange clip)
           (Clip_Metadata clip) (Clip_Markers clip)
           (if default true en then Clip_Enabled clip else false).
Proof. destruct clip. by destruct en as [[|]|]. Qed.

Lemma file_reencoded (f : option File) (frameRate : float) (rate : Rate) :
  Encoder.convertMediaReference
    match f with
    | Some file =>
        if negb (String.eqb (File_PathURL file) "")
        then Decoder.createMediaReference file frameRate
        else MissingReference "" None ∅
    | None => MissingReference "" None ∅
    end rate
  = Ok (reencodedFile f rate).
Proof.
  destruct f as [[fid fname path frate fdur]|]; [|reflexivity].
  unfold reencodedFile. cbn [File_PathURL File_Name File_Duration].
  destruct (String.eqb path "") eqn:Hpath; cbn [negb]; [reflexivity|].
  unfold Decoder.createMediaReference. cbv zeta.
  cbn [File_PathURL File_Name File_Duration File_ID].
  destruct (Decoder.isImageSequenceName fname); [reflexivity|].
  unfold Encoder.convertMediaReference.
  cbn [MediaReference_Name]. rewrite Hpath.
  by destruct (Encoder.isFileURL path).
Qed.

Lemma clip_item_reencoded (item : ClipItem) (seqRate rate : Rate) (pos : Z) :
  exists clip,
    Decoder.convertClipItem item seqRate = Ok (CClip clip)
    /\ Encoder.convertToGenerator clip rate pos = (false, None)
    /\ Encoder.convertClip clip rate pos
       = Ok (reencodedClipItem item rate pos).
Proof.
  destruct item as [id name en dur r st e i o f sq fl ef mk].
  unfold Decoder.convertClipItem, reencodedClipItem. cbv zeta.
  cbn [ClipItem_ID ClipItem_Name ClipItem_Enabled ClipItem_Duration
       ClipItem_Rate ClipItem_Start ClipItem_End ClipItem_In ClipItem_Out
       ClipItem_File ClipItem_Sequence ClipItem_Filter ClipItem_Effect
       ClipItem_Marker].
  destruct sq as [nested|].
  - eexists. split; [reflexivity|]. split.
    + unfold Encoder.convertToGenerator, NewClip. cbn [Clip_Metadata].
      by lookup_chain.
    + unfold Encoder.convertClip, NewClip.
      cbn [Clip_SourceRange Clip_Metadata Clip_MediaReference Clip_Enabled
           Clip_Name Clip_Markers].
      monad_simpl. lookup_chain. reflexivity.
  - rewrite decoded_enabled. unfold NewClip.
    cbn [Clip_Name Clip_MediaReference Clip_SourceRange Clip_Metadata
         Clip_Markers Clip_Enabled].
    eexists. split; [reflexivity|]. split.
    + unfold Encoder.convertToGenerator. cbn [Clip_Metadata].
      destruct fl, ef; by lookup_chain.
    + unfold Encoder.convertClip.
      cbn [Clip_SourceRange Clip_Metadata Clip_MediaReference Clip_Enabled
           Clip_Name Clip_Markers].
      monad_simpl. rewrite file_reencoded. monad_simpl.
      rewrite markers_reencoded.
      replace (if default true en then true else false)
        with (default true en) by (by destruct en as [[|]|]).
      destruct fl as [|f1 fl], ef as [|e1 ef]; lookup_chain;
        cbn [asDictSlice asString];
        rewrite ?effects_lowered, ?filters_lowered, ?string_or_empty;
        reflexivity.
Qed.

Lemma generator_item_reencoded (item : GeneratorItem) (seqRate rate : Rate)
    (pos : Z) :
  exists clip,
    Decoder.convertGenerator item seqRate = Ok clip
    /\ Encoder.convertToGenerator clip rate pos
       = (true, Some (reencodedGeneratorItem item rate pos)).
Proof.
  destruct item as [name dur r st e i o en eff fl mk].
  unfold Decoder.convertGenerator, reencodedGeneratorItem, throughFloat.
  cbv zeta.
  cbn [GeneratorItem_Name GeneratorItem_Duration GeneratorItem_Rate
       GeneratorItem_Start GeneratorItem_End GeneratorItem_In
       GeneratorItem_Out GeneratorItem_Enabled GeneratorItem_Effect
       GeneratorItem_Filter GeneratorItem_Marker].
  rewrite decoded_enabled. unfold NewClip.
  cbn [Clip_Name Clip_MediaReference Clip_SourceRange Clip_Metadata
       Clip_Markers Clip_Enabled].
  eexists. split; [reflexivity|].
  unfold Encoder.convertToGenerator, Clip_Duration.
  cbn [Clip_Name Clip_MediaReference Clip_SourceRange Clip_Metadata
       Clip_Markers Clip_Enabled tr_Duration tr_StartTime rt_Value].
  rewrite markers_reencoded.
  replace (if default true en then true else false)
    with (default true en) by (by destruct en as [[|]|]).
  destruct fl as [|f1 fl], eff as [e1|]; lookup_chain;
    cbn [asBool asDict asDictSlice option_map];
    rewrite ?effect_lowered, ?filters_lowered; reflexivity.
Qed.

Lemma transition_item_reencoded (item : TransitionItem) (seqRate rate : Rate)
    (pos : Z) :
  exists trans,
    Decoder.convertTransition item seqRate = Ok trans
    /\ Encoder.convertTransitionToItem trans rate pos
       = Ok (reencodedTransitionItem item rate pos).
Proof.
  destruct item as [name r st e al eff].
  unfold Decoder.convertTransition, reencodedTransitionItem. cbv zeta.
  cbn [TransitionItem_Name TransitionItem_Rate TransitionItem_Start
       TransitionItem_End TransitionItem_Alignment TransitionItem_Effect].
  eexists. split; [reflexivity|].
  unfold Encoder.convertTransitionToItem. cbv zeta.
  cbn [Transition_Name Transition_InOffset Transition_OutOffset
       Transition_Metadata].
  destruct eff as [e1|]; lookup_chain; cbn [asString asDict default option_map];
    rewrite ?effect_lowered; reflexivity.
Qed.

End ItemRoundTrip.

(** X4.  Decoding a marker and encoding it again keeps its name, its comment
    and its colour, and keeps its range when [in] and [out - in] are frame
    numbers below 2^53 in size. *)
Theorem marker_decode_encode (m : Schema.Marker) (frameRate : float) :
  Laws.exactFrames (Schema.Marker_In m) ->
  Laws.exactFrames (Schema.Marker_Out m - Schema.Marker_In m) ->
  Encoder.convertMarkerToFCP (Decoder.convertMarker m frameRate) = m.
Proof.
  intros Hin Hlen. rewrite marker_reencoded.
  by apply reencodedMarker_exact.
Qed.

(** A closed instance of [marker_decode_encode]: the sample marker, from
    frame 10 to frame 20. *)
Lemma marker_decode_encode_witness :
  Laws.exactFrames (Schema.Marker_In LawFixtures.sampleMarker)
  /\ Laws.exactFrames (Schema.Marker_Out LawFixtures.sampleMarker
                       - Schema.Marker_In LawFixtures.sampleMarker)
  /\ Encoder.convertMarkerToFCP
       (Decoder.convertMarker LawFixtures.sampleMarker 24%float)
     = LawFixtures.sampleMarker.
Proof.
  assert (Hin : Laws.exactFrames (Schema.Marker_In LawFixtures.sampleMarker))
    by (unfold Laws.exactFrames; cbn; lia).
  assert (Hlen : Laws.exactFrames (Schema.Marker_Out LawFixtures.sampleMarker
                                   - Schema.Marker_In LawFixtures.sampleMarker))
    by (unfold Laws.exactFrames; cbn; lia).
  split; [exact Hin|]. split; [exact Hlen|].
  exact (marker_decode_encode LawFixtures.sampleMarker 24%float Hin Hlen).
Defined.

(** X5.  Decoding a clip item and encoding the clip again, at any working rate
    and position, never gives a generator item and always gives a clip item,
    which is [reencodedClipItem]: identifier, name, filters and effects come
    back (counts that are not positive as zero), the enabled flag is written
    out, the duration becomes [out - in], the file's identifier is made anew
    from its name, and a clip item that embeds a nested sequence comes back as
    a bare item with a missing file and no nested sequence. *)
Theorem clip_item_decode_encode `{Platform}
    (item : ClipItem) (seqRate rate : Rate) (pos : Z) :
  exists clip,
    Decoder.convertClipItem item seqRate = Ok (CClip clip)
    /\ Encoder.convertToGenerator clip rate pos = (false, None)
    /\ Encoder.convertClip clip rate pos
       = Ok (Laws.reencodedClipItem item rate pos).
Proof. apply clip_item_reencoded. Qed.

(** X6.  Decoding a generator item and encoding the clip again always gives a
    generator item, which is [reencodedGeneratorItem]: name, effect, filters
    and markers come back, the enabled flag is written out, and [out] becomes
    [in + duration]. *)
Theorem generator_item_decode_encode
    (item : GeneratorItem) (seqRate rate : Rate) (pos : Z) :
  exists clip,
    Decoder.convertGenerator item seqRate = Ok clip
    /\ Encoder.convertToGenerator clip rate pos
       = (true, Some (Laws.reencodedGeneratorItem item rate pos)).
Proof. apply generator_item_reencoded. Qed.

(** X7.  Decoding a transition item and encoding the transition again keeps
    its name, its alignment and its effect, at the working rate and the
    position given. *)
Theorem transition_item_decode_encode
    (item : TransitionItem) (seqRate rate : Rate) (pos : Z) :
  exists trans,
    Decoder.convertTransition item seqRate = Ok trans
    /\ Encoder.convertTransitionToItem trans rate pos
       = Ok (Laws.reencodedTransitionItem item rate pos).
Proof. apply transition_item_reencoded. Qed.

(* ===================================================================== *)
(** ** Identifiers *)
(* ===================================================================== *)

Section SanitizeLaws.

Import Encoder Spec Laws.

Lemma sanitizeChars_allIDChars s : allIDChars (sanitizeChars s) = true.
Proof.
  unfold allIDChars.
  induction s as [|c s IH]; [done|]. cbn [sanitizeChars].
  destruct (Ascii.eqb c " "); [exact IH|].
  destruct (occurs c idAlphabet) eqn:Hc; [|exact IH].
  cbn [list_ascii_of_string forallb]. by rewrite isIDChar_alphabet, Hc.
Qed.

Lemma sanitizeChars_clean s : allIDChars s = true -> sanitizeChars s = s.
Proof.
  unfold allIDChars.
  induction s as [|c s IH]; [done|].
  cbn [list_ascii_of_string forallb sanitizeChars].
  intros [Hc Hs]%andb_prop. rewrite (IH Hs), <- isIDChar_alphabet, Hc.
  destruct (Ascii.eqb_spec c " ") as [->|_]; [|done].
  vm_compute in Hc. discriminate Hc.
Qed.

Lemma sanitizeID_nonempty s : sanitizeID s <> "".
Proof.
  rewrite sanitizeID_worded. unfold sanitizeWorded.
  by destruct (sanitizeChars s).
Qed.

Lemma sanitizeID_allIDChars s : allIDChars (sanitizeID s) = true.
Proof.
  rewrite sanitizeID_worded. unfold sanitizeWorded.
  pose proof (sanitizeChars_allIDChars s) as Hs.
  by destruct (sanitizeChars s).
Qed.

Lemma sanitizeID_clean s :
  s <> "" -> allIDChars s = true -> sanitizeID s = s.
Proof.
  intros Hne Hs. rewrite sanitizeID_worded. unfold sanitizeWorded.
  rewrite (sanitizeChars_clean s Hs). by destruct s.
Qed.

End SanitizeLaws.

(** X8.  [sanitizeID] always gives a usable identifier: it is not empty, it
    holds only ASCII letters, digits, hyphens and underscores, and sanitizing
    it again changes nothing. *)
Theorem sanitizeID_identifier (s : string) :
  Encoder.sanitizeID s <> ""
  /\ Laws.allIDChars (Encoder.sanitizeID s) = true
  /\ Encoder.sanitizeID (Encoder.sanitizeID s) = Encoder.sanitizeID s.
Proof.
  split; [apply sanitizeID_nonempty|].
  split; [apply sanitizeID_allIDChars|].
  apply sanitizeID_clean;
    [apply sanitizeID_nonempty|apply sanitizeID_allIDChars].
Qed.

(* ===================================================================== *)
(** ** Image-sequence file names *)
(* ===================================================================== *)

Section ImageSequenceFacts.

Import Decoder Spec.

Lemma string_length_app (a b : string) :
  String.length (a ++ b) = String.length a + String.length b.
Proof.
  induction a as [|c a IH]; [done|].
  rewrite string_app_cons. cbn [String.length]. by rewrite IH.
Qed.

Lemma substring_skip (pre s : string) (n : nat) :
  substring (String.length pre) n (pre ++ s) = substring 0 n s.
Proof. induction pre as [|c pre IH]; [done|]. exact IH. Qed.

Lemma get_skip (pre s : string) (k : nat) :
  String.get (String.length pre + k) (pre ++ s) = String.get k s.
Proof. induction pre as [|c pre IH]; [done|]. exact IH. Qed.

Lemma get_within (pre s : string) (i : nat) :
  i < String.length pre -> String.get i (pre ++ s) = String.get i pre.
Proof.
  revert i. induction pre as [|c pre IH]; intros i Hi; [cbn in Hi; lia|].
  destruct i as [|i]; [done|]. cbn [String.length] in Hi.
  rewrite string_app_cons. cbn [String.get]. apply IH. lia.
Qed.

Lemma get_occurs (s : string) (i : nat) (c : ascii) :
  String.get i s = Some c -> occurs c s = true.
Proof.
  revert i. induction s as [|d s IH]; intros i Hg; [done|].
  cbn [occurs]. destruct i as [|i].
  - injection Hg as ->. by rewrite Ascii.eqb_refl.
  - cbn [String.get] in Hg. rewrite (IH i Hg). apply orb_true_r.
Qed.

Lemma byteAt_get (name : string) (i n : nat) :
  n <> 0 -> byteAt name i = n ->
  String.get i name = Some (ascii_of_nat n).
Proof.
  unfold byteAt. intros Hn. destruct (String.get i name) as [c|]; [|done].
  intros <-. by rewrite ascii_nat_embedding.
Qed.

(** A run of four hash signs at the offset [length pre]. *)
Lemma hasHashPattern_at (pre post : string) :
  hasHashPattern (pre ++ "####" ++ post) = true.
Proof.
  unfold hasHashPattern. apply existsb_exists.
  exists (String.length pre). split.
  - apply in_seq. rewrite !string_length_app. cbn [String.length]. lia.
  - rewrite substring_skip. by destruct post.
Qed.

Lemma hasHashPattern_none (name : string) :
  occurs "#" name = false -> hasHashPattern name = false.
Proof.
  intros Hno. unfold hasHashPattern.
  destruct (existsb _ _) eqn:He; [|done].
  apply existsb_exists in He as [i [_ Hi]].
  apply String.eqb_eq in Hi.
  pose proof (substring_correct1 name i 4 0 ltac:(lia)) as Hg.
  rewrite Hi in Hg. cbn [String.get] in Hg.
  symmetry in Hg. apply get_occurs in Hg. cbn [Nat.add] in Hg. congruence.
Qed.

Lemma byteAt_skip (pre s : string) (k : nat) :
  byteAt (pre ++ s) (String.length pre + k) = byteAt s k.
Proof. unfold byteAt. by rewrite get_skip. Qed.

(** A percent sign, a digit and a [d] three or four bytes after the
    percent sign, at the offset [length pre] inside the range of the
    second loop. *)
Lemma hasPrintfPattern_at (pre s : string) :
  4 < String.length s ->
  byteAt s 0 = 37 ->
  48 <= byteAt s 1 <= 57 ->
  byteAt s 3 = 100 \/ byteAt s 4 = 100 ->
  hasPrintfPattern (pre ++ s) = true.
Proof.
  intros Hlen Hp [Hlo Hhi] Hd. unfold hasPrintfPattern.
  apply existsb_exists. exists (String.length pre). split.
  - apply in_seq. rewrite string_length_app. lia.
  - rewrite <- (Nat.add_0_r (String.length pre)) at 1.
    rewrite !byteAt_skip, Hp.
    apply Nat.leb_le in Hlo, Hhi. rewrite Hlo, Hhi. cbn [Nat.eqb andb].
    destruct Hd as [->| ->]; [done|]. by rewrite orb_true_r.
Qed.

Lemma hasPrintfPattern_none (pre rest : string) :
  occurs "%" pre = false -> String.length rest <= 4 ->
  hasPrintfPattern (pre ++ rest) = false.
Proof.
  intros Hno Hlen. unfold hasPrintfPattern.
  destruct (existsb _ _) eqn:He; [|done].
  apply existsb_exists in He as [i [Hi Hp]].
  apply in_seq in Hi. rewrite string_length_app in Hi.
  apply andb_prop in Hp as [Hp _]. apply andb_prop in Hp as [Hp _].
  apply andb_prop in Hp as [Hp _]. apply Nat.eqb_eq in Hp.
  apply byteAt_get in Hp; [|done].
  rewrite get_within in Hp by lia.
  apply get_occurs in Hp. change (ascii_of_nat 37) with "%"%char in Hp.
  congruence.
Qed.

End ImageSequenceFacts.

(** What [createMediaReference] returns is decided by the file name
    alone. *)
Lemma createMediaReference_cases (file : File) (frameRate : float) :
  Decoder.createMediaReference file frameRate
  = if Decoder.isImageSequenceName (File_Name file)
    then Laws.imageSequenceOf file frameRate
    else Laws.externalOf file frameRate.
Proof. reflexivity. Qed.

(** X9.  A file whose name holds four hash signs in a row anywhere, or a
    percent sign, a digit, and a [d] three or four bytes after the percent
    sign with at least five bytes from the percent sign on, is decoded to an
    image-sequence reference. *)
Theorem image_sequence_detected
    (id path : string) (r : Rate) (dur : Z) (frameRate : float)
    (pre post : string) (d c c' e : ascii) :
  48 <= nat_of_ascii d <= 57 ->
  Forall (fun name =>
            Decoder.createMediaReference (mkFile id name path r dur) frameRate
            = Laws.imageSequenceOf (mkFile id name path r dur) frameRate)
    [ (pre ++ "####" ++ post)%string;
      (pre ++ String "%" (String d (String c (String "d" (String e post)))))
        %string;
      (pre ++ String "%" (String d (String c (String c' (String "d" post)))))
        %string ].
Proof.
  intros Hd.
  assert (Hname : Forall (fun name => Decoder.isImageSequenceName name = true)
    [ (pre ++ "####" ++ post)%string;
      (pre ++ String "%" (String d (String c (String "d" (String e post)))))
        %string;
      (pre ++ String "%" (String d (String c (String c' (String "d" post)))))
        %string ]).
  { repeat (apply Forall_cons; split); [| | |by apply Forall_nil];
      cbv beta; unfold Decoder.isImageSequenceName;
      rewrite !string_length_app;
      cbn [String.length Nat.add].
    - rewrite hasHashPattern_at.
      by replace (0 <? _) with true by (symmetry; apply Nat.ltb_lt; lia).
    - rewrite hasPrintfPattern_at;
        [|cbn [String.length]; lia|done|done|by left].
      replace (0 <? _) with true by (symmetry; apply Nat.ltb_lt; lia).
      replace (4 <? _) with true by (symmetry; apply Nat.ltb_lt; lia).
      by destruct (Decoder.hasHashPattern _).
    - rewrite hasPrintfPattern_at;
        [|cbn [String.length]; lia|done|done|by right].
      replace (0 <? _) with true by (symmetry; apply Nat.ltb_lt; lia).
      replace (4 <? _) with true by (symmetry; apply Nat.ltb_lt; lia).
      by destruct (Decoder.hasHashPattern _). }
  eapply Forall_impl; [exact Hname|].
  intros name Hn. rewrite createMediaReference_cases.
  cbn [File_Name]. by rewrite Hn.
Qed.

(** A closed instance of [image_sequence_detected]: the names [shot.####exr],
    [shot.%04d.exr] and [shot.%040dexr]. *)
Lemma image_sequence_detected_witness :
  48 <= nat_of_ascii "0" <= 57
  /\ Forall (fun name =>
               Decoder.createMediaReference
                 (mkFile "file-1" name "file:///shots/" Fixtures.rate24 48)
                 24%float
               = Laws.imageSequenceOf
                   (mkFile "file-1" name "file:///shots/" Fixtures.rate24 48)
                   24%float)
       [ "shot.####exr"; "shot.%04d.exr"; "shot.%040dexr" ]%string.
Proof.
  assert (Hd : 48 <= nat_of_ascii "0" <= 57) by (vm_compute; lia).
  split; [exact Hd|].
  exact (image_sequence_detected "file-1" "file:///shots/" Fixtures.rate24 48
           24%float "shot." "exr" "0" "4" "0" "." Hd).
Defined.

(** X10.  A file whose name has no hash sign, and no percent sign before its
    last four bytes, is decoded to an external reference: a printf pattern
    that ends the name, as in [shot.%04d], is missed. *)
Theorem image_sequence_missed
    (id path : string) (r : Rate) (dur : Z) (frameRate : float)
    (pre rest : string) :
  Spec.occurs "#" (pre ++ rest) = false ->
  Spec.occurs "%" pre = false ->
  String.length rest <= 4 ->
  Decoder.createMediaReference (mkFile id (pre ++ rest) path r dur) frameRate
  = Laws.externalOf (mkFile id (pre ++ rest) path r dur) frameRate.
Proof.
  intros Hhash Hpct Hlen. rewrite createMediaReference_cases.
  unfold Decoder.isImageSequenceName. cbn [File_Name].
  rewrite (hasHashPattern_none _ Hhash), (hasPrintfPattern_none _ _ Hpct Hlen).
  destruct (0 <? _); [|done]. by destruct (4 <? _).
Qed.

(** A closed instance of [image_sequence_missed]: the name [shot.%04d]. *)
Lemma image_sequence_missed_witness :
  Spec.occurs "#" ("shot." ++ "%04d") = false
  /\ Spec.occurs "%" "shot." = false
  /\ String.length "%04d" <= 4
  /\ Decoder.createMediaReference
       (mkFile "file-1" ("shot." ++ "%04d") "file:///shots/" Fixtures.rate24 48)
       24%float
     = Laws.externalOf
         (mkFile "file-1" ("shot." ++ "%04d") "file:///shots/"
                 Fixtures.rate24 48)
         24%float.
Proof.
  assert (Hhash : Spec.occurs "#" ("shot." ++ "%04d") = false)
    by reflexivity.
  assert (Hpct : Spec.occurs "%" "shot." = false) by reflexivity.
  assert (Hlen : String.length "%04d" <= 4) by (cbn; lia).
  split; [exact Hhash|]. split; [exact Hpct|]. split; [exact Hlen|].
  exact (image_sequence_missed "file-1" "file:///shots/" Fixtures.rate24 48
           24%float "shot." "%04d" Hhash Hpct Hlen).
Defined.

(* ===================================================================== *)
(** ** The tracks of a decoded timeline *)
(* ===================================================================== *)

Section DecodedTimelineFacts.

Import Decoder Spec Laws.

Lemma convertTrack_shape fcpTrack rate kind index :
  exists track,
    Decoder.convertTrack fcpTrack rate kind index = Ok track
    /\ decodedTrackAt kind rate index fcpTrack track.
Proof.
  unfold decodedTrackAt, Decoder.convertTrack, convertTrackWith.
  match goal with
  | |- context [convertItemsWith _ _ _ rate 0 ?items ?track] =>
      destruct (convertItems_children rate items 0 track)
        as [children [_ Hconv]]
  end.
  eexists. split; [exact Hconv|]. split; [exact Hconv|].
  by destruct (Schema.Track_Enabled fcpTrack) as [[|]|].
Qed.

Lemma convertMediaTracks_tracks label kind rate fcpTracks :
  forall i timeline,
  exists tracks,
    convertMediaTracks label kind rate i fcpTracks timeline
    = Ok (mkTimeline (Timeline_Name timeline)
                     (Timeline_Tracks timeline ++ map CTrack tracks))
    /\ length tracks = length fcpTracks
    /\ forall j fcpTrack,
         fcpTracks !! j = Some fcpTrack ->
         exists track,
           tracks !! j = Some track
           /\ decodedTrackAt kind rate (i + j) fcpTrack track.
Proof.
  induction fcpTracks as [|fcpTrack rest IH]; intros i timeline.
  - exists []. cbn [convertMediaTracks map]. rewrite app_nil_r.
    split; [by destruct timeline|]. split; [done|]. intros j f Hj.
    by rewrite lookup_nil in Hj.
  - cbn [convertMediaTracks].
    destruct (convertTrack_shape fcpTrack rate kind i) as [track [Ht Hshape]].
    rewrite Ht. unfold Timeline_AppendTrack. monad_simpl.
    destruct (IH (S i) (mkTimeline (Timeline_Name timeline)
                          (Timeline_Tracks timeline ++ [CTrack track])))
      as [tracks (Hc & Hlen & Hat)].
    exists (track :: tracks). rewrite Hc.
    cbn [Timeline_Name Timeline_Tracks map length].
    rewrite <- app_assoc. split; [done|]. split; [by rewrite Hlen|].
    intros [|j] f Hj.
    + injection Hj as <-. exists track. by rewrite Nat.add_0_r.
    + cbn in Hj. destruct (Hat j f Hj) as [t [Hl Hd]].
      exists t. split; [done|]. by rewrite Nat.add_succ_r.
Qed.

Lemma tracksOfKind_app kind a b :
  tracksOfKind kind (a ++ b) = tracksOfKind kind a ++ tracksOfKind kind b.
Proof. unfold tracksOfKind. apply flat_map_app. Qed.

Lemma tracksOfKind_same kind tracks :
  Forall (fun t => Track_Kind t = kind) tracks ->
  tracksOfKind kind (map CTrack tracks) = tracks.
Proof.
  induction 1 as [|t ts Ht _ IH]; [done|].
  unfold tracksOfKind in *. cbn [map flat_map]. rewrite Ht, String.eqb_refl, IH.
  done.
Qed.

Lemma tracksOfKind_other kind kind' tracks :
  kind' <> kind ->
  Forall (fun t => Track_Kind t = kind') tracks ->
  tracksOfKind kind (map CTrack tracks) = [].
Proof.
  intros Hne. induction 1 as [|t ts Ht _ IH]; [done|].
  unfold tracksOfKind in *. cbn [map flat_map]. rewrite Ht, IH.
  by destruct (String.eqb_spec kind' kind).
Qed.

Lemma decodedTracks_kind kind rate fcpTracks tracks :
  decodedTracks kind rate fcpTracks tracks ->
  Forall (fun t => Track_Kind t = kind) tracks.
Proof.
  intros [Hlen Hat]. apply Forall_lookup. intros i t Ht.
  destruct (fcpTracks !! i) as [f|] eqn:Hf.
  - destruct (Hat i f Hf) as [t' [Ht' (_ & _ & Hk & _)]]. congruence.
  - apply lookup_ge_None in Hf. apply lookup_lt_Some in Ht. lia.
Qed.

(** The timeline made of a sequence. *)
Lemma convertSequence_tracks (seq : Sequence) :
  exists timeline,
    Decoder.convertSequence seq = Ok timeline
    /\ Timeline_Name timeline = Sequence_Name seq
    /\ Timeline_Tracks timeline
       = map CTrack (Timeline_VideoTracks timeline)
         ++ map CTrack (Timeline_AudioTracks timeline)
    /\ decodedTracks TrackKindVideo (Sequence_Rate seq)
         (default [] (Media_Video (Sequence_Media seq)))
         (Timeline_VideoTracks timeline)
    /\ decodedTracks TrackKindAudio (Sequence_Rate seq)
         (default [] (Media_Audio (Sequence_Media seq)))
         (Timeline_AudioTracks timeline).
Proof.
  assert (Hmedia : forall label kind fcpTracks timeline,
    exists tracks,
      match fcpTracks with
      | Some l =>
          convertMediaTracks label kind (Sequence_Rate seq) 0 l
                                     timeline
      | None => Ok timeline
      end
      = Ok (mkTimeline (Timeline_Name timeline)
                       (Timeline_Tracks timeline ++ map CTrack tracks))
      /\ decodedTracks kind (Sequence_Rate seq) (default [] fcpTracks)
                            tracks).
  { intros label kind [l|] timeline.
    - destruct (convertMediaTracks_tracks label kind (Sequence_Rate seq) l 0
                  timeline) as [tracks (Hc & Hlen & Hat)].
      exists tracks. split; [done|]. by split.
    - exists []. cbn [map]. rewrite app_nil_r. split; [by destruct timeline|].
      split; [done|]. intros i f Hf. cbn [default] in Hf.
      by rewrite lookup_nil in Hf. }
  unfold convertSequence.
  destruct (Hmedia "video" TrackKindVideo (Media_Video (Sequence_Media seq))
              (NewTimeline (Sequence_Name seq))) as [vs [-> Hvs]].
  monad_simpl. unfold NewTimeline. cbn [Timeline_Name Timeline_Tracks app].
  destruct (Hmedia "audio" TrackKindAudio (Media_Audio (Sequence_Media seq))
              (mkTimeline (Sequence_Name seq) (map CTrack vs)))
    as [ts [-> Hts]].
  eexists. split; [reflexivity|].
  cbn [Timeline_Name Timeline_Tracks NewTimeline app].
  unfold Timeline_VideoTracks, Timeline_AudioTracks. cbn [Timeline_Tracks].
  rewrite !tracksOfKind_app.
  rewrite (tracksOfKind_same _ _ (decodedTracks_kind _ _ _ _ Hvs)).
  rewrite (tracksOfKind_same _ _ (decodedTracks_kind _ _ _ _ Hts)).
  rewrite (tracksOfKind_other TrackKindVideo TrackKindAudio ts);
    [|done|by eapply decodedTracks_kind].
  rewrite (tracksOfKind_other TrackKindAudio TrackKindVideo vs);
    [|done|by eapply decodedTracks_kind].
  rewrite app_nil_r. cbn [app].
  split; [done|]. split; [done|]. by split.
Qed.

End DecodedTimelineFacts.

(* ===================================================================== *)
(** ** The sequence a document is decoded from *)
(* ===================================================================== *)

Section FirstSequenceFacts.

Import Decoder Spec Laws.





End FirstSequenceFacts.



(** X11.  Decoding a sequence always succeeds and gives a timeline of the
    sequence's name whose stack holds the video tracks and then the audio
    tracks, one for each track of the document and in its order; track [i]
    (from 0) of a kind is named by the kind and [i + 1], and is enabled unless
    the document disables it. *)
Theorem decoded_timeline_tracks (seq : Sequence) :
  exists timeline,
    Decoder.convertSequence seq = Ok timeline
    /\ Timeline_Name timeline = Sequence_Name seq
    /\ Timeline_Tracks timeline
       = map CTrack (Timeline_VideoTracks timeline)
         ++ map CTrack (Timeline_AudioTracks timeline)
    /\ Laws.decodedTracks TrackKindVideo (Sequence_Rate seq)
         (default [] (Media_Video (Sequence_Media seq)))
         (Timeline_VideoTracks timeline)
    /\ Laws.decodedTracks TrackKindAudio (Sequence_Rate seq)
         (default [] (Media_Audio (Sequence_Media seq)))
         (Timeline_AudioTracks timeline).
Proof. apply convertSequence_tracks. Qed.

(* ===================================================================== *)
(** ** The encoder's loop over a track *)
(* ===================================================================== *)

Section EncoderTrackLaws.

Import Encoder Spec Laws.

Context `{Platform}.

(** What one turn of the loop does with a clip that has a duration:
    the clip goes to the generator items or to the clip items, made at the
    cursor, and the cursor moves on by the clip's frames. *)
Lemma convertChildren_clip rate clip rest fcpTrack pos dur :
  Clip_Duration clip = Ok dur ->
  exists fcpTrack',
    convertChildren rate (CClip clip :: rest) fcpTrack pos
    = convertChildren rate rest fcpTrack'
        (add64 pos (int64_of_float64 (rt_Value dur)))
    /\ if isGeneratorClip clip
       then exists g,
              convertToGenerator clip rate pos = (true, Some g)
              /\ fcpTrack' = appendGeneratorItem fcpTrack g
       else exists ci,
              convertClip clip rate pos = Ok ci
              /\ fcpTrack' = appendClipItem fcpTrack ci.
Proof.
  intros Hdur. cbn [convertChildren]. rewrite Hdur.
  pose proof (convertToGenerator_routes clip rate pos) as Hroute.
  destruct (isGeneratorClip clip).
  - destruct Hroute as [g [Hg _]]. rewrite Hg. monad_simpl. eauto.
  - rewrite Hroute.
    destruct (convertClip_Ok clip rate pos) as [ci Hci];
      [by rewrite Hdur|].
    rewrite Hci. monad_simpl. eauto.
Qed.

Lemma convertChildren_clip_Err rate clip rest fcpTrack pos e :
  Clip_Duration clip = Err e ->
  isOk (convertChildren rate (CClip clip :: rest) fcpTrack pos) = false.
Proof.
  intros Hdur. cbn [convertChildren].
  pose proof (convertToGenerator_routes clip rate pos) as Hroute.
  assert (Hgen : isGeneratorClip clip = false).
  { unfold isGeneratorClip. rewrite Hdur.
    by destruct (asBool _) as [[|]|]. }
  rewrite Hgen in Hroute. rewrite Hroute, Hdur.
  by destruct (wrapf _ (convertClip clip rate pos)).
Qed.

Lemma convertChildren_isOk rate children : forall fcpTrack pos,
  isOk (convertChildren rate children fcpTrack pos)
  = forallb encodableChild children.
Proof.
  induction children as [|child rest IH]; intros fcpTrack pos; [done|].
  cbn [forallb]. destruct child as [clip|trans|gap|t|n cc].
  - unfold encodableChild at 1, childFrames.
    destruct (Clip_Duration clip) as [dur|e] eqn:Hdur.
    + destruct (convertChildren_clip rate clip rest fcpTrack pos dur Hdur)
        as [fcpTrack' [-> _]].
      apply IH.
    + by rewrite (convertChildren_clip_Err _ _ _ _ _ e).
  - cbn [convertChildren]. unfold convertTransitionToItem. monad_simpl.
    apply IH.
  - cbn [convertChildren]. unfold encodableChild at 1, childFrames.
    destruct (Gap_Duration gap) as [dur|e]; [|done]. monad_simpl. apply IH.
  - cbn [convertChildren]. apply IH.
  - cbn [convertChildren]. apply IH.
Qed.

Lemma convertTrackList_isOk label rate tracks :
  isOk (convertTrackList label rate tracks) = forallb encodableTrack tracks.
Proof.
  induction tracks as [|track rest IH]; [done|].
  cbn [convertTrackList forallb]. rewrite <- IH.
  unfold encodableTrack. rewrite <- (convertChildren_isOk rate _
    (Schema.mkTrack (Some (Otio.Track_Enabled track)) [] [] []) 0).
  fold (Encoder.convertTrack track rate).
  destruct (Encoder.convertTrack track rate) as [t|e]; [|done].
  monad_simpl. by destruct (convertTrackList label rate rest).
Qed.

Lemma convertTimeline_isOk timeline :
  isOk (Encoder.convertTimeline timeline)
  = isOk (Timeline_Duration timeline)
    && forallb encodableTrack (Timeline_VideoTracks timeline)
    && forallb encodableTrack (Timeline_AudioTracks timeline).
Proof.
  unfold Encoder.convertTimeline.
  destruct (Encoder.workingRate timeline) as [frameRate isNTSC].
  unfold Encoder.convertTracks.
  rewrite <- (convertTrackList_isOk "video"
                (Encoder.sequenceRate frameRate isNTSC)).
  rewrite <- (convertTrackList_isOk "audio"
                (Encoder.sequenceRate frameRate isNTSC)).
  destruct (Timeline_Duration timeline) as [d|e]; [|done].
  monad_simpl.
  destruct (Encoder.convertTrackList "video" _ _) as [vs|e]; [|done].
  by destruct (Encoder.convertTrackList "audio" _ _) as [ts|e].
Qed.

(** The start and the end of the item a converter makes. *)
Lemma convertClip_span clip rate pos ci dur :
  Clip_Duration clip = Ok dur ->
  convertClip clip rate pos = Ok ci ->
  (ClipItem_Start ci, ClipItem_End ci)
  = (pos, add64 pos (int64_of_float64 (rt_Value dur))).
Proof.
  unfold convertClip, Clip_Duration. intros Hdur Hc.
  apply bind_Ok in Hc as [sourceRange [Hsr Hc]].
  apply bind_Ok in Hc as [file [_ Hc]]. injection Hc as <-.
  cbn [ClipItem_Start ClipItem_End].
  destruct (Clip_SourceRange clip) as [sr|].
  - injection Hsr as <-. by injection Hdur as <-.
  - apply wrapf_Ok in Hsr. rewrite Hsr in Hdur. monad_simpl in Hdur.
    by injection Hdur as <-.
Qed.

Lemma convertToGenerator_span clip rate pos g dur :
  Clip_Duration clip = Ok dur ->
  convertToGenerator clip rate pos = (true, Some g) ->
  (GeneratorItem_Start g, GeneratorItem_End g)
  = (pos, add64 pos (int64_of_float64 (rt_Value dur))).
Proof.
  unfold convertToGenerator. intros Hdur.
  destruct (asBool _) as [[|]|]; [|done|done]. rewrite Hdur.
  by intros [= <-].
Qed.

Lemma advance_clip pos clip dur :
  Clip_Duration clip = Ok dur ->
  advance pos (CClip clip) = add64 pos (int64_of_float64 (rt_Value dur)).
Proof. intros Hdur. unfold advance, childFrames. by rewrite Hdur. Qed.

Lemma advance_gap pos gap dur :
  Gap_Duration gap = Ok dur ->
  advance pos (CGap gap) = add64 pos (int64_of_float64 (rt_Value dur)).
Proof. intros Hdur. unfold advance, childFrames. by rewrite Hdur. Qed.

(** The loop appends to each list of the track the items of the children
    that go to it, each from the cursor to the cursor plus its frames. *)
Lemma convertChildren_spans rate children : forall fcpTrack pos fcpTrack',
  convertChildren rate children fcpTrack pos = Ok fcpTrack' ->
  map (fun c => (ClipItem_Start c, ClipItem_End c)) (Track_ClipItem fcpTrack')
  = map (fun c => (ClipItem_Start c, ClipItem_End c))
        (Track_ClipItem fcpTrack)
    ++ spans toClipItem pos children
  /\ map (fun x => (TransitionItem_Start x, TransitionItem_End x))
         (Track_TransitionItem fcpTrack')
     = map (fun x => (TransitionItem_Start x, TransitionItem_End x))
           (Track_TransitionItem fcpTrack)
       ++ spans toTransitionItem pos children
  /\ map (fun g => (GeneratorItem_Start g, GeneratorItem_End g))
         (Track_GeneratorItem fcpTrack')
     = map (fun g => (GeneratorItem_Start g, GeneratorItem_End g))
           (Track_GeneratorItem fcpTrack)
       ++ spans toGeneratorItem pos children.
Proof.
  unfold spans.
  induction children as [|child rest IH]; intros fcpTrack pos fcpTrack' Hc.
  - injection Hc as <-. cbn [placed List.filter map]. by rewrite !app_nil_r.
  - cbn [placed List.filter map fst snd].
    destruct child as [clip|trans|gap|t|n cc];
      cbn [toClipItem toGeneratorItem toTransitionItem].
    + destruct (Clip_Duration clip) as [dur|e] eqn:Hdur.
      * destruct (convertChildren_clip rate clip rest fcpTrack pos dur Hdur)
          as [fcpTrack1 [Hstep Hitem]].
        rewrite Hstep in Hc. apply IH in Hc as (Hcs & Hts & Hgs).
        rewrite !(advance_clip _ _ _ Hdur), Hcs, Hts, Hgs.
        destruct (isGeneratorClip clip); cbn [negb map fst snd].
        -- destruct Hitem as [g [Hg ->]]. unfold appendGeneratorItem.
           cbn [Track_ClipItem Track_TransitionItem Track_GeneratorItem].
           rewrite map_app, <- app_assoc. cbn [map app].
           by rewrite (convertToGenerator_span _ _ _ _ _ Hdur Hg),
             (advance_clip _ _ _ Hdur).
        -- destruct Hitem as [ci [Hci ->]]. unfold appendClipItem.
           cbn [Track_ClipItem Track_TransitionItem Track_GeneratorItem].
           rewrite map_app, <- app_assoc. cbn [map app].
           by rewrite (convertClip_span _ _ _ _ _ Hdur Hci),
             (advance_clip _ _ _ Hdur).
      * pose proof (convertChildren_clip_Err rate clip rest fcpTrack pos e Hdur)
          as Hno.
        rewrite Hc in Hno. discriminate Hno.
    + cbn [convertChildren] in Hc. unfold convertTransitionToItem in Hc.
      monad_simpl in Hc. apply IH in Hc as (Hcs & Hts & Hgs).
      rewrite Hcs, Hts, Hgs. unfold appendTransitionItem.
      cbn [Track_ClipItem Track_TransitionItem Track_GeneratorItem
           map fst snd TransitionItem_Start TransitionItem_End].
      by rewrite map_app, <- app_assoc.
    + cbn [convertChildren] in Hc.
      destruct (Gap_Duration gap) as [dur|e] eqn:Hdur; [|discriminate Hc].
      monad_simpl in Hc. rewrite (advance_gap _ _ _ Hdur). by apply IH in Hc.
    + cbn [convertChildren] in Hc. by apply IH in Hc.
    + cbn [convertChildren] in Hc. by apply IH in Hc.
Qed.

Lemma collectItems_appendClipItem t ci :
  Permutation (Decoder.collectItems (appendClipItem t ci))
    (Decoder.collectItems t
     ++ [Decoder.mkTrackItem (ClipItem_Start ci) (Decoder.clipItem ci)]).
Proof.
  unfold Decoder.collectItems, appendClipItem.
  cbn [Track_ClipItem Track_TransitionItem Track_GeneratorItem].
  rewrite map_app. cbn [map]. rewrite <- !app_assoc.
  apply Permutation_app_head. cbn [app].
  rewrite app_assoc. apply Permutation_cons_append.
Qed.

Lemma collectItems_appendTransitionItem t x :
  Permutation (Decoder.collectItems (appendTransitionItem t x))
    (Decoder.collectItems t
     ++ [Decoder.mkTrackItem (TransitionItem_Start x) (Decoder.transition x)]).
Proof.
  unfold Decoder.collectItems, appendTransitionItem.
  cbn [Track_ClipItem Track_TransitionItem Track_GeneratorItem].
  rewrite map_app. cbn [map]. rewrite <- !app_assoc.
  do 2 apply Permutation_app_head. cbn [app]. apply Permutation_cons_append.
Qed.

Lemma collectItems_appendGeneratorItem t g :
  Decoder.collectItems (appendGeneratorItem t g)
  = Decoder.collectItems t
    ++ [Decoder.mkTrackItem (GeneratorItem_Start g) (Decoder.generator g)].
Proof.
  unfold Decoder.collectItems, appendGeneratorItem.
  cbn [Track_ClipItem Track_TransitionItem Track_GeneratorItem].
  rewrite map_app. cbn [map]. by rewrite <- !app_assoc.
Qed.

(** The items the loop adds to the track, in the order of the children
    they are made of. *)
Lemma convertChildren_items rate children : forall fcpTrack pos fcpTrack',
  convertChildren rate children fcpTrack pos = Ok fcpTrack' ->
  exists items,
    Forall2 itemOf
      (List.filter (fun pc => emitted (snd pc)) (placed pos children)) items
    /\ Permutation (Decoder.collectItems fcpTrack')
                   (Decoder.collectItems fcpTrack ++ items).
Proof.
  induction children as [|child rest IH]; intros fcpTrack pos fcpTrack' Hc.
  - injection Hc as <-. exists []. split; [constructor|].
    by rewrite app_nil_r.
  - cbn [placed List.filter snd].
    destruct child as [clip|trans|gap|t|n cc]; cbn [emitted].
    + destruct (Clip_Duration clip) as [dur|e] eqn:Hdur.
      * destruct (convertChildren_clip rate clip rest fcpTrack pos dur Hdur)
          as [fcpTrack1 [Hstep Hitem]].
        rewrite Hstep in Hc. apply IH in Hc as [items [HF Hp]].
        rewrite (advance_clip _ _ _ Hdur).
        pose proof (convertToGenerator_routes clip rate pos) as Hroute.
        destruct (isGeneratorClip clip).
        -- destruct Hitem as [g [Hg ->]].
           destruct Hroute as [g' [Hg' (Hname & _ & Hstart & _)]].
           rewrite Hg in Hg'. injection Hg' as <-.
           exists (Decoder.mkTrackItem (GeneratorItem_Start g)
                                       (Decoder.generator g) :: items).
           split; [by constructor|].
           rewrite Hp, collectItems_appendGeneratorItem.
           by rewrite <- app_assoc.
        -- destruct Hitem as [ci [Hci ->]].
           apply convertClip_fields in Hci as (Hname & _ & Hstart & _).
           exists (Decoder.mkTrackItem (ClipItem_Start ci)
                                       (Decoder.clipItem ci) :: items).
           split; [by constructor|].
           rewrite Hp, collectItems_appendClipItem.
           by rewrite <- app_assoc.
      * pose proof (convertChildren_clip_Err rate clip rest fcpTrack pos e Hdur)
          as Hno.
        rewrite Hc in Hno. discriminate Hno.
    + cbn [convertChildren] in Hc. unfold convertTransitionToItem in Hc.
      monad_simpl in Hc. apply IH in Hc as [items [HF Hp]].
      match type of Hp with
      | context [appendTransitionItem _ ?x] =>
          exists (Decoder.mkTrackItem (TransitionItem_Start x)
                                      (Decoder.transition x) :: items)
      end.
      split; [constructor; [by split|exact HF]|].
      rewrite Hp, collectItems_appendTransitionItem.
      by rewrite <- app_assoc.
    + cbn [convertChildren] in Hc.
      destruct (Gap_Duration gap) as [dur|e] eqn:Hdur; [|discriminate Hc].
      monad_simpl in Hc. rewrite (advance_gap _ _ _ Hdur). by apply IH in Hc.
    + cbn [convertChildren] in Hc. by apply IH in Hc.
    + cbn [convertChildren] in Hc. by apply IH in Hc.
Qed.

(** What the decoder makes of an item made of a child is a child of the
    same kind and name. *)
Lemma convertItem_sameNamedKind rate pc item child :
  itemOf pc item -> convertItem rate item = Ok child ->
  sameNamedKind (snd pc) child.
Proof.
  intros [_ Hitem] Hc. pose proof (convertItem_name _ _ _ Hc) as Hname.
  unfold convertItem in Hc. unfold itemName in Hname.
  destruct (snd pc) as [clip|trans|gap|t|n cc],
    (Decoder.payload item) as [ci|x|g]; try done.
  - unfold Decoder.convertClipItem in Hc.
    destruct (ClipItem_Sequence ci); injection Hc as <-;
      cbn [sameNamedKind]; cbn [childName] in Hname; congruence.
  - apply bind_Ok in Hc as [gen [_ Hc]]. injection Hc as <-.
    cbn [sameNamedKind]. cbn [childName] in Hname. congruence.
  - apply bind_Ok in Hc as [tr [_ Hc]]. injection Hc as <-.
    cbn [sameNamedKind]. cbn [childName] in Hname. congruence.
Qed.

Lemma placed_children sel pos children :
  map snd (List.filter (fun pc => sel (snd pc)) (placed pos children))
  = List.filter sel children.
Proof.
  revert pos. induction children as [|child rest IH]; intros pos; [done|].
  cbn [placed List.filter snd]. destruct (sel child); cbn [map snd];
    by rewrite IH.
Qed.

Lemma ascending_NoDup (l : list Z) : StronglySorted Z.lt l -> NoDup l.
Proof.
  induction 1 as [|x l _ IH Hx]; [constructor|].
  apply NoDup_cons. split; [|done].
  intros Hin. rewrite Forall_forall in Hx. specialize (Hx x Hin). lia.
Qed.

Lemma ascending_byStart (items : list Decoder.trackItem) :
  StronglySorted Z.lt (map Decoder.start items) ->
  StronglySorted byStart items.
Proof.
  induction items as [|x items IH]; [constructor|].
  cbn [map]. intros [Hs Hx]%StronglySorted_inv.
  constructor; [by apply IH|].
  rewrite Forall_forall in Hx. apply Forall_forall. intros y Hy.
  unfold byStart. apply Z.lt_le_incl, Hx. by apply list_elem_of_fmap_2.
Qed.

Lemma itemOf_starts placedChildren items :
  Forall2 itemOf placedChildren items ->
  map Decoder.start items = map fst placedChildren.
Proof.
  induction 1 as [|pc item l items [Hstart _] _ IH]; [done|].
  cbn [map]. by rewrite Hstart, IH.
Qed.

End EncoderTrackLaws.

(** X12.  Encoding a track succeeds exactly when each clip of the track has
    a duration (a source range, or a reference with an available range) and
    each gap has one; transitions and nested compositions never stop it.
    Converting a timeline succeeds exactly when the timeline has a duration
    and its video and audio tracks can all be encoded; a track of another
    kind is not looked at. *)
Theorem encode_succeeds_iff `{Platform} (timeline : Timeline) :
  (forall track rate,
     isOk (Encoder.convertTrack track rate) = Laws.encodableTrack track)
  /\ isOk (Encoder.convertTimeline timeline)
     = isOk (Timeline_Duration timeline)
       && forallb Laws.encodableTrack (Timeline_VideoTracks timeline)
       && forallb Laws.encodableTrack (Timeline_AudioTracks timeline).
Proof.
  split; [intros track rate; apply convertChildren_isOk|].
  apply convertTimeline_isOk.
Qed.

(** X13.  Each item of an encoded track starts at the cursor and ends where
    the cursor stands after it: the first child is at 0, and a child is at the
    wrapped sum of the frames of the clips, transitions and gaps before it, a
    nested composition counting for nothing. *)
Theorem encoded_item_spans `{Platform}
    (track : Otio.Track) (rate : Rate) (fcpTrack : Schema.Track) :
  Encoder.convertTrack track rate = Ok fcpTrack ->
  map (fun c => (ClipItem_Start c, ClipItem_End c)) (Track_ClipItem fcpTrack)
  = Laws.spans Laws.toClipItem 0 (Track_Children track)
  /\ map (fun x => (TransitionItem_Start x, TransitionItem_End x))
         (Track_TransitionItem fcpTrack)
     = Laws.spans Laws.toTransitionItem 0 (Track_Children track)
  /\ map (fun g => (GeneratorItem_Start g, GeneratorItem_End g))
         (Track_GeneratorItem fcpTrack)
     = Laws.spans Laws.toGeneratorItem 0 (Track_Children track).
Proof.
  unfold Encoder.convertTrack. intros Hc.
  by apply convertChildren_spans in Hc.
Qed.

(** A closed instance of [encoded_item_spans]: the track of the gap test, whose
    second clip starts at 75 after a gap of 25 frames. *)
Lemma encoded_item_spans_witness :
  @Encoder.convertTrack Fixtures.samplePlatform Fixtures.gapTrack
    Fixtures.rate24
  = Ok Fixtures.encodedGapTrack
  /\ map (fun c => (ClipItem_Start c, ClipItem_End c))
         (Track_ClipItem Fixtures.encodedGapTrack)
     = [(0, 50); (75, 125)]%Z.
Proof.
  assert (Hc : @Encoder.convertTrack Fixtures.samplePlatform Fixtures.gapTrack
                 Fixtures.rate24
               = Ok Fixtures.encodedGapTrack) by (vm_compute; reflexivity).
  split; [exact Hc|].
  exact (proj1 (@encoded_item_spans Fixtures.samplePlatform Fixtures.gapTrack
                  Fixtures.rate24 Fixtures.encodedGapTrack Hc)).
Defined.

(** X14.  Decoding an encoded track gives back the clips and the transitions
    of the track, by kind and name and in their order, and no gap, provided
    the positions of the clips and transitions ascend strictly: the decoder
    orders the items by start alone. *)
Theorem encoded_track_decodes_in_order `{Platform}
    (track : Otio.Track) (rate seqRate : Rate) (fcpTrack : Schema.Track)
    (kind : string) (index : nat) :
  Encoder.convertTrack track rate = Ok fcpTrack ->
  StronglySorted Z.lt
    (map fst (List.filter (fun pc => Laws.emitted (snd pc))
                          (Laws.placed 0 (Track_Children track)))) ->
  exists decoded,
    Decoder.convertTrack fcpTrack seqRate kind index = Ok decoded
    /\ Forall2 Laws.sameNamedKind
         (List.filter Laws.emitted (Track_Children track))
         (Track_Children decoded).
Proof.
  unfold Encoder.convertTrack. intros Hc Hasc.
  apply convertChildren_items in Hc as [items [HF Hp]].
  change (Decoder.collectItems _ ++ items) with items in Hp.
  rewrite <- (itemOf_starts _ _ HF) in Hasc.
  assert (Hsort : items = Decoder.sortByStart (Decoder.collectItems fcpTrack)).
  { apply sorted_perm_unique.
    - by apply ascending_NoDup.
    - by apply ascending_byStart.
    - apply sortByStart_sorted.
    - by rewrite sortByStart_perm, Hp. }
  destruct (convertTrack_inOrder fcpTrack seqRate kind index)
    as [decoded [Hd Hconv]].
  exists decoded. split; [exact Hd|].
  rewrite <- Hsort in Hconv. rewrite <- (placed_children Laws.emitted 0).
  apply Forall2_fmap_l.
  clear Hsort Hp Hasc Hd. revert Hconv.
  generalize (Track_Children decoded).
  induction HF as [|pc item l items Hitem _ IH]; intros children Hconv.
  - inversion Hconv. constructor.
  - inversion Hconv as [|? child ? children' Hchild Hrest]; subst.
    constructor; [|by apply IH].
    by apply (convertItem_sameNamedKind seqRate pc item).
Qed.

(** A closed instance of [encoded_track_decodes_in_order]: the track of the
    gap test. *)
Lemma encoded_track_decodes_in_order_witness :
  @Encoder.convertTrack Fixtures.samplePlatform Fixtures.gapTrack
    Fixtures.rate24
  = Ok Fixtures.encodedGapTrack
  /\ StronglySorted Z.lt
       (map fst (List.filter (fun pc => Laws.emitted (snd pc))
                   (Laws.placed 0 (Track_Children Fixtures.gapTrack))))
  /\ exists decoded,
       Decoder.convertTrack Fixtures.encodedGapTrack Fixtures.rate24
         TrackKindVideo 0
       = Ok decoded
       /\ Forall2 Laws.sameNamedKind
            (List.filter Laws.emitted (Track_Children Fixtures.gapTrack))
            (Track_Children decoded).
Proof.
  assert (Hc : @Encoder.convertTrack Fixtures.samplePlatform Fixtures.gapTrack
                 Fixtures.rate24
               = Ok Fixtures.encodedGapTrack) by (vm_compute; reflexivity).
  assert (Hasc : StronglySorted Z.lt
       (map fst (List.filter (fun pc => Laws.emitted (snd pc))
                   (Laws.placed 0 (Track_Children Fixtures.gapTrack))))).
  { vm_compute. repeat constructor. }
  split; [exact Hc|]. split; [exact Hasc|].
  exact (@encoded_track_decodes_in_order Fixtures.samplePlatform
           Fixtures.gapTrack Fixtures.rate24 Fixtures.rate24
           Fixtures.encodedGapTrack TrackKindVideo 0 Hc Hasc).
Defined.

(* ===================================================================== *)
(** ** Items in the form the encoder writes *)
(* ===================================================================== *)

Section NormalForms.

Import Laws.

Context `{Platform}.

Lemma keptEffect_normal (e : Effect) : normalEffect e -> keptEffect e = e.
Proof.
  intros He. destruct e. unfold keptEffect.
  cbn [Effect_Name Effect_EffectID Effect_EffectType Effect_MediaType
       Effect_EffectCategory Effect_Duration Effect_StartRatio
       Effect_EndRatio Effect_Reverse Effect_Parameter] in *.
  f_equal. by apply keptCount_id.
Qed.

Lemma keptFilter_normal (f : Filter) : normalFilter f -> keptFilter f = f.
Proof.
  intros (Hs & He & Heff). destruct f as [en st e eff]. unfold keptFilter.
  cbn [Filter_Enabled Filter_Start Filter_End Filter_Effect] in *.
  rewrite (proj2 (keptCount_id st) Hs), (proj2 (keptCount_id e) He).
  f_equal. destruct eff as [x|]; [|done].
  cbn [option_map]. by rewrite keptEffect_normal.
Qed.

Lemma map_normal {A : Type} (f : A -> A) (P : A -> Prop) (l : list A) :
  (forall x, P x -> f x = x) -> Forall P l -> map f l = l.
Proof.
  intros Hf. induction 1 as [|x l Hx _ IH]; [done|].
  cbn [map]. by rewrite (Hf x Hx), IH.
Qed.

Lemma reencodedFile_normal (f : File) (rate : Rate) :
  normalFile f rate -> reencodedFile (Some f) rate = f.
Proof.
  intros (Hid & Hrate & Himg & Hdur & Hpath).
  destruct f as [fid fname path frate fdur]. unfold reencodedFile, throughFloat.
  cbn [File_ID File_Name File_PathURL File_Rate File_Duration] in *.
  destruct Hpath as [(-> & -> & ->)|[Hpath Hurl]].
  - by rewrite Hid, Hrate.
  - destruct (String.eqb_spec path "") as [->|_]; [done|].
    rewrite Himg, Hurl, int64_of_float64_of_int by done.
    by rewrite <- Hid, Hrate.
Qed.

Lemma reencodedClipItem_normal (item : ClipItem) :
  normalClipItem item ->
  reencodedClipItem item (ClipItem_Rate item) (ClipItem_Start item) = item.
Proof.
  intros (Hsq & [en Hen] & Hin & Hlen & Hdur & Hend & [f [Hf Hfile]]
          & Hfl & Hef & Hmk).
  destruct item as [id name en' dur r st e i o f' sq fl ef mk].
  unfold reencodedClipItem, throughFloat.
  cbn [ClipItem_ID ClipItem_Name ClipItem_Enabled ClipItem_Duration
       ClipItem_Rate ClipItem_Start ClipItem_End ClipItem_In ClipItem_Out
       ClipItem_File ClipItem_Sequence ClipItem_Filter ClipItem_Effect
       ClipItem_Marker] in *.
  subst sq en' f' dur e. cbv zeta.
  unfold sub64. rewrite (exactFrames_int64 _ Hlen).
  rewrite !int64_of_float64_of_int by done.
  rewrite (reencodedFile_normal f r Hfile).
  rewrite (map_normal keptFilter normalFilter fl keptFilter_normal Hfl).
  rewrite (map_normal keptEffect normalEffect ef keptEffect_normal Hef).
  rewrite (map_normal reencodedMarker normalMarker mk
             (fun m Hm => reencodedMarker_exact m (proj1 Hm) (proj2 Hm)) Hmk).
  cbn [default from_option Datatypes.id].
  pose proof (reencodedMarker_exact (Schema.mkMarker "" "" i o None) Hin Hlen)
    as Hm.
  unfold reencodedMarker, throughFloat, sub64 in Hm.
  cbn [Schema.Marker_In Schema.Marker_Out] in Hm.
  rewrite (exactFrames_int64 _ Hlen) in Hm.
  rewrite !int64_of_float64_of_int in Hm by done.
  injection Hm as Hout. by rewrite Hout.
Qed.

Lemma reencodedGeneratorItem_normal (item : GeneratorItem) :
  normalGeneratorItem item ->
  reencodedGeneratorItem item (GeneratorItem_Rate item)
                         (GeneratorItem_Start item)
  = item.
Proof.
  intros ([en Hen] & Hin & Hdur & Hout & Hend & Heff & Hfl & Hmk).
  destruct item as [name dur r st e i o en' eff fl mk].
  unfold reencodedGeneratorItem, throughFloat.
  cbn [GeneratorItem_Name GeneratorItem_Duration GeneratorItem_Rate
       GeneratorItem_Start GeneratorItem_End GeneratorItem_In
       GeneratorItem_Out GeneratorItem_Enabled GeneratorItem_Effect
       GeneratorItem_Filter GeneratorItem_Marker] in *.
  subst en' o e. cbv zeta.
  rewrite !int64_of_float64_of_int by done.
  rewrite (map_normal keptFilter normalFilter fl keptFilter_normal Hfl).
  rewrite (map_normal reencodedMarker normalMarker mk
             (fun m Hm => reencodedMarker_exact m (proj1 Hm) (proj2 Hm)) Hmk).
  cbn [default]. destruct eff as [x|]; [|done].
  cbn [option_map]. by rewrite keptEffect_normal.
Qed.

End NormalForms.

(* ===================================================================== *)
(** ** Rates through the decoder and the encoder *)
(* ===================================================================== *)

Section RateLaws.

Import Laws.

Lemma rate_eqb_eq (a b : Rate) : rate_eqb a b = true -> a = b.
Proof.
  destruct a as [ta na], b as [tb nb]. unfold rate_eqb.
  cbn [Rate_Timebase Rate_NTSC].
  intros [Ht Hn]%andb_prop. apply Z.eqb_eq in Ht. apply Bool.eqb_prop in Hn.
  by subst.
Qed.

Lemma timebases_checked : forallb reencodesAsLaw (seqZ 1 1001) = true.
Proof. vm_compute. reflexivity. Qed.

End RateLaws.

(** X15.  For every timebase from 1 to 1001, decoding the plain rate to frames
    per second and encoding it again gives the rate back, while the NTSC rate
    comes back only at the timebases 24, 30 and 60: at any other timebase it
    is encoded as the plain rate of the timebase below. *)
Theorem timebase_reencoded (tb : Z) :
  (1 <= tb <= 1001)%Z ->
  Spec.reencodeRate (mkRate tb false) = mkRate tb false
  /\ Spec.reencodeRate (mkRate tb true) = Laws.reencodedNTSC tb.
Proof.
  intros Htb.
  assert (Hin : In tb (seqZ 1 1001)).
  { apply list_elem_of_In, elem_of_seqZ. lia. }
  pose proof (proj1 (forallb_forall _ _) timebases_checked tb Hin) as Hlaw.
  unfold Laws.reencodesAsLaw in Hlaw.
  apply andb_prop in Hlaw as [Hplain Hntsc].
  split; by apply rate_eqb_eq.
Qed.

(** A closed instance of [timebase_reencoded]: the timebase 120, whose NTSC rate
    comes back as 119 without the flag. *)
Lemma timebase_reencoded_witness :
  (1 <= 120 <= 1001)%Z
  /\ Spec.reencodeRate (mkRate 120 false) = mkRate 120 false
  /\ Spec.reencodeRate (mkRate 120 true) = mkRate 119 false.
Proof.
  assert (Htb : (1 <= 120 <= 1001)%Z) by lia.
  split; [exact Htb|]. exact (timebase_reencoded 120 Htb).
Defined.

(* ===================================================================== *)
(** ** Written items come back *)
(* ===================================================================== *)

(** The sample items are in written form. *)
Lemma writtenFile_normal :
  @Laws.normalFile LawFixtures.filePlatform LawFixtures.writtenFile
    Fixtures.rate24.
Proof.
  unfold Laws.normalFile, Laws.exactFrames.
  split; [reflexivity|]. split; [reflexivity|]. split; [reflexivity|].
  split; [vm_compute; by split|]. right. by split.
Qed.

Lemma writtenClipItem_normal :
  @Laws.normalClipItem LawFixtures.filePlatform LawFixtures.writtenClipItem.
Proof.
  unfold Laws.normalClipItem, Laws.exactFrames.
  split; [reflexivity|]. split; [by eexists|].
  split; [vm_compute; by split|]. split; [vm_compute; by split|].
  split; [reflexivity|]. split; [reflexivity|].
  split; [eexists; split; [reflexivity|exact writtenFile_normal]|].
  split.
  { constructor; [|constructor]. vm_compute. by repeat split. }
  split.
  { constructor; [|constructor]. vm_compute. discriminate. }
  constructor; [|constructor]. vm_compute. by repeat split.
Qed.

Lemma writtenGeneratorItem_normal :
  Laws.normalGeneratorItem LawFixtures.writtenGeneratorItem.
Proof.
  unfold Laws.normalGeneratorItem, Laws.exactFrames.
  split; [by eexists|].
  split; [vm_compute; by split|]. split; [vm_compute; by split|].
  split; [reflexivity|]. split; [reflexivity|].
  split; [vm_compute; discriminate|].
  split.
  { constructor; [|constructor]. vm_compute. by repeat split. }
  constructor; [|constructor]. vm_compute. by repeat split.
Qed.

Lemma writtenItems_written :
  @Laws.writtenTrack LawFixtures.filePlatform Fixtures.rate24
    LawFixtures.writtenItems.
Proof.
  split; [|split].
  - repeat apply Forall_cons_2; [| | |apply Forall_nil_2].
    + split; [reflexivity|]. split; [reflexivity|].
      exact writtenClipItem_normal.
    + split; [reflexivity|]. split; [reflexivity|].
      split; [vm_compute; reflexivity|]. vm_compute. discriminate.
    + split; [reflexivity|]. split; [reflexivity|].
      exact writtenGeneratorItem_normal.
  - vm_compute. by repeat split.
  - vm_compute. repeat constructor.
Qed.

(** X16.  A clip item in the form the encoder writes is decoded and encoded
    back to itself, at its own rate and start.  The form: no nested
    sequence, an explicit enabled flag, [in] and the length from [in] to
    [out] below 2^53 in size, that length as the duration, an end of start
    plus duration, a file in written form at the item's rate, counts of
    filters and effects that are not negative, and markers within the same
    bounds. *)
Theorem clip_item_round_trip `{Platform} (item : ClipItem) (seqRate : Rate) :
  Laws.normalClipItem item ->
  exists clip,
    Decoder.convertClipItem item seqRate = Ok (CClip clip)
    /\ Encoder.convertClip clip (ClipItem_Rate item) (ClipItem_Start item)
       = Ok item.
Proof.
  intros Hn.
  destruct (clip_item_reencoded item seqRate (ClipItem_Rate item)
              (ClipItem_Start item)) as [clip (Hd & _ & He)].
  exists clip. split; [exact Hd|].
  by rewrite He, (reencodedClipItem_normal item Hn).
Qed.

(** A closed instance of [clip_item_round_trip]: the sample clip item, under
    collaborators that know a file URL. *)
Lemma clip_item_round_trip_witness :
  @Laws.normalClipItem LawFixtures.filePlatform LawFixtures.writtenClipItem
  /\ exists clip,
       Decoder.convertClipItem LawFixtures.writtenClipItem Fixtures.rate24
       = Ok (CClip clip)
       /\ @Encoder.convertClip LawFixtures.filePlatform clip Fixtures.rate24
            0
          = Ok LawFixtures.writtenClipItem.
Proof.
  split; [exact writtenClipItem_normal|].
  exact (@clip_item_round_trip LawFixtures.filePlatform
           LawFixtures.writtenClipItem Fixtures.rate24
           writtenClipItem_normal).
Defined.

(** X17.  A generator item in the form the encoder writes is decoded and
    encoded back to itself, at its own rate and start. *)
Theorem generator_item_round_trip (item : GeneratorItem) (seqRate : Rate) :
  Laws.normalGeneratorItem item ->
  exists clip,
    Decoder.convertGenerator item seqRate = Ok clip
    /\ Encoder.convertToGenerator clip (GeneratorItem_Rate item)
                                  (GeneratorItem_Start item)
       = (true, Some item).
Proof.
  intros Hn.
  destruct (generator_item_reencoded item seqRate (GeneratorItem_Rate item)
              (GeneratorItem_Start item)) as [clip (Hd & He)].
  exists clip. split; [exact Hd|].
  by rewrite He, (reencodedGeneratorItem_normal item Hn).
Qed.

(** A closed instance of [generator_item_round_trip]: the sample
    generator item. *)
Lemma generator_item_round_trip_witness :
  Laws.normalGeneratorItem LawFixtures.writtenGeneratorItem
  /\ exists clip,
       Decoder.convertGenerator LawFixtures.writtenGeneratorItem
                                Fixtures.rate24
       = Ok clip
       /\ Encoder.convertToGenerator clip Fixtures.rate24 72
          = (true, Some LawFixtures.writtenGeneratorItem).
Proof.
  split; [exact writtenGeneratorItem_normal|].
  exact (generator_item_round_trip LawFixtures.writtenGeneratorItem
           Fixtures.rate24 writtenGeneratorItem_normal).
Defined.

(* ===================================================================== *)
(** ** Encoding what was decoded *)
(* ===================================================================== *)

Section DecodedEncodes.

Import Decoder Spec Laws.

Context `{Platform}.

(** What the decoder makes of an item never stops the encoder: a
    decoded clip has a source range. *)
Lemma convertItem_encodable rate item child :
  convertItem rate item = Ok child -> encodableChild child = true.
Proof.
  unfold convertItem, encodableChild, childFrames.
  destruct (payload item) as [c|t|g].
  - destruct (convertClipItem_frameRate c rate) as [clip [-> Hdur]].
    intros [= <-]. by rewrite Hdur.
  - unfold convertTransition. monad_simpl. by intros [= <-].
  - unfold convertGenerator. monad_simpl.
    by destruct (GeneratorItem_Enabled g) as [[|]|]; intros [= <-].
Qed.

Lemma decoded_track_encodable fcpTrack rate kind index track :
  Decoder.convertTrack fcpTrack rate kind index = Ok track ->
  encodableTrack track = true.
Proof.
  intros Hc.
  destruct (convertTrack_inOrder fcpTrack rate kind index)
    as [track' [Hc' HF]].
  rewrite Hc in Hc'. injection Hc' as <-.
  unfold encodableTrack. apply forallb_forall. intros child Hin.
  apply list_elem_of_In in Hin.
  destruct (proj1 (list_elem_of_lookup _ _) Hin) as [i Hi].
  destruct (Forall2_lookup_r _ _ _ _ _ HF Hi) as [item [_ Hitem]].
  by apply (convertItem_encodable rate item).
Qed.

Lemma decodedTracks_encodable kind rate fcpTracks tracks :
  decodedTracks kind rate fcpTracks tracks ->
  forallb encodableTrack tracks = true.
Proof.
  intros [Hlen Hat]. apply forallb_forall. intros track Hin.
  apply list_elem_of_In in Hin.
  destruct (proj1 (list_elem_of_lookup _ _) Hin) as [i Hi].
  destruct (fcpTracks !! i) as [f|] eqn:Hf.
  - destruct (Hat i f Hf) as [t [Ht (Hc & _)]].
    rewrite Hi in Ht. injection Ht as <-.
    by apply (decoded_track_encodable f rate kind i).
  - apply lookup_ge_None in Hf. apply lookup_lt_Some in Hi. lia.
Qed.

End DecodedEncodes.

(** X18.  Whatever the decoder makes of a sequence, the encoder converts: a
    decoded timeline is converted back to a document whenever the timeline
    library gives its duration. *)
Theorem decoded_timeline_encodes `{Platform} (seq : Sequence) :
  exists timeline,
    Decoder.convertSequence seq = Ok timeline
    /\ isOk (Encoder.convertTimeline timeline)
       = isOk (Timeline_Duration timeline).
Proof.
  destruct (convertSequence_tracks seq)
    as [timeline (Hc & _ & _ & Hvs & Hts)].
  exists timeline. split; [exact Hc|].
  rewrite convertTimeline_isOk.
  rewrite (decodedTracks_encodable _ _ _ _ Hvs).
  rewrite (decodedTracks_encodable _ _ _ _ Hts).
  by rewrite !andb_true_r.
Qed.

(* ===================================================================== *)
(** ** File references *)
(* ===================================================================== *)

(** X19.  A file in the form the encoder writes is decoded to a reference
    that is encoded back to the same file.  The form: an identifier made of
    the name, the rate it is encoded at, no sequence pattern in the name, a
    duration below 2^53 in size, and either a path that is a file URL or
    no path, no name and no duration (the file of a missing reference). *)
Theorem file_round_trip `{Platform}
    (file : File) (frameRate : float) (rate : Rate) :
  Laws.normalFile file rate ->
  Encoder.convertMediaReference
    (Decoder.createMediaReference file frameRate) rate
  = Ok file.
Proof.
  intros Hn. pose proof (reencodedFile_normal file rate Hn) as Hre.
  pose proof (file_reencoded (Some file) frameRate rate) as Hf.
  rewrite Hre in Hf.
  destruct Hn as (Hid & Hrate & Himg & Hdur & [(Hpath & Hname & Hz)|[Hpath _]]).
  - clear Hf Hre. destruct file as [fid fname path frate fdur].
    cbn [File_ID File_Name File_PathURL File_Rate File_Duration] in *.
    subst. reflexivity.
  - by destruct (String.eqb_spec (File_PathURL file) "").
Qed.

(** A closed instance of [file_round_trip]: the file of the sample clip item. *)
Lemma file_round_trip_witness :
  @Laws.normalFile LawFixtures.filePlatform LawFixtures.writtenFile
    Fixtures.rate24
  /\ @Encoder.convertMediaReference LawFixtures.filePlatform
       (Decoder.createMediaReference LawFixtures.writtenFile 24%float)
       Fixtures.rate24
     = Ok LawFixtures.writtenFile.
Proof.
  split; [exact writtenFile_normal|].
  exact (@file_round_trip LawFixtures.filePlatform LawFixtures.writtenFile
           24%float Fixtures.rate24 writtenFile_normal).
Defined.

(** X20.  The file of an image sequence does not come back: its reference is
    encoded to a file without a path and without a duration, under an
    identifier made of the name. *)
Theorem image_sequence_file_reencoded `{Platform}
    (file : File) (frameRate : float) (rate : Rate) :
  Decoder.isImageSequenceName (File_Name file) = true ->
  Encoder.convertMediaReference
    (Decoder.createMediaReference file frameRate) rate
  = Ok (mkFile ("file-" ++ Encoder.sanitizeID (File_Name file))
               (File_Name file) "" rate 0).
Proof.
  intros Himg. rewrite createMediaReference_cases, Himg. reflexivity.
Qed.

(** A closed instance of [image_sequence_file_reencoded]: the file
    [shot.####.exr]. *)
Lemma image_sequence_file_reencoded_witness :
  Decoder.isImageSequenceName (File_Name LawFixtures.sequenceFile) = true
  /\ @Encoder.convertMediaReference LawFixtures.filePlatform
       (Decoder.createMediaReference LawFixtures.sequenceFile 24%float)
       Fixtures.rate24
     = Ok (mkFile "file-shotexr" "shot.####.exr" "" Fixtures.rate24 0).
Proof.
  assert (Himg : Decoder.isImageSequenceName
                   (File_Name LawFixtures.sequenceFile) = true)
    by reflexivity.
  split; [exact Himg|].
  exact (@image_sequence_file_reencoded LawFixtures.filePlatform
           LawFixtures.sequenceFile 24%float Fixtures.rate24 Himg).
Defined.

(* ===================================================================== *)
(** ** The encoded document *)
(* ===================================================================== *)

Section EncodedDocumentFacts.

Import Encoder Spec.

Context `{Platform}.

Lemma convertTrackList_tracks label rate tracks : forall fcpTracks,
  convertTrackList label rate tracks = Ok fcpTracks ->
  Forall2 (fun track fcpTrack => Encoder.convertTrack track rate = Ok fcpTrack)
          tracks fcpTracks.
Proof.
  induction tracks as [|track rest IH]; intros fcpTracks Hc.
  - injection Hc as <-. constructor.
  - cbn [convertTrackList] in Hc.
    apply bind_Ok in Hc as [fcpTrack [Ht Hc]]. apply wrapf_Ok in Ht.
    apply bind_Ok in Hc as [others [Ho Hc]]. injection Hc as <-.
    constructor; [done|by apply IH].
Qed.

End EncodedDocumentFacts.

(** X21.  A converted timeline is a document of version 5 with one sequence,
    which has the timeline's name, its duration in frames and the working
    rate, and holds the encoded video tracks and the encoded audio tracks of
    the timeline, each list in the timeline's order; the video or the audio
    container is left out exactly when there is no such track. *)
Theorem encoded_document_tracks `{Platform}
    (timeline : Timeline) (xmeml : XMEML) :
  Encoder.convertTimeline timeline = Ok xmeml ->
  exists seq d,
    xmeml = mkXMEML "5" [seq]
    /\ Timeline_Duration timeline = Ok d
    /\ Sequence_Name seq = Timeline_Name timeline
    /\ Sequence_Duration seq = int64_of_float64 (rt_Value d)
    /\ Sequence_Rate seq = Spec.encodedRate timeline
    /\ Forall2 (fun track fcpTrack =>
                  Encoder.convertTrack track (Sequence_Rate seq) = Ok fcpTrack)
               (Timeline_VideoTracks timeline)
               (default [] (Media_Video (Sequence_Media seq)))
    /\ Forall2 (fun track fcpTrack =>
                  Encoder.convertTrack track (Sequence_Rate seq) = Ok fcpTrack)
               (Timeline_AudioTracks timeline)
               (default [] (Media_Audio (Sequence_Media seq)))
    /\ (Media_Video (Sequence_Media seq) = None
        <-> Timeline_VideoTracks timeline = [])
    /\ (Media_Audio (Sequence_Media seq) = None
        <-> Timeline_AudioTracks timeline = []).
Proof.
  unfold Encoder.convertTimeline, Spec.encodedRate.
  destruct (Encoder.workingRate timeline) as [frameRate isNTSC]. cbn [fst snd].
  intros Hc. apply bind_Ok in Hc as [seq [Hseq Hc]]. injection Hc as <-.
  unfold Encoder.convertTracks in Hseq.
  apply bind_Ok in Hseq as [d [Hd Hseq]]. apply wrapf_Ok in Hd.
  apply bind_Ok in Hseq as [vs [Hvs Hseq]].
  apply bind_Ok in Hseq as [ts [Hts Hseq]]. injection Hseq as <-.
  exists (mkSequence (Timeline_Name timeline) (int64_of_float64 (rt_Value d))
            (Encoder.sequenceRate frameRate isNTSC)
            (mkMedia (match vs with [] => None | _ => Some vs end)
                     (match ts with [] => None | _ => Some ts end))), d.
  cbn [Sequence_Name Sequence_Duration Sequence_Rate Sequence_Media
       Media_Video Media_Audio].
  apply convertTrackList_tracks in Hvs, Hts.
  repeat (split; [done|]).
  split; [by destruct vs|]. split; [by destruct ts|].
  split.
  - destruct vs.
    + inversion Hvs. by split.
    + split; [done|]. intros Hnil. rewrite Hnil in Hvs. inversion Hvs.
  - destruct ts.
    + inversion Hts. by split.
    + split; [done|]. intros Hnil. rewrite Hnil in Hts. inversion Hts.
Qed.

(** A closed instance of [encoded_document_tracks]: the timeline of the
    gap test. *)
Lemma encoded_document_tracks_witness :
  @Encoder.convertTimeline Fixtures.samplePlatform Fixtures.gapTimeline
  = Ok LawFixtures.encodedGapDocument
  /\ exists seq d,
       LawFixtures.encodedGapDocument = mkXMEML "5" [seq]
       /\ @Timeline_Duration Fixtures.samplePlatform Fixtures.gapTimeline
          = Ok d
       /\ Sequence_Name seq = Timeline_Name Fixtures.gapTimeline
       /\ Sequence_Duration seq = int64_of_float64 (rt_Value d)
       /\ Sequence_Rate seq = Spec.encodedRate Fixtures.gapTimeline
       /\ Forall2 (fun track fcpTrack =>
                     @Encoder.convertTrack Fixtures.samplePlatform track
                       (Sequence_Rate seq)
                     = Ok fcpTrack)
                  (Timeline_VideoTracks Fixtures.gapTimeline)
                  (default [] (Media_Video (Sequence_Media seq)))
       /\ Forall2 (fun track fcpTrack =>
                     @Encoder.convertTrack Fixtures.samplePlatform track
                       (Sequence_Rate seq)
                     = Ok fcpTrack)
                  (Timeline_AudioTracks Fixtures.gapTimeline)
                  (default [] (Media_Audio (Sequence_Media seq)))
       /\ (Media_Video (Sequence_Media seq) = None
           <-> Timeline_VideoTracks Fixtures.gapTimeline = [])
       /\ (Media_Audio (Sequence_Media seq) = None
           <-> Timeline_AudioTracks Fixtures.gapTimeline = []).
Proof.
  assert (Hc : @Encoder.convertTimeline Fixtures.samplePlatform
                 Fixtures.gapTimeline
               = Ok LawFixtures.encodedGapDocument)
    by (vm_compute; reflexivity).
  split; [exact Hc|].
  exact (@encoded_document_tracks Fixtures.samplePlatform Fixtures.gapTimeline
           LawFixtures.encodedGapDocument Hc).
Defined.

(* ===================================================================== *)
(** ** Written tracks come back *)
(* ===================================================================== *)

Section TrackRoundTrip.

Import Decoder Encoder Spec Laws.

Context `{Platform}.

Lemma reencodedTransitionItem_normal (item : TransitionItem) :
  normalTransitionItem item ->
  reencodedTransitionItem item (TransitionItem_Rate item)
                          (TransitionItem_Start item)
  = item.
Proof.
  intros [Hend Heff]. destruct item as [name r st e al eff].
  unfold reencodedTransitionItem.
  cbn [TransitionItem_Name TransitionItem_Rate TransitionItem_Start
       TransitionItem_End TransitionItem_Alignment TransitionItem_Effect] in *.
  rewrite <- Hend. f_equal. destruct eff as [x|]; [|done].
  cbn [option_map]. by rewrite keptEffect_normal.
Qed.

Lemma place_enabled t item :
  Schema.Track_Enabled (place t item) = Schema.Track_Enabled t.
Proof. unfold place. by destruct (payload item). Qed.

Lemma collectItems_place t item :
  start item = match payload item with
               | clipItem c => ClipItem_Start c
               | transition x => TransitionItem_Start x
               | generator g => GeneratorItem_Start g
               end ->
  Permutation (collectItems (place t item)) (collectItems t ++ [item]).
Proof.
  destruct item as [st [c|x|g]]; unfold place;
    cbn [payload start]; intros ->.
  - apply collectItems_appendClipItem.
  - apply collectItems_appendTransitionItem.
  - by rewrite collectItems_appendGeneratorItem.
Qed.

Lemma normalItem_start rate item :
  normalItem rate item ->
  start item = match payload item with
               | clipItem c => ClipItem_Start c
               | transition x => TransitionItem_Start x
               | generator g => GeneratorItem_Start g
               end.
Proof. unfold normalItem. destruct (payload item); by intros [? _]. Qed.

Lemma collectItems_fold rate items : forall t,
  Forall (normalItem rate) items ->
  Permutation (collectItems (fold_left place items t))
              (collectItems t ++ items)
  /\ Schema.Track_Enabled (fold_left place items t) = Schema.Track_Enabled t.
Proof.
  induction items as [|item rest IH]; intros t Hn.
  - cbn [fold_left]. by rewrite app_nil_r.
  - apply Forall_cons in Hn as [Hitem Hrest]. cbn [fold_left].
    destruct (IH (place t item) Hrest) as [Hp He].
    split; [|by rewrite He, place_enabled].
    rewrite Hp, (collectItems_place t item (normalItem_start _ _ Hitem)).
    by rewrite <- app_assoc.
Qed.

(** One turn of the encoder's loop on the decoded form of an item in
    written form, with the cursor at the start of the item: the item is
    put back, and the cursor goes to its end. *)
Lemma convertChildren_written rate seqRate item child rest fcpTrack :
  normalItem rate item ->
  convertItem seqRate item = Ok child ->
  convertChildren rate (child :: rest) fcpTrack (start item)
  = convertChildren rate rest (place fcpTrack item) (itemEnd item).
Proof.
  unfold normalItem, convertItem, place, itemEnd.
  destruct item as [st [c|x|g]]; cbn [payload start].
  - intros (-> & <- & Hn) Hc.
    destruct (clip_item_reencoded c seqRate (ClipItem_Rate c)
                (ClipItem_Start c)) as [clip (Hd & Hgen & He)].
    rewrite Hd in Hc. injection Hc as <-.
    rewrite (reencodedClipItem_normal c Hn) in He.
    destruct (convertClipItem_frameRate c seqRate) as [clip' [Hd' Hdur]].
    rewrite Hd in Hd'. injection Hd' as <-.
    destruct (convertChildren_clip (ClipItem_Rate c) clip rest fcpTrack
                (ClipItem_Start c) _ Hdur) as [t' [-> Hitem]].
    pose proof (convertToGenerator_routes clip (ClipItem_Rate c)
                  (ClipItem_Start c)) as Hroute.
    destruct (isGeneratorClip clip).
    { destruct Hroute as [g [Hg _]]. rewrite Hgen in Hg. discriminate Hg. }
    destruct Hitem as [ci [Hci ->]]. rewrite He in Hci. injection Hci as <-.
    destruct Hn as (_ & _ & _ & Hlen & Hdn & Hend & _).
    cbn [rt_Value]. unfold sub64.
    rewrite (exactFrames_int64 _ Hlen), int64_of_float64_of_int by done.
    by rewrite Hend, Hdn.
  - intros (-> & <- & Hn) Hc.
    destruct (transition_item_reencoded x seqRate (TransitionItem_Rate x)
                (TransitionItem_Start x)) as [trans (Hd & He)].
    rewrite Hd in Hc. monad_simpl in Hc. injection Hc as <-.
    rewrite (reencodedTransitionItem_normal x Hn) in He.
    cbn [convertChildren]. rewrite He. monad_simpl.
    destruct Hn as [Hend _]. rewrite Hend.
    unfold Decoder.convertTransition in Hd. injection Hd as <-.
    reflexivity.
  - intros (-> & <- & Hn) Hc.
    destruct (generator_item_reencoded g seqRate (GeneratorItem_Rate g)
                (GeneratorItem_Start g)) as [clip (Hd & He)].
    rewrite Hd in Hc. monad_simpl in Hc. injection Hc as <-.
    rewrite (reencodedGeneratorItem_normal g Hn) in He.
    assert (Hdur : Clip_Duration clip
                   = Ok (NewRationalTime
                           (float64_of_int (GeneratorItem_Duration g))
                           (Decoder.rateToFrameRate (GeneratorItem_Rate g)))).
    { unfold Decoder.convertGenerator in Hd.
      by destruct (GeneratorItem_Enabled g) as [[|]|]; injection Hd as <-. }
    destruct (convertChildren_clip (GeneratorItem_Rate g) clip rest fcpTrack
                (GeneratorItem_Start g) _ Hdur) as [t' [-> Hitem]].
    pose proof (convertToGenerator_routes clip (GeneratorItem_Rate g)
                  (GeneratorItem_Start g)) as Hroute.
    destruct (isGeneratorClip clip).
    2: { rewrite He in Hroute. discriminate Hroute. }
    destruct Hitem as [g' [Hg ->]]. rewrite He in Hg. injection Hg as <-.
    destruct Hn as (_ & _ & Hdn & _ & Hend & _).
    cbn [rt_Value]. rewrite int64_of_float64_of_int by done.
    by rewrite Hend.
Qed.

Lemma convertChildren_laidOut rate seqRate items : forall children fcpTrack pos,
  Forall (normalItem rate) items ->
  abutting pos items ->
  Forall2 (fun item child => convertItem seqRate item = Ok child)
          items children ->
  convertChildren rate children fcpTrack pos
  = Ok (fold_left place items fcpTrack).
Proof.
  induction items as [|item rest IH]; intros children fcpTrack pos Hn Hab HF.
  - inversion HF. reflexivity.
  - inversion HF as [|? child ? children' Hchild Hrest]; subst.
    apply Forall_cons in Hn as [Hitem Hn]. destruct Hab as [<- Hab].
    rewrite (convertChildren_written rate seqRate item child children'
               fcpTrack Hitem Hchild).
    cbn [fold_left]. by apply IH.
Qed.

End TrackRoundTrip.

(** X22.  A document track in the form the encoder writes it, decoded and
    encoded again at its rate, is the same track: the items come back with
    every field, each in the list of its kind, at the same starts and
    ends.  The form: items in written form at the rate, the first at 0 and
    each starting where the one before ends, at strictly ascending
    starts. *)
Theorem track_round_trip `{Platform}
    (rate seqRate : Rate) (enabled : bool) (items : list Decoder.trackItem)
    (kind : string) (index : nat) :
  Laws.writtenTrack rate items ->
  exists track,
    Decoder.convertTrack (Laws.layOut enabled items) seqRate kind index
    = Ok track
    /\ Encoder.convertTrack track rate = Ok (Laws.layOut enabled items).
Proof.
  intros (Hn & Hab & Hasc). unfold Laws.layOut.
  destruct (collectItems_fold rate items
              (Schema.mkTrack (Some enabled) [] [] []) Hn) as [Hp Hen].
  change (Decoder.collectItems (Schema.mkTrack (Some enabled) [] [] [])
          ++ items) with items in Hp.
  cbn [Schema.Track_Enabled] in Hen.
  assert (Hsort : items
                  = Decoder.sortByStart
                      (Decoder.collectItems
                         (fold_left Laws.place items
                            (Schema.mkTrack (Some enabled) [] [] [])))).
  { apply sorted_perm_unique.
    - by apply ascending_NoDup.
    - by apply ascending_byStart.
    - apply sortByStart_sorted.
    - by rewrite sortByStart_perm, Hp. }
  destruct (convertTrack_inOrder
              (fold_left Laws.place items
                 (Schema.mkTrack (Some enabled) [] [] []))
              seqRate kind index) as [track [Hd HF]].
  rewrite <- Hsort in HF.
  destruct (convertTrack_shape
              (fold_left Laws.place items
                 (Schema.mkTrack (Some enabled) [] [] []))
              seqRate kind index) as [track' [Hd' (_ & _ & _ & Htrack)]].
  rewrite Hd in Hd'. injection Hd' as <-. rewrite Hen in Htrack.
  exists track. split; [exact Hd|].
  unfold Encoder.convertTrack.
  rewrite (convertChildren_laidOut rate seqRate items _ _ 0 Hn Hab HF).
  rewrite Htrack. by destruct enabled.
Qed.

(** A closed instance of [track_round_trip]: a clip item, a transition
    item and a generator item laid end to end. *)
Lemma track_round_trip_witness :
  @Laws.writtenTrack LawFixtures.filePlatform Fixtures.rate24
    LawFixtures.writtenItems
  /\ exists track,
       Decoder.convertTrack (Laws.layOut true LawFixtures.writtenItems)
         Fixtures.rate24 TrackKindVideo 0
       = Ok track
       /\ @Encoder.convertTrack LawFixtures.filePlatform track Fixtures.rate24
          = Ok (Laws.layOut true LawFixtures.writtenItems).
Proof.
  split; [exact writtenItems_written|].
  exact (@track_round_trip LawFixtures.filePlatform Fixtures.rate24
           Fixtures.rate24 true LawFixtures.writtenItems TrackKindVideo 0
           writtenItems_written).
Defined.

(* ===================================================================== *)
(** ** Encoding a clip and decoding it again *)
(* ===================================================================== *)

Section ClipEncodeDecode.

Import Laws.

Context `{Platform}.

Lemma exactFrames_add64 a b :
  exactFrames a -> exactFrames b -> exactFrames (a + b) ->
  add64 a b = (a + b)%Z /\ sub64 (a + b) a = b.
Proof.
  intros Ha Hb Hab. unfold add64, sub64.
  rewrite (exactFrames_int64 _ Hab).
  replace (a + b - a)%Z with b by lia.
  by rewrite (exactFrames_int64 _ Hb).
Qed.

End ClipEncodeDecode.

(** X23.  A clip whose source range is in whole frames, [a] frames in and
    [b] frames long with [a], [b] and [a + b] below 2^53 in size, is encoded
    to a clip item that is decoded to a clip of the same name, the same
    enabled state and the same source range in frames; the rate of its
    times becomes the rate it was encoded at. *)
Theorem clip_encode_decode `{Platform}
    (clip : Clip) (rate seqRate : Rate) (pos a b : Z) (frameRate : float) :
  Clip_SourceRange clip
  = Some (NewTimeRange (NewRationalTime (float64_of_int a) frameRate)
                       (NewRationalTime (float64_of_int b) frameRate)) ->
  Laws.exactFrames a -> Laws.exactFrames b -> Laws.exactFrames (a + b) ->
  exists item decoded,
    Encoder.convertClip clip rate pos = Ok item
    /\ Decoder.convertClipItem item seqRate = Ok (CClip decoded)
    /\ Clip_Name decoded = Clip_Name clip
    /\ Clip_Enabled decoded = Clip_Enabled clip
    /\ Clip_SourceRange decoded
       = Some (NewTimeRange
                 (NewRationalTime (float64_of_int a)
                                  (Decoder.rateToFrameRate rate))
                 (NewRationalTime (float64_of_int b)
                                  (Decoder.rateToFrameRate rate))).
Proof.
  intros Hsr Ha Hb Hab.
  destruct (convertClip_Ok clip rate pos) as [item Hitem].
  { unfold Clip_Duration. by rewrite Hsr. }
  exists item.
  pose proof Hitem as Hfields. unfold Encoder.convertClip in Hfields.
  rewrite Hsr in Hfields. monad_simpl in Hfields.
  cbn [tr_StartTime tr_Duration rt_Value] in Hfields.
  rewrite !int64_of_float64_of_int in Hfields by done.
  destruct (exactFrames_add64 a b Ha Hb Hab) as [Hadd Hsub].
  rewrite Hadd in Hfields.
  apply bind_Ok in Hfields as [file [_ Hfields]]. injection Hfields as <-.
  unfold Decoder.convertClipItem, Decoder.rateToFrameRate. cbv zeta.
  cbn [ClipItem_ID ClipItem_Name ClipItem_Enabled ClipItem_Duration
       ClipItem_Rate ClipItem_Start ClipItem_End ClipItem_In ClipItem_Out
       ClipItem_File ClipItem_Sequence ClipItem_Filter ClipItem_Effect
       ClipItem_Marker].
  rewrite Hsub. unfold NewClip, Clip_SetEnabled.
  destruct (Clip_Enabled clip); eexists; (split; [exact Hitem|]);
    (split; [reflexivity|]); by split.
Qed.

(** A closed instance of [clip_encode_decode]: a clip of 50 frames from frame 10
    at 30 frames per second, encoded at 24. *)
Lemma clip_encode_decode_witness :
  Clip_SourceRange LawFixtures.wholeFrameClip
  = Some (NewTimeRange (NewRationalTime (float64_of_int 10) 30%float)
                       (NewRationalTime (float64_of_int 50) 30%float))
  /\ Laws.exactFrames 10 /\ Laws.exactFrames 50 /\ Laws.exactFrames (10 + 50)
  /\ exists item decoded,
       @Encoder.convertClip Fixtures.samplePlatform LawFixtures.wholeFrameClip
         Fixtures.rate24 0
       = Ok item
       /\ Decoder.convertClipItem item Fixtures.rate24 = Ok (CClip decoded)
       /\ Clip_Name decoded = Clip_Name LawFixtures.wholeFrameClip
       /\ Clip_Enabled decoded = Clip_Enabled LawFixtures.wholeFrameClip
       /\ Clip_SourceRange decoded
          = Some (NewTimeRange
                    (NewRationalTime
                       (float64_of_int 10)
                       (Decoder.rateToFrameRate Fixtures.rate24))
                    (NewRationalTime
                       (float64_of_int 50)
                       (Decoder.rateToFrameRate Fixtures.rate24))).
Proof.
  assert (Ha : Laws.exactFrames 10) by (vm_compute; by split).
  assert (Hb : Laws.exactFrames 50) by (vm_compute; by split).
  assert (Hab : Laws.exactFrames (10 + 50)) by (vm_compute; by split).
  split; [reflexivity|]. split; [exact Ha|]. split; [exact Hb|].
  split; [exact Hab|].
  exact (@clip_encode_decode Fixtures.samplePlatform
           LawFixtures.wholeFrameClip Fixtures.rate24 Fixtures.rate24 0 10 50
           30%float eq_refl Ha Hb Hab).
Defined.

(* ===================================================================== *)
(** ** The empty timeline *)
(* ===================================================================== *)

(** X24.  A timeline without tracks encodes to a document with exactly one
    sequence, at 24 frames per second, that has neither a video nor an audio
    container; and such a sequence decodes to a timeline without tracks. *)
Theorem empty_timeline_encoded `{Platform} (name : string) (d : RationalTime) :
  Timeline_Duration (NewTimeline name) = Ok d ->
  Encoder.convertTimeline (NewTimeline name)
  = Ok (mkXMEML "5"
          [mkSequence name (int64_of_float64 (rt_Value d)) (mkRate 24 false)
                      (mkMedia None None)])
  /\ forall duration rate,
       Decoder.convertSequence
         (mkSequence name duration rate (mkMedia None None))
       = Ok (NewTimeline name).
Proof.
  intros Hd. split; [|reflexivity].
  unfold Encoder.convertTimeline, Encoder.workingRate, NewTimeline.
  cbn [Timeline_Tracks Encoder.findFrameRate].
  unfold Encoder.convertTracks. fold (NewTimeline name). rewrite Hd.
  replace (Encoder.sequenceRate 24 false) with (mkRate 24 false)
    by (vm_compute; reflexivity).
  reflexivity.
Qed.

(** A closed instance: the empty timeline under the sample
    collaborators. *)
Lemma empty_timeline_encoded_witness :
  @Timeline_Duration Fixtures.samplePlatform (NewTimeline "Empty Timeline")
  = Ok (NewRationalTime 125%float 24%float)
  /\ @Encoder.convertTimeline Fixtures.samplePlatform
       (NewTimeline "Empty Timeline")
     = Ok (mkXMEML "5"
             [mkSequence "Empty Timeline"
                (int64_of_float64 (rt_Value (NewRationalTime 125 24)))
                (mkRate 24 false) (mkMedia None None)]).
Proof.
  split; [reflexivity|].
  apply (@empty_timeline_encoded Fixtures.samplePlatform "Empty Timeline"
           (NewRationalTime 125%float 24%float)).
  reflexivity.
Defined.

